(** * Relying-party helper of pyoidc: [oic/utils/rp/__init__.py]

    A shallow embedding of [Client.callback], [Client.create_authn_request]
    and of the [OIDCClients] registry, followed by the properties of the
    callback pipeline and of client provisioning.

    Conventions of the embedding.
    - A Python [str] is a Rocq [string]; each character is a code point
      below 256.  Python dictionaries are [gmap]s keyed by strings.
    - A method that mutates [self] or [session], talks to the OpenID provider
      or raises is a computation in the monad [M]: it threads the mutable
      state and the log of library calls, and ends in [Ok] or [Raise].  What
      was mutated and logged before a [Raise] stays, as in Python.
    - The protocol library ([oic.Client], webfinger, the HTTP layer) is not
      part of this file's source; it is the record [Library] of oracles.  An
      oracle sees the log of the calls made so far, so that the provider may
      answer the same request differently at different times.
    - Messages of the library are read at the types of their schema; a
      configuration value of another type than the code expects ends the
      method with [NotModelled], which is not a Python exception.
    - Of Python's own library, [urlsplit], [str.format], [str.encode] and
      [hashlib.sha256] are modelled as far as the registry uses them. *)

From Stdlib Require Import ZArith Strings.Byte Ascii String List Lia.
From stdpp Require Import base option list strings gmap.

Local Open Scope string_scope.

(** ** Python values and exceptions *)

(** Values found in configuration dictionaries, in [behaviour] and in the
    provider's metadata and registration documents. *)
Inductive atom :=
| AStr (s : string)
| AList (l : list string)
| ABool (b : bool).

Global Instance atom_eq_dec : EqDecision atom.
Proof. solve_decision. Defined.

(** A configuration value: an atom or a dictionary of atoms. *)
Inductive pyval :=
| PAtom (a : atom)
| PDict (d : gmap string atom).

Inductive exn :=
| KeyError (key : string)
| IndexError (msg : string)
| TypeError (msg : string)
| OIDCError (msg : string)
| MissingAttribute (msg : string)
| ValueError (msg : string)
| PyException (msg : string)
| LibraryError (msg : string)
(** Not a Python exception: the input is outside what this embedding models
    (an ill-typed configuration value, a format field with a conversion). *)
| NotModelled (what : string).

Inductive outcome (A : Type) :=
| Ok (a : A)
| Raise (e : exn).
Global Arguments Ok {A} a.
Global Arguments Raise {A} e.

(** ** Messages of the protocol library *)

(** An ID token: its claims ([iss], [sub], [nonce], ...) and the JWS header
    it was received with. *)
Record IdToken := {
  claims : gmap string string;
  jws_header : gmap string string
}.

(** [AuthorizationResponse]: string parameters ([state], [code], ...) and
    the front-channel ID token when there is one. *)
Record AuthorizationResponse := {
  ar_params : gmap string string;
  ar_id_token : option IdToken
}.

(** [AccessTokenResponse]. *)
Record AccessTokenResponse := {
  at_params : gmap string string;
  at_id_token : option IdToken
}.

(** [ErrorResponse]: [error], [error_description], ... *)
Abbreviation ErrorResponse := (gmap string string).

Inductive or_error (A : Type) :=
| Resp (a : A)
| ErrResp (e : ErrorResponse).
Global Arguments Resp {A} a.
Global Arguments ErrResp {A} e.

(** The token request built at lines 103-115. *)
Record TokenRequest := {
  tr_scope : string;
  tr_state : string;
  tr_code : string;
  tr_redirect_uri : string;
  tr_client_id : option string;
  tr_client_secret : option string;
  tr_authn_method : atom
}.

(** What [http_util.Redirect] carries: the location and the headers added at
    line 63. *)
Record Redirect := {
  location : string;
  extra_headers : list (string * string)
}.

(** ** The client object *)

Record Client := {
  client_id : option string;
  client_secret : option string;
  verify_ssl : bool;
  behaviour : gmap string atom;
  registration_response : gmap string atom;
  provider_info : gmap string atom;
  id_token : option (gmap string IdToken);
  allow : gmap string atom;
  userinfo_request_method : string;
  allow_sign_alg_none : bool
}.

Definition set_behaviour (b : gmap string atom) (c : Client) : Client :=
  {| client_id := client_id c; client_secret := client_secret c;
     verify_ssl := verify_ssl c; behaviour := b;
     registration_response := registration_response c;
     provider_info := provider_info c; id_token := id_token c;
     allow := allow c; userinfo_request_method := userinfo_request_method c;
     allow_sign_alg_none := allow_sign_alg_none c |}.

Definition set_registration (r : gmap string atom) (cid csec : option string)
    (c : Client) : Client :=
  {| client_id := cid; client_secret := csec;
     verify_ssl := verify_ssl c; behaviour := behaviour c;
     registration_response := r;
     provider_info := provider_info c; id_token := id_token c;
     allow := allow c; userinfo_request_method := userinfo_request_method c;
     allow_sign_alg_none := allow_sign_alg_none c |}.

Definition set_provider_info (p : gmap string atom) (c : Client) : Client :=
  {| client_id := client_id c; client_secret := client_secret c;
     verify_ssl := verify_ssl c; behaviour := behaviour c;
     registration_response := registration_response c;
     provider_info := p; id_token := id_token c;
     allow := allow c; userinfo_request_method := userinfo_request_method c;
     allow_sign_alg_none := allow_sign_alg_none c |}.

Definition set_id_token (t : option (gmap string IdToken)) (c : Client)
    : Client :=
  {| client_id := client_id c; client_secret := client_secret c;
     verify_ssl := verify_ssl c; behaviour := behaviour c;
     registration_response := registration_response c;
     provider_info := provider_info c; id_token := t;
     allow := allow c; userinfo_request_method := userinfo_request_method c;
     allow_sign_alg_none := allow_sign_alg_none c |}.

Definition set_allow (a : gmap string atom) (c : Client) : Client :=
  {| client_id := client_id c; client_secret := client_secret c;
     verify_ssl := verify_ssl c; behaviour := behaviour c;
     registration_response := registration_response c;
     provider_info := provider_info c; id_token := id_token c;
     allow := a; userinfo_request_method := userinfo_request_method c;
     allow_sign_alg_none := allow_sign_alg_none c |}.

Definition set_userinfo_request_method (m : string) (c : Client) : Client :=
  {| client_id := client_id c; client_secret := client_secret c;
     verify_ssl := verify_ssl c; behaviour := behaviour c;
     registration_response := registration_response c;
     provider_info := provider_info c; id_token := id_token c;
     allow := allow c; userinfo_request_method := m;
     allow_sign_alg_none := allow_sign_alg_none c |}.

Definition set_allow_sign_alg_none (b : bool) (c : Client) : Client :=
  {| client_id := client_id c; client_secret := client_secret c;
     verify_ssl := verify_ssl c; behaviour := behaviour c;
     registration_response := registration_response c;
     provider_info := provider_info c; id_token := id_token c;
     allow := allow c; userinfo_request_method := userinfo_request_method c;
     allow_sign_alg_none := b |}.

(** ** Calls into the protocol library *)

Inductive event :=
| EvRndstr (value : string)
| EvAuthorizationRequest (request_args : gmap string atom)
| EvTokenRequest (req : TokenRequest)
| EvUserInfoRequest (state : string) (method : option string)
| EvWebfinger (userid : string)
| EvProviderConfig (issuer : string)
| EvHandleProviderConfig (pcr : gmap string atom) (issuer : string)
| EvRegister (endpoint : atom) (args : gmap string atom)
| EvStoreRegistration (info : gmap string atom).

(** The calls that reach the provider over the network. *)
Definition is_network (ev : event) : bool :=
  match ev with
  | EvTokenRequest _ | EvUserInfoRequest _ _ | EvWebfinger _
  | EvProviderConfig _ | EvRegister _ _ => true
  | EvRndstr _ | EvAuthorizationRequest _ | EvHandleProviderConfig _ _
  | EvStoreRegistration _ => false
  end.

Definition is_token_request (ev : event) : bool :=
  match ev with EvTokenRequest _ => true | _ => false end.

Definition is_register (ev : event) : bool :=
  match ev with EvRegister _ _ => true | _ => false end.

(** The library as the source calls it.  Each oracle receives the log of
    the calls made before it. *)
Record Library := {
  (** [oic.Client.__init__]: the object before lines 30-33 run. *)
  oic_client_init : bool -> Client;
  (** [oic.oauth2.rndstr]. *)
  rndstr : list event -> string;
  (** [parse_response(AuthorizationResponse, response, ...)]. *)
  parse_response :
    list event -> string -> outcome (or_error AuthorizationResponse);
  (** [construct_AuthorizationRequest] followed by [uri_and_body]: the URL
      and [ht_args]. *)
  authorization_request :
    list event -> gmap string atom -> outcome (string * list (string * string));
  (** [do_access_token_request]. *)
  do_access_token_request :
    list event -> TokenRequest -> outcome (or_error AccessTokenResponse);
  (** [do_user_info_request(state=..., method=...)]; a successful answer is
      given as [inforesp.to_dict()]. *)
  do_user_info_request :
    list event -> string -> option string ->
    outcome (or_error (gmap string string));
  (** [client.wf.discovery_query]. *)
  discovery_query : list event -> string -> outcome string;
  (** [client.provider_config]: the provider configuration response. *)
  provider_config : list event -> string -> outcome (gmap string atom);
  (** [client.handle_provider_config]. *)
  handle_provider_config :
    list event -> gmap string atom -> string -> outcome unit;
  (** [client.register]: the registration response. *)
  register :
    list event -> atom -> gmap string atom -> outcome (gmap string atom)
}.

(** ** The monad of methods *)

Definition M (S A : Type) : Type :=
  S * list event -> outcome A * (S * list event).

Definition ret {S A} (a : A) : M S A := fun s => (Ok a, s).

Definition raise {S A} (e : exn) : M S A := fun s => (Raise e, s).

Definition bind {S A B} (m : M S A) (k : A -> M S B) : M S B :=
  fun s =>
    match m s with
    | (Ok a, s') => k a s'
    | (Raise e, s') => (Raise e, s')
    end.

Notation "'let*' x ':=' m 'in' k" := (bind m (fun x => k))
  (at level 10, x pattern, m at level 200, k at level 200, only parsing).

Definition get_state {S} : M S S := fun s => (Ok (fst s), s).

Definition modify {S} (f : S -> S) : M S unit :=
  fun s => (Ok tt, (f (fst s), snd s)).

Definition get_log {S} : M S (list event) := fun s => (Ok (snd s), s).

(** A library call is appended to the log. *)
Definition emit {S} (ev : event) : M S unit :=
  fun s => (Ok tt, (fst s, (snd s ++ [ev])%list)).

Definition lift_outcome {S A} (o : outcome A) : M S A := fun s => (o, s).

(** Calling an oracle: it is given the log so far, the call is logged, and
    the oracle's exception, if any, propagates. *)
Definition call {S A} (ev : event) (oracle : list event -> outcome A)
    : M S A :=
  let* log := get_log in
  let* _ := emit ev in
  lift_outcome (oracle log).

(** [d[key]] on a dictionary or a message. *)
Definition getitem {S V} (d : gmap string V) (key : string) : M S V :=
  match d !! key with
  | Some v => ret v
  | None => raise (KeyError key)
  end.

(** [l[0]] on a value expected to be a list. *)
Definition index0 (a : atom) : outcome string :=
  match a with
  | AList (x :: _) => Ok x
  | AList [] => Raise (IndexError "list index out of range")
  | AStr (String c _) => Ok (String c "")
  | AStr "" => Raise (IndexError "string index out of range")
  | ABool _ => Raise (TypeError "'bool' object is not subscriptable")
  end.

(** The one-character string holding a double quote. *)
Definition dquote : string := String (ascii_of_nat 34) EmptyString.

(** The message of line 140, which holds [none] between double quotes. *)
Definition alg_none_message : string :=
  "Do not allow " +:+ dquote +:+ "none" +:+ dquote +:+ " signature algorithm".

(** Truth value of a string. *)
Definition truthy (s : string) : bool :=
  match s with "" => false | _ => true end.

(** ** [class Client(oic.Client)] *)

(** What a method of [Client] mutates: the client itself and the caller's
    [session] dictionary. *)
Record CbState := {
  self : Client;
  session : gmap string string
}.

(** What [callback] hands back with [return]: the redirect of a restarted
    request, an [OIDCError] object given back as a value, or the verified
    pair. *)
Inductive retval :=
| RRedirect (r : Redirect)
| RError (e : exn)
| RResult (user_id : string) (userinfo : gmap string string).

Section ClientMethods.

Variable lib : Library.

(** [Client.__init__], lines 25-33. *)
Definition Client_init (verify : bool) (behaviour_arg : gmap string atom)
    : Client :=
  let c := oic_client_init lib verify in
  let c := if bool_decide (behaviour_arg = ∅) then c
           else set_behaviour behaviour_arg c in
  let c := set_userinfo_request_method "" c in
  set_allow_sign_alg_none false c.

Definition call_rndstr {S} : M S string :=
  let* log := get_log in
  let v := rndstr lib log in
  let* _ := emit (EvRndstr v) in
  ret v.

Definition session_set (key value : string) : M CbState unit :=
  modify (fun s => {| self := self s;
                      session := <[key := value]> (session s) |}).

Definition session_get (key : string) : M CbState string :=
  let* s := get_state in
  getitem (session s) key.

Definition get_self : M CbState Client :=
  let* s := get_state in
  ret (self s).

(** [Client.create_authn_request], lines 35-65. *)
Definition create_authn_request (acr_value : option atom)
    (kwargs : gmap string atom) : M CbState Redirect :=
  let* v := call_rndstr in
  let* _ := session_set "state" v in
  let* v := call_rndstr in
  let* _ := session_set "nonce" v in
  let* c := get_self in
  let* response_type := getitem (behaviour c) "response_type" in
  let* scope := getitem (behaviour c) "scope" in
  let* state := session_get "state" in
  let* nonce := session_get "nonce" in
  let* uris := getitem (registration_response c) "redirect_uris" in
  let* redirect_uri := lift_outcome (index0 uris) in
  let request_args : gmap string atom :=
    <["response_type" := response_type]>
      (<["scope" := scope]>
        (<["state" := AStr state]>
          (<["nonce" := AStr nonce]>
            {["redirect_uri" := AStr redirect_uri]}))) in
  let request_args :=
    match acr_value with
    | Some a => <["acr_values" := a]> request_args
    | None => request_args
    end in
  (* request_args.update(kwargs): the caller's values win *)
  let request_args := kwargs ∪ request_args in
  let* (url, ht_args) :=
    call (EvAuthorizationRequest request_args)
         (fun log => authorization_request lib log request_args) in
  ret {| location := url; extra_headers := ht_args |}.

(** [self.id_token[state] = tok], with the [TypeError] fallback of lines
    95-98 and 124-127 for a cache that is still [None]. *)
Definition cache_put (state : string) (tok : IdToken) (c : Client) : Client :=
  set_id_token
    (Some match id_token c with
          | Some cache => <[state := tok]> cache
          | None => {[state := tok]}
          end)
    c.

Definition store_id_token (state : string) (tok : IdToken)
    : M CbState unit :=
  modify (fun s => {| self := cache_put state tok (self s);
                      session := session s |}).

(** Lines 100-127: the code exchange, done when the configured response type
    equals ["code"].  [_id_token] is the front-channel token, if any. *)
Definition code_exchange (authresp : AuthorizationResponse)
    (_id_token : option IdToken) : M CbState (option IdToken) :=
  let* c := get_self in
  let* response_type := getitem (behaviour c) "response_type" in
  if bool_decide (response_type = AStr "code") then
    let* code := getitem (ar_params authresp) "code" in
    let* uris := getitem (registration_response c) "redirect_uris" in
    let* redirect_uri := lift_outcome (index0 uris) in
    let* state := getitem (ar_params authresp) "state" in
    let* authn_method :=
      getitem (registration_response c) "token_endpoint_auth_method" in
    let req := {| tr_scope := "openid"; tr_state := state; tr_code := code;
                  tr_redirect_uri := redirect_uri;
                  tr_client_id := client_id c;
                  tr_client_secret := client_secret c;
                  tr_authn_method := authn_method |} in
    let* atresp :=
      call (EvTokenRequest req)
           (fun log => do_access_token_request lib log req) in
    match atresp with
    | ErrResp err =>
        let* e := getitem err "error" in
        raise (OIDCError ("Invalid response " +:+ e +:+ "."))
    | Resp atresp =>
        (* line 123: atresp['id_token'] *)
        match at_id_token atresp with
        | None => raise (KeyError "id_token")
        | Some tok =>
            let* _ := store_id_token state tok in
            ret (Some tok)
        end
    end
  else ret _id_token.

(** Lines 138-140. *)
Definition check_sign_alg (tok : IdToken) : M CbState unit :=
  let* c := get_self in
  if negb (allow_sign_alg_none c) then
    let* alg := getitem (jws_header tok) "alg" in
    if String.eqb alg "none" then
      raise (OIDCError alg_none_message)
    else ret tt
  else ret tt.

(** Lines 144-147: the [method] keyword of the userinfo request. *)
Definition userinfo_method (c : Client) : option string :=
  if truthy (userinfo_request_method c)
  then Some (userinfo_request_method c) else None.

(** Lines 142-161: the user identifier, the userinfo request and the
    comparison of the two subjects. *)
Definition fetch_userinfo (authresp : AuthorizationResponse) (tok : IdToken)
    : M CbState retval :=
  let* c := get_self in
  let* iss := getitem (claims tok) "iss" in
  let* sub := getitem (claims tok) "sub" in
  let user_id := iss +:+ ":" +:+ sub in
  let method := userinfo_method c in
  let* state := getitem (ar_params authresp) "state" in
  let* inforesp :=
    call (EvUserInfoRequest state method)
         (fun log => do_user_info_request lib log state method) in
  match inforesp with
  | ErrResp err =>
      let* e := getitem err "error" in
      raise (OIDCError ("Invalid response " +:+ e +:+ "."))
  | Resp userinfo =>
      let* sub := getitem (claims tok) "sub" in
      let* u_sub := getitem userinfo "sub" in
      if negb (String.eqb sub u_sub) then
        raise (OIDCError "Invalid response: userid mismatch")
      else ret (RResult user_id userinfo)
  end.

(** Lines 129-161: the checks on the ID token, then the userinfo stage. *)
Definition verify_id_token (authresp : AuthorizationResponse)
    (_id_token : option IdToken) : M CbState retval :=
  match _id_token with
  | None => raise (OIDCError "Invalid response: no IdToken")
  | Some tok =>
      let* c := get_self in
      let* iss := getitem (claims tok) "iss" in
      let* issuer := getitem (provider_info c) "issuer" in
      if negb (bool_decide (AStr iss = issuer)) then
        raise (OIDCError "Issuer mismatch")
      else
      let* nonce := getitem (claims tok) "nonce" in
      let* s_nonce := session_get "nonce" in
      if negb (String.eqb nonce s_nonce) then
        raise (OIDCError "Nonce missmatch")
      else
      let* _ := check_sign_alg tok in
      fetch_userinfo authresp tok
  end.

(** [Client.callback], lines 67-161. *)
Definition callback (response : string) : M CbState retval :=
  let* log := get_log in
  let* authresp := lift_outcome (parse_response lib log response) in
  match authresp with
  | ErrResp err =>
      let* e := getitem err "error" in
      if String.eqb e "login_required" then
        let* r := create_authn_request None ∅ in
        ret (RRedirect r)
      else ret (RError (OIDCError "Access denied"))
  | Resp authresp =>
      let* s_state := session_get "state" in
      let* a_state := getitem (ar_params authresp) "state" in
      if negb (String.eqb s_state a_state) then
        ret (RError (OIDCError "Received state not the same as expected."))
      else
        match ar_id_token authresp with
        | None =>
            let* _id_token := code_exchange authresp None in
            verify_id_token authresp _id_token
        | Some tok =>
            let* nonce := getitem (claims tok) "nonce" in
            let* s_nonce := session_get "nonce" in
            if negb (String.eqb nonce s_nonce) then
              ret (RError
                     (OIDCError "Received nonce not the same as expected."))
            else
              let* _ := store_id_token a_state tok in
              let* _id_token := code_exchange authresp (Some tok) in
              verify_id_token authresp _id_token
        end
  end.

End ClientMethods.

(** ** Python's standard library, as far as the registry uses it *)

(** *** [urllib.parse.urlsplit(url).path]

    As [urllib/parse.py] of the interpreter does it.  Leading C0 control
    characters and blanks are stripped and tab, CR and LF are removed; then
    the scheme, the network location, the fragment and the query are cut
    off, in that order.  A network location with one square bracket and not
    the other raises [ValueError].  Two checks of [urlsplit] are not
    modelled and end in [NotModelled]: the validation of a bracketed host as
    an IP literal, and the NFKC check of a network location that is not
    ASCII. *)

Definition is_alpha (c : ascii) : bool :=
  let n := nat_of_ascii c in
  ((65 <=? n)%nat && (n <=? 90)%nat) || ((97 <=? n)%nat && (n <=? 122)%nat).

Definition is_digit (c : ascii) : bool :=
  let n := nat_of_ascii c in (48 <=? n)%nat && (n <=? 57)%nat.

(** [scheme_chars]: letters, digits and [+-.]. *)
Definition is_scheme_char (c : ascii) : bool :=
  is_alpha c || is_digit c ||
  bool_decide (c = "+"%char) || bool_decide (c = "-"%char) ||
  bool_decide (c = "."%char).

(** [s.find(c)] and the two sides of the first [c]. *)
Fixpoint split_at (c : ascii) (s : string) : option (string * string) :=
  match s with
  | EmptyString => None
  | String d r =>
      if bool_decide (d = c) then Some (EmptyString, r)
      else match split_at c r with
           | Some (a, b) => Some (String d a, b)
           | None => None
           end
  end.

Fixpoint string_forall (p : ascii -> bool) (s : string) : bool :=
  match s with
  | EmptyString => true
  | String c r => p c && string_forall p r
  end.

Definition strip_scheme (url : string) : string :=
  match url with
  | EmptyString => url
  | String c0 _ =>
      match split_at ":"%char url with
      | Some (sch, rest) =>
          if is_alpha c0 && string_forall is_scheme_char sch
          then rest else url
      | None => url
      end
  end.

(** [url.lstrip(chars)]. *)
Fixpoint lstrip (p : ascii -> bool) (s : string) : string :=
  match s with
  | EmptyString => EmptyString
  | String c r => if p c then lstrip p r else s
  end.

(** [_WHATWG_C0_CONTROL_OR_SPACE]: the characters up to the blank. *)
Definition is_c0_control_or_space (c : ascii) : bool :=
  (nat_of_ascii c <=? 32)%nat.

(** [_UNSAFE_URL_BYTES_TO_REMOVE]: tab, CR and LF. *)
Definition is_unsafe_url_byte (c : ascii) : bool :=
  let n := nat_of_ascii c in
  (n =? 9)%nat || (n =? 13)%nat || (n =? 10)%nat.

(** [url.replace(b, "")] for every [b] that satisfies [p]. *)
Fixpoint remove_chars (p : ascii -> bool) (s : string) : string :=
  match s with
  | EmptyString => EmptyString
  | String c r =>
      if p c then remove_chars p r else String c (remove_chars p r)
  end.

Definition is_netloc_delimiter (c : ascii) : bool :=
  bool_decide (c = "/"%char) || bool_decide (c = "?"%char)
  || bool_decide (c = "#"%char).

(** [_splitnetloc(url, 2)] on what follows the two slashes: the network
    location, up to the first of [/?#], and the rest from there on. *)
Fixpoint netloc_of (s : string) : string :=
  match s with
  | EmptyString => EmptyString
  | String c r =>
      if is_netloc_delimiter c then EmptyString else String c (netloc_of r)
  end.

Fixpoint after_netloc (s : string) : string :=
  match s with
  | EmptyString => EmptyString
  | String c r => if is_netloc_delimiter c then s else after_netloc r
  end.

(** [c in s]. *)
Definition contains (c : ascii) (s : string) : bool :=
  negb (string_forall (fun d => negb (bool_decide (d = c))) s).

Definition is_ascii_char (c : ascii) : bool := (nat_of_ascii c <? 128)%nat.

Definition before (c : ascii) (s : string) : string :=
  match split_at c s with
  | Some (a, _) => a
  | None => s
  end.

Definition urlsplit_path (url : string) : outcome string :=
  let url := lstrip is_c0_control_or_space url in
  let url := remove_chars is_unsafe_url_byte url in
  let url := strip_scheme url in
  match url with
  | String "/"%char (String "/"%char r) =>
      let netloc := netloc_of r in
      let url := after_netloc r in
      if xorb (contains "["%char netloc) (contains "]"%char netloc) then
        Raise (ValueError "Invalid IPv6 URL")
      else if contains "["%char netloc then
        Raise (NotModelled "urlsplit: bracketed host")
      else if negb (string_forall is_ascii_char netloc) then
        Raise (NotModelled "urlsplit: network location that is not ASCII")
      else Ok (before "?"%char (before "#"%char url))
  | _ => Ok (before "?"%char (before "#"%char url))
  end.

(** [s[1:]]. *)
Definition tail (s : string) : string :=
  match s with
  | EmptyString => EmptyString
  | String _ r => r
  end.

(** *** [str.format(base=..., iss=...)]

    Literal text, the escapes of a doubled brace, and replacement fields
    that are a plain name.  A field with a conversion, a format
    specification, an attribute or an index is outside the model. *)

Definition is_field_special (c : ascii) : bool :=
  bool_decide (c = "{"%char) || bool_decide (c = "!"%char) ||
  bool_decide (c = ":"%char) || bool_decide (c = "."%char) ||
  bool_decide (c = "["%char).

(** The value of the field [name] when only keyword arguments are given. *)
Definition format_field (kwargs : gmap string string) (name : string)
    : outcome string :=
  if string_forall is_digit name then
    if bool_decide (String.length name <= 9)%nat then
      Raise (IndexError
               "Replacement index out of range for positional args tuple")
    else Raise (NotModelled "format: numeric field name")
  else
    match kwargs !! name with
    | Some v => Ok v
    | None => Raise (KeyError name)
    end.

(** [field] is [None] in literal text and [Some name] inside a replacement
    field whose name read so far is [name]. *)
Fixpoint format_from (kwargs : gmap string string) (field : option string)
    (out : string) (s : string) : outcome string :=
  match s with
  | EmptyString =>
      match field with
      | None => Ok out
      | Some _ => Raise (ValueError "expected '}' before end of string")
      end
  | String c r =>
      match field with
      | None =>
          if bool_decide (c = "{"%char) then
            match r with
            | EmptyString =>
                Raise (ValueError "Single '{' encountered in format string")
            | String "{"%char r' => format_from kwargs None (out +:+ "{") r'
            | _ => format_from kwargs (Some EmptyString) out r
            end
          else if bool_decide (c = "}"%char) then
            match r with
            | String "}"%char r' => format_from kwargs None (out +:+ "}") r'
            | _ =>
                Raise (ValueError "Single '}' encountered in format string")
            end
          else format_from kwargs None (out +:+ String c EmptyString) r
      | Some name =>
          if bool_decide (c = "}"%char) then
            match format_field kwargs name with
            | Ok v => format_from kwargs None (out +:+ v) r
            | Raise e => Raise e
            end
          else if is_field_special c then
            Raise (NotModelled "format: conversion, specification or nesting")
          else format_from kwargs (Some (name +:+ String c EmptyString)) out r
      end
  end.

Definition str_format (template : string) (kwargs : gmap string string)
    : outcome string :=
  format_from kwargs None EmptyString template.

(** The list comprehension of lines 300-302. *)
Fixpoint format_all (kwargs : gmap string string) (templates : list string)
    : outcome (list string) :=
  match templates with
  | [] => Ok []
  | u :: rest =>
      match str_format u kwargs with
      | Ok v =>
          match format_all kwargs rest with
          | Ok vs => Ok (v :: vs)
          | Raise e => Raise e
          end
      | Raise e => Raise e
      end
  end.

(** *** [str.encode('utf8')] for code points below 256 *)

Definition byte_of_N (n : N) : Byte.byte := byte_of_ascii (ascii_of_N n).

Definition utf8_char (c : ascii) : list byte :=
  let n := N_of_ascii c in
  if (n <? 128)%N then [byte_of_N n]
  else [byte_of_N (N.lor 192 (N.shiftr n 6));
        byte_of_N (N.lor 128 (N.land n 63))].

Fixpoint encode_utf8 (s : string) : list byte :=
  match s with
  | EmptyString => []
  | String c r => (utf8_char c ++ encode_utf8 r)%list
  end.

(** *** [hashlib.sha256] (FIPS 180-4) on 32-bit words held in [Z] *)

Module hashlib.

Local Open Scope Z_scope.

Definition mask32 : Z := 4294967295.

Definition add32 (x y : Z) : Z := (x + y) mod 4294967296.

Definition rotr (n x : Z) : Z :=
  Z.lor (Z.shiftr x n) (Z.land (Z.shiftl x (32 - n)) mask32).

Definition Ch (x y z : Z) : Z :=
  Z.lxor (Z.land x y) (Z.land (Z.lxor x mask32) z).

Definition Maj (x y z : Z) : Z :=
  Z.lxor (Z.lxor (Z.land x y) (Z.land x z)) (Z.land y z).

Definition Sigma0 (x : Z) : Z :=
  Z.lxor (Z.lxor (rotr 2 x) (rotr 13 x)) (rotr 22 x).

Definition Sigma1 (x : Z) : Z :=
  Z.lxor (Z.lxor (rotr 6 x) (rotr 11 x)) (rotr 25 x).

Definition sigma0 (x : Z) : Z :=
  Z.lxor (Z.lxor (rotr 7 x) (rotr 18 x)) (Z.shiftr x 3).

Definition sigma1 (x : Z) : Z :=
  Z.lxor (Z.lxor (rotr 17 x) (rotr 19 x)) (Z.shiftr x 10).

(** The round constants and the initial hash value, in decimal. *)
Definition K : list Z :=
  [ 1116352408; 1899447441; 3049323471; 3921009573;
    961987163; 1508970993; 2453635748; 2870763221;
    3624381080; 310598401; 607225278; 1426881987;
    1925078388; 2162078206; 2614888103; 3248222580;
    3835390401; 4022224774; 264347078; 604807628;
    770255983; 1249150122; 1555081692; 1996064986;
    2554220882; 2821834349; 2952996808; 3210313671;
    3336571891; 3584528711; 113926993; 338241895;
    666307205; 773529912; 1294757372; 1396182291;
    1695183700; 1986661051; 2177026350; 2456956037;
    2730485921; 2820302411; 3259730800; 3345764771;
    3516065817; 3600352804; 4094571909; 275423344;
    430227734; 506948616; 659060556; 883997877;
    958139571; 1322822218; 1537002063; 1747873779;
    1955562222; 2024104815; 2227730452; 2361852424;
    2428436474; 2756734187; 3204031479; 3329325298 ].

Definition H0 : list Z :=
  [ 1779033703; 3144134277; 1013904242; 2773480762;
    1359893119; 2600822924; 528734635; 1541459225 ].

Definition Z_of_byte (b : byte) : Z := Z.of_N (Byte.to_N b).

Definition byte_of_Z (z : Z) : byte := byte_of_N (Z.to_N (z mod 256)).

(** Big-endian bytes of [z], [n] of them. *)
Fixpoint be_bytes (n : nat) (z : Z) : list byte :=
  match n with
  | O => []
  | S m => (be_bytes m (Z.shiftr z 8) ++ [byte_of_Z z])%list
  end.

(** The message followed by the bit 1, zeros up to 56 modulo 64 bytes, and
    the length in bits on 8 bytes. *)
Definition pad (msg : list byte) : list byte :=
  let len := Z.of_nat (length msg) in
  let zeros := Z.to_nat ((55 - len) mod 64) in
  (msg ++ [byte_of_Z 128] ++ repeat (byte_of_Z 0) zeros
       ++ be_bytes 8 (8 * len))%list.

(** The big-endian 32-bit words of a byte string. *)
Fixpoint words (fuel : nat) (bs : list byte) : list Z :=
  match fuel, bs with
  | S f, a :: b :: c :: d :: rest =>
      (Z_of_byte a * 16777216 + Z_of_byte b * 65536
       + Z_of_byte c * 256 + Z_of_byte d) :: words f rest
  | _, _ => []
  end.

(** The message schedule, newest word first: [rev_w] holds W(t-1), W(t-2),
    ... and [n] more words are added. *)
Fixpoint schedule (n : nat) (rev_w : list Z) : list Z :=
  match n with
  | O => rev_w
  | S m =>
      let w := add32 (add32 (sigma1 (nth 1 rev_w 0)) (nth 6 rev_w 0))
                     (add32 (sigma0 (nth 14 rev_w 0)) (nth 15 rev_w 0)) in
      schedule m (w :: rev_w)
  end.

Record regs := {
  ra : Z; rb : Z; rc : Z; rd : Z; re : Z; rf : Z; rg : Z; rh : Z
}.

Definition round (r : regs) (kw : Z * Z) : regs :=
  let t1 := add32 (add32 (add32 (rh r) (Sigma1 (re r)))
                         (add32 (Ch (re r) (rf r) (rg r)) (fst kw)))
                  (snd kw) in
  let t2 := add32 (Sigma0 (ra r)) (Maj (ra r) (rb r) (rc r)) in
  {| ra := add32 t1 t2; rb := ra r; rc := rb r; rd := rc r;
     re := add32 (rd r) t1; rf := re r; rg := rf r; rh := rg r |}.

Definition regs_of (h : list Z) : regs :=
  {| ra := nth 0 h 0; rb := nth 1 h 0; rc := nth 2 h 0; rd := nth 3 h 0;
     re := nth 4 h 0; rf := nth 5 h 0; rg := nth 6 h 0; rh := nth 7 h 0 |}.

Definition list_of (r : regs) : list Z :=
  [ra r; rb r; rc r; rd r; re r; rf r; rg r; rh r].

(** One 16-word block folded into the hash value [h]. *)
Definition compress (h : list Z) (block : list Z) : list Z :=
  let w := rev (schedule 48 (rev block)) in
  let r := fold_left round (combine K w) (regs_of h) in
  map (fun p => add32 (fst p) (snd p)) (combine h (list_of r)).

Fixpoint blocks (fuel : nat) (h : list Z) (ws : list Z) : list Z :=
  match fuel, ws with
  | S f, _ :: _ => blocks f (compress h (firstn 16 ws)) (skipn 16 ws)
  | _, _ => h
  end.

Definition digest (msg : list byte) : list byte :=
  let padded := pad msg in
  let ws := words (length padded) padded in
  concat (map (be_bytes 4) (blocks (length ws) H0 ws)).

Definition hex_digit (n : N) : ascii :=
  if (n <? 10)%N then ascii_of_N (48 + n) else ascii_of_N (87 + n).

Fixpoint hex (bs : list byte) : string :=
  match bs with
  | [] => EmptyString
  | b :: rest =>
      let n := Byte.to_N b in
      String (hex_digit (N.shiftr n 4))
             (String (hex_digit (N.land n 15)) (hex rest))
  end.

(** The hash object: what was fed to it so far. *)
Record hash := { fed : list byte }.

Definition sha256 (data : list byte) : hash := {| fed := data |}.

Definition update (h : hash) (data : list byte) : hash :=
  {| fed := (fed h ++ data)%list |}.

Definition hexdigest (h : hash) : string := hex (digest (fed h)).

End hashlib.

(** ** [class OIDCClients] *)

(** The imported configuration module: [config.CLIENTS] and
    [config.VERIFY_SSL]. *)
Record Config := {
  CLIENTS : gmap string (gmap string pyval);
  VERIFY_SSL : bool
}.

(** The registry.  Client objects live in [objects]; a reference to a client
    is its index there, so that two references to one object are told from
    two equal objects.  [client] is [self.client] and [path] is
    [self.path]. *)
Record OIDCClients := {
  objects : list Client;
  client : gmap string nat;
  config : Config;
  seed : list Byte.byte;
  path : gmap string string;
  base_url : string
}.

Definition set_objects (o : list Client) (r : OIDCClients) : OIDCClients :=
  {| objects := o; client := client r; config := config r; seed := seed r;
     path := path r; base_url := base_url r |}.

Definition set_client (m : gmap string nat) (r : OIDCClients) : OIDCClients :=
  {| objects := objects r; client := m; config := config r; seed := seed r;
     path := path r; base_url := base_url r |}.

Definition set_path (p : gmap string string) (r : OIDCClients)
    : OIDCClients :=
  {| objects := objects r; client := client r; config := config r;
     seed := seed r; path := p; base_url := base_url r |}.

(** Configuration values are read at the type the code uses them at. *)
Definition as_dict {S} (what : string) (v : pyval) : M S (gmap string atom) :=
  match v with
  | PDict d => ret d
  | PAtom _ => raise (NotModelled (what +:+ " is not a dictionary"))
  end.

Definition as_str {S} (what : string) (v : pyval) : M S string :=
  match v with
  | PAtom (AStr s) => ret s
  | _ => raise (NotModelled (what +:+ " is not a string"))
  end.

Definition atom_str {S} (what : string) (a : atom) : M S string :=
  match a with
  | AStr s => ret s
  | _ => raise (NotModelled (what +:+ " is not a string"))
  end.

Definition atom_list {S} (what : string) (a : atom) : M S (list string) :=
  match a with
  | AList l => ret l
  | _ => raise (NotModelled (what +:+ " is not a list"))
  end.

(** Modelled from the spec: [store_registration_info] of the protocol
    library, which is not in this file's source.  The client is mutated by
    registration (section 3): the registration document becomes
    [registration_response], and its [client_id] and [client_secret] become
    the client's. *)
Definition store_registration_info (info : gmap string atom) (c : Client)
    : Client :=
  let field k := match info !! k with Some (AStr s) => Some s | _ => None end in
  set_registration info (field "client_id") (field "client_secret") c.

Section Registry.

Variable lib : Library.

(** [client = self.client_cls(...)]: a new object. *)
Definition new_client (c : Client) : M OIDCClients nat :=
  let* reg := get_state in
  let* _ := modify (set_objects (objects reg ++ [c])%list) in
  ret (length (objects reg)).

Definition read_client (r : nat) : M OIDCClients Client :=
  let* reg := get_state in
  match objects reg !! r with
  | Some c => ret c
  | None => raise (NotModelled "dangling client reference")
  end.

Definition update_client (r : nat) (f : Client -> Client)
    : M OIDCClients unit :=
  modify (fun reg => set_objects (alter f r (objects reg)) reg).

(** Modelled from the spec: the effect of the library's
    [client.provider_config(issuer)] on the client.  The provider metadata
    is fetched (section 6) and kept as the client's [provider_info]
    (section 3). *)
Definition do_provider_config (r : nat) (issuer : string)
    : M OIDCClients (gmap string atom) :=
  let* pcr :=
    call (EvProviderConfig issuer) (fun log => provider_config lib log issuer) in
  let* _ := update_client r (set_provider_info pcr) in
  ret pcr.

(** Modelled from the spec: the effect of the library's
    [client.handle_provider_config] on the client, called on the
    [ProviderConfigurationResponse] built from [info], with [issuer].  The
    supplied metadata is used directly (section 4.3) and becomes the client's
    [provider_info]. *)
Definition do_handle_provider_config (r : nat) (info : gmap string atom)
    (issuer : string) : M OIDCClients unit :=
  let* _ :=
    call (EvHandleProviderConfig info issuer)
         (fun log => handle_provider_config lib log info issuer) in
  update_client r (set_provider_info info).

(** Modelled from the spec: the effect of the library's [client.register]
    on the client, called at [endpoint] with the keyword arguments [args].
    The registration response (section 6) is stored as by
    [store_registration_info]. *)
Definition do_register (r : nat) (endpoint : atom) (args : gmap string atom)
    : M OIDCClients (gmap string atom) :=
  let* resp :=
    call (EvRegister endpoint args) (fun log => register lib log endpoint args) in
  let* _ := update_client r (store_registration_info resp) in
  ret resp.

(** [client.store_registration_info] on the [RegistrationResponse] built
    from [info]. *)
Definition do_store_registration_info (r : nat) (info : gmap string atom)
    : M OIDCClients unit :=
  let* _ := emit (EvStoreRegistration info) in
  update_client r (store_registration_info info).

(** [OIDCClients.get_path], lines 185-188: the path of each URI, without
    its first character, is mapped to [issuer], one URI after the other;
    when [urlsplit] refuses a URI, the paths of the URIs before it have been
    recorded. *)
Fixpoint get_path (redirect_uris : list string) (issuer : string)
    : M OIDCClients unit :=
  match redirect_uris with
  | [] => ret tt
  | ruri :: rest =>
      let* p := lift_outcome (urlsplit_path ruri) in
      let* _ :=
        modify (fun reg => set_path (<[tail p := issuer]> (path reg)) reg) in
      get_path rest issuer
  end.

(** [kwargs['client_info']['redirect_uris']]. *)
Definition client_info_redirect_uris (kwargs : gmap string pyval)
    : M OIDCClients (list string) :=
  let* v := getitem kwargs "client_info" in
  let* ci := as_dict "client_info" v in
  let* uris := getitem ci "redirect_uris" in
  atom_list "redirect_uris" uris.

(** [client.register] at [client.provider_info["registration_endpoint"]]
    with the keyword arguments [kwargs["client_info"]]. *)
Definition register_client_info (r : nat) (kwargs : gmap string pyval)
    : M OIDCClients unit :=
  let* c := read_client r in
  let* endpoint := getitem (provider_info c) "registration_endpoint" in
  let* v := getitem kwargs "client_info" in
  let* ci := as_dict "client_info" v in
  let* _ := do_register r endpoint ci in
  ret tt.

(** [kwargs["provider_info"]] handed to [handle_provider_config], with
    [kwargs["provider_info"]["issuer"]]. *)
Definition supplied_provider_info (r : nat) (kwargs : gmap string pyval)
    : M OIDCClients string :=
  let* v := getitem kwargs "provider_info" in
  let* info := as_dict "provider_info" v in
  let* a := getitem info "issuer" in
  let* issuer := atom_str "issuer" a in
  let* _ := do_handle_provider_config r info issuer in
  ret issuer.

(** [kwargs["client_registration"]] handed to [store_registration_info]. *)
Definition supplied_registration (r : nat) (kwargs : gmap string pyval)
    : M OIDCClients unit :=
  let* v := getitem kwargs "client_registration" in
  let* info := as_dict "client_registration" v in
  do_store_registration_info r info.

(** Lines 201-230 of [create_client]: the client object is made and the
    keys that play no part in the election of the provisioning mode are taken
    out of [_key_set].  The result is the reference to the new client and
    the key set. *)
Definition construct_client (kwargs : gmap string pyval)
    : M OIDCClients (nat * gset string) :=
  let _key_set : gset string := dom kwargs in
  (* lines 203-209 *)
  let args := kwargs !! "verify_ssl" in
  let _key_set :=
    match args with
    | Some _ => _key_set ∖ {["verify_ssl"]}
    | None => _key_set
    end in
  (* lines 211-213 *)
  let* v := getitem kwargs "behaviour" in
  let* reg := get_state in
  let* _ :=
    match args with
    | Some _ =>
        raise
          (TypeError "got multiple values for keyword argument 'verify_ssl'")
    | None => ret tt
    end in
  let* b := as_dict "behaviour" v in
  let* r := new_client (Client_init lib (VERIFY_SSL (config reg)) b) in
  (* lines 215-220 *)
  let* _key_set :=
    match kwargs !! "userinfo_request_method" with
    | Some v =>
        let* m := as_str "userinfo_request_method" v in
        let* _ := update_client r (set_userinfo_request_method m) in
        ret (_key_set ∖ {["userinfo_request_method"]})
    | None => ret _key_set
    end in
  (* lines 222-230 *)
  let _key_set := _key_set ∖ {["behaviour"]} in
  let* _key_set :=
    match kwargs !! "allow" with
    | Some v =>
        let* a := as_dict "allow" v in
        let* _ := update_client r (set_allow a) in
        ret (_key_set ∖ {["allow"]})
    | None => ret _key_set
    end in
  ret (r, _key_set).

(** Lines 232-279 of [create_client]: the provisioning mode elected by the
    key set. *)
Definition provision (r : nat) (userid : string) (kwargs : gmap string pyval)
    (_key_set : gset string) : M OIDCClients unit :=
  if bool_decide (_key_set = {["client_info"]}) then
    if negb (truthy userid) then
      raise (MissingAttribute "Missing userid specification")
    else
      let* issuer :=
        call (EvWebfinger userid)
             (fun log => discovery_query lib log userid) in
      let* _ := do_provider_config r issuer in
      let* _ := register_client_info r kwargs in
      let* uris := client_info_redirect_uris kwargs in
      get_path uris issuer
  else if bool_decide (_key_set = {["client_info"; "srv_discovery_url"]}) then
    let* v := getitem kwargs "srv_discovery_url" in
    let* url := as_str "srv_discovery_url" v in
    let* _ := do_provider_config r url in
    let* _ := register_client_info r kwargs in
    let* uris := client_info_redirect_uris kwargs in
    get_path uris url
  else if bool_decide (_key_set = {["provider_info"; "client_info"]}) then
    let* issuer := supplied_provider_info r kwargs in
    let* _ := register_client_info r kwargs in
    let* uris := client_info_redirect_uris kwargs in
    get_path uris issuer
  else if bool_decide
            (_key_set = {["provider_info"; "client_registration"]}) then
    let* issuer := supplied_provider_info r kwargs in
    let* _ := supplied_registration r kwargs in
    let* uris := client_info_redirect_uris kwargs in
    get_path uris issuer
  else if bool_decide
            (_key_set = {["srv_discovery_url"; "client_registration"]}) then
    let* v := getitem kwargs "srv_discovery_url" in
    let* url := as_str "srv_discovery_url" v in
    let* _ := do_provider_config r url in
    let* _ := supplied_registration r kwargs in
    let* uris := client_info_redirect_uris kwargs in
    get_path uris url
  else raise (PyException "Configuration error ?").

(** [OIDCClients.create_client], lines 190-281.  The result is the
    reference to the new client. *)
Definition create_client (userid : string) (kwargs : gmap string pyval)
    : M OIDCClients nat :=
  let* (r, _key_set) := construct_client kwargs in
  let* _ := provision r userid kwargs _key_set in
  ret r.

(** Lines 296-302: the redirect URIs of a dynamically registered client. *)
Definition derive_redirect_uris (seed : list Byte.byte)
    (base_url issuer : string) (base_urls : list string)
    : outcome (list string) :=
  let h := hashlib.sha256 seed in
  let h := hashlib.update h (encode_utf8 issuer) in
  format_all (<["base" := base_url]> {["iss" := hashlib.hexdigest h]})
             base_urls.

(** Lines 307-310: the behaviour of the default profile is merged into the
    client's; a profile without [behaviour] changes nothing. *)
Definition update_behaviour (r : nat) (profile : gmap string pyval)
    : M OIDCClients unit :=
  match profile !! "behaviour" with
  | Some v =>
      let* b := as_dict "behaviour" v in
      update_client r (fun c => set_behaviour (b ∪ behaviour c) c)
  | None => ret tt
  end.

(** Lines 291-310 of [dynamic_client]: the provider configuration is
    fetched, the redirect URIs are derived and recorded, the client is
    registered and the default behaviour merged. *)
Definition register_dynamic (r : nat) (issuer : string)
    : M OIDCClients unit :=
  let* reg := get_state in
  let* _pcr := do_provider_config r issuer in
  let* profile := getitem (CLIENTS (config reg)) EmptyString in
  let* v := getitem profile "client_info" in
  let* _cinfo := as_dict "client_info" v in
  let* a := getitem _cinfo "redirect_uris" in
  let* base_urls := atom_list "redirect_uris" a in
  let* uris :=
    lift_outcome
      (derive_redirect_uris (seed reg) (base_url reg) issuer base_urls) in
  let reg_args := <["redirect_uris" := AList uris]> _cinfo in
  let* _ := get_path uris issuer in
  let* endpoint := getitem _pcr "registration_endpoint" in
  let* _ := do_register r endpoint reg_args in
  update_behaviour r profile.

(** [OIDCClients.dynamic_client], lines 283-313. *)
Definition dynamic_client (userid : string) : M OIDCClients nat :=
  let* reg := get_state in
  let* r := new_client (Client_init lib (VERIFY_SSL (config reg)) ∅) in
  let* issuer :=
    call (EvWebfinger userid) (fun log => discovery_query lib log userid) in
  match client reg !! issuer with
  | Some cached => ret cached
  | None =>
      let* _ := register_dynamic r issuer in
      let* _ :=
        modify (fun reg => set_client (<[issuer := r]> (client reg)) reg) in
      ret r
  end.

(** [OIDCClients.__getitem__], lines 315-324. *)
Definition OIDCClients_getitem (item : string) : M OIDCClients nat :=
  let* reg := get_state in
  match client reg !! item with
  | Some r => ret r
  | None => dynamic_client item
  end.

(** *** [OIDCClients.__init__] *)

(** [self.create_client( **val )], line 183: the entry [userid] of a client
    configuration is bound to the parameter of that name, the other entries
    are the keyword arguments. *)
Definition create_client_of (val : gmap string pyval) : M OIDCClients nat :=
  match val !! "userid" with
  | Some v =>
      let* userid := as_str "userid" v in
      create_client userid (delete "userid" val)
  | None => create_client "" val
  end.

(** The loop of lines 179-183 over the items of [config.CLIENTS]: the
    default profile, under the empty key, is passed over; every other
    configuration gets its client, entered under the key. *)
Fixpoint create_clients (items : list (string * gmap string pyval))
    : M OIDCClients unit :=
  match items with
  | [] => ret tt
  | (key, val) :: rest =>
      if bool_decide (key = "") then create_clients rest
      else
        let* r := create_client_of val in
        let* _ :=
          modify (fun reg => set_client (<[key := r]> (client reg)) reg) in
        create_clients rest
  end.

(** [OIDCClients.__init__], lines 165-183.  [items] is
    [config.CLIENTS.items()] in the order of the dictionary.  The seed is
    the argument or, when that is empty, a random string (whose length the
    oracle [rndstr] does not model), encoded as UTF-8.  The constructor
    gives the registry, or raises what [create_client] raised. *)
Definition OIDCClients_init (cfg : Config)
    (items : list (string * gmap string pyval)) (base seed_arg : string)
    (log : list event) : outcome OIDCClients * list event :=
  let (seed_str, log1) :=
    if truthy seed_arg then (seed_arg, log)
    else (rndstr lib log, (log ++ [EvRndstr (rndstr lib log)])%list) in
  let registry :=
    {| objects := []; client := ∅; config := cfg;
       seed := encode_utf8 seed_str; path := ∅; base_url := base |} in
  match create_clients items (registry, log1) with
  | (Ok _, (reg, log')) => (Ok reg, log')
  | (Raise e, (_, log')) => (Raise e, log')
  end.

End Registry.

(** [OIDCClients.keys] and [OIDCClients.return_paths]. *)
Definition keys (reg : OIDCClients) : gset string := dom (client reg).

Definition return_paths (reg : OIDCClients) : gset string := dom (path reg).

(** Running a method from a state with an empty log. *)
Definition run {S A} (m : M S A) (s : S) : outcome A * (S * list event) :=
  m (s, []).

(** ** Notions used in the statements *)

(** The state of a method of [Client]. *)
Abbreviation mk c sess := {| self := c; session := sess |}.

(** The client after the front-channel stage of [callback] (lines 87-98): a
    front-channel token that passed the nonce check is cached under the
    state. *)
Definition front_client (state : string) (front : option IdToken)
    (c : Client) : Client :=
  match front with
  | Some tok => cache_put state tok c
  | None => c
  end.

(** The ID token cached under [state], if any. *)
Definition cached_id_token (c : Client) (state : string) : option IdToken :=
  match id_token c with
  | Some cache => cache !! state
  | None => None
  end.

(** The token request of lines 103-115 for a client and a response. *)
Definition token_request (c : Client) (state code redirect_uri : string)
    (authn_method : atom) : TokenRequest :=
  {| tr_scope := "openid"; tr_state := state; tr_code := code;
     tr_redirect_uri := redirect_uri;
     tr_client_id := client_id c;
     tr_client_secret := client_secret c;
     tr_authn_method := authn_method |}.

(** The ways in which [callback] hands back a value. *)
Inductive returned (lib : Library) (c : Client) (sess : gmap string string) (log : list event)
    (response : string) (v : retval) (c' : Client)
    (sess' : gmap string string) (log' : list event) : Prop :=
| ret_restart (err : ErrorResponse) (r : Redirect) :
    parse_response lib log response = Ok (ErrResp err) ->
    err !! "error" = Some "login_required" ->
    v = RRedirect r ->
    returned lib c sess log response v c' sess' log'
| ret_access_denied (err : ErrorResponse) (e : string) :
    parse_response lib log response = Ok (ErrResp err) ->
    err !! "error" = Some e ->
    e <> "login_required" ->
    v = RError (OIDCError "Access denied") ->
    c' = c -> sess' = sess -> log' = log ->
    returned lib c sess log response v c' sess' log'
| ret_state_mismatch (authresp : AuthorizationResponse) (s_state a_state : string) :
    parse_response lib log response = Ok (Resp authresp) ->
    sess !! "state" = Some s_state ->
    ar_params authresp !! "state" = Some a_state ->
    s_state <> a_state ->
    v = RError (OIDCError "Received state not the same as expected.") ->
    c' = c -> sess' = sess -> log' = log ->
    returned lib c sess log response v c' sess' log'
| ret_front_nonce_mismatch (authresp : AuthorizationResponse)
    (state nonce s_nonce : string) (tok : IdToken) :
    parse_response lib log response = Ok (Resp authresp) ->
    sess !! "state" = Some state ->
    ar_params authresp !! "state" = Some state ->
    ar_id_token authresp = Some tok ->
    claims tok !! "nonce" = Some nonce ->
    sess !! "nonce" = Some s_nonce ->
    nonce <> s_nonce ->
    v = RError (OIDCError "Received nonce not the same as expected.") ->
    c' = c -> sess' = sess -> log' = log ->
    returned lib c sess log response v c' sess' log'
| ret_accepted (authresp : AuthorizationResponse)
    (state nonce iss sub : string) (tok : IdToken)
    (userinfo : gmap string string) :
    parse_response lib log response = Ok (Resp authresp) ->
    sess !! "state" = Some state ->
    ar_params authresp !! "state" = Some state ->
    (forall ftok, ar_id_token authresp = Some ftok ->
       claims ftok !! "nonce" = sess !! "nonce") ->
    cached_id_token c' state = Some tok ->
    (behaviour c !! "response_type" = Some (AStr "code") \/
     ar_id_token authresp = Some tok) ->
    claims tok !! "iss" = Some iss ->
    provider_info c !! "issuer" = Some (AStr iss) ->
    claims tok !! "nonce" = Some nonce ->
    sess !! "nonce" = Some nonce ->
    (allow_sign_alg_none c = true \/
     exists alg, jws_header tok !! "alg" = Some alg /\ alg <> "none") ->
    claims tok !! "sub" = Some sub ->
    userinfo !! "sub" = Some sub ->
    v = RResult (iss +:+ ":" +:+ sub) userinfo ->
    sess' = sess ->
    returned lib c sess log response v c' sess' log'.


(** [callback] gets past the front-channel stage (lines 75-98) on
    [response]: the response parses to [authresp], its state is the
    session's, and a front-channel ID token, if any, carries the session's
    nonce. *)
Definition passes_front_channel (lib : Library) (sess : gmap string string)
    (log : list event) (response : string) (authresp : AuthorizationResponse)
    (state : string) : Prop :=
  parse_response lib log response = Ok (Resp authresp) /\
  sess !! "state" = Some state /\
  ar_params authresp !! "state" = Some state /\
  forall ftok, ar_id_token authresp = Some ftok ->
    exists nonce,
      claims ftok !! "nonce" = Some nonce /\ sess !! "nonce" = Some nonce.

(** [callback] obtains the ID token [tok], from the front channel or from
    the exchange of lines 100-127, and goes on to verify it with the client
    in state [c1] and the log at [log1]. *)
Definition obtains_id_token (lib : Library) (c : Client)
    (sess : gmap string string) (log : list event) (response : string)
    (authresp : AuthorizationResponse) (tok : IdToken) (c1 : Client)
    (log1 : list event) : Prop :=
  exists state,
    passes_front_channel lib sess log response authresp state /\
    code_exchange lib authresp (ar_id_token authresp)
      ({| self := front_client state (ar_id_token authresp) c;
          session := sess |}, log) =
      (Ok (Some tok), ({| self := c1; session := sess |}, log1)).

(** The response type, read as a space-separated list, names [code]: the
    reading of the specification ("includes"). *)
Fixpoint words_of (acc : string) (s : string) : list string :=
  match s with
  | EmptyString => [acc]
  | String c r =>
      if bool_decide (c = " "%char) then acc :: words_of EmptyString r
      else words_of (acc +:+ String c EmptyString) r
  end.

Definition spec_includes_code (response_type : atom) : bool :=
  match response_type with
  | AStr s => bool_decide ("code" ∈ words_of EmptyString s)
  | AList l => bool_decide ("code" ∈ l)
  | ABool _ => false
  end.

(** No token request among the events. *)
Definition no_token_request (evs : list event) : Prop :=
  Forall (fun ev => is_token_request ev = false) evs.

(** From a state that satisfies [I], and whatever its outcome, the method
    [m] only appends to the log, and only events that satisfy [Q]; the state
    it leaves satisfies [I]. *)
Definition logs_only {S A} (I : S -> Prop) (Q : event -> Prop) (m : M S A)
    : Prop :=
  forall s log, I s ->
    exists evs,
      snd (snd (m (s, log))) = (log ++ evs)%list /\ Forall Q evs /\
      I (fst (snd (m (s, log)))).

(** The client is not configured for the code exchange of line 100. *)
Definition no_exchange_due (s : CbState) : Prop :=
  behaviour (self s) !! "response_type" <> Some (AStr "code").

(** The token gets past the algorithm check of lines 138-140. *)
Definition passes_alg_gate (c : Client) (tok : IdToken) : Prop :=
  allow_sign_alg_none c = true \/
  exists alg, jws_header tok !! "alg" = Some alg /\ alg <> "none".

(** The three error objects that [callback] hands back with [return]
    (lines 82, 85 and 93). *)
Definition returned_errors : list exn :=
  [ OIDCError "Access denied";
    OIDCError "Received state not the same as expected.";
    OIDCError "Received nonce not the same as expected." ].

(** The keys that [create_client] takes out before it elects the mode. *)
Definition pass_through : gset string :=
  {["verify_ssl"; "userinfo_request_method"; "behaviour"; "allow"]}.

(** The key under which [get_path] records a redirect URI: the path that
    [urlsplit] gives, without its first character (line 188). *)
Definition path_key (ruri : string) : outcome string :=
  match urlsplit_path ruri with
  | Ok p => Ok (tail p)
  | Raise e => Raise e
  end.

(** The keys of a list of redirect URIs, or what [urlsplit] raises on the
    first URI that it refuses. *)
Fixpoint path_keys (uris : list string) : outcome (list string) :=
  match uris with
  | [] => Ok []
  | u :: rest =>
      match path_key u with
      | Ok k =>
          match path_keys rest with
          | Ok ks => Ok (k :: ks)
          | Raise e => Raise e
          end
      | Raise e => Raise e
      end
  end.

(** The keys of the redirect URIs that come before the first one that
    [urlsplit] refuses. *)
Fixpoint keys_before_refusal (uris : list string) : list string :=
  match uris with
  | [] => []
  | u :: rest =>
      match path_key u with
      | Ok k => k :: keys_before_refusal rest
      | Raise _ => []
      end
  end.

(** The path index after the keys have been mapped to [issuer] in turn; a
    later key overwrites an earlier one. *)
Definition record_paths (keys : list string) (issuer : string)
    (index : gmap string string) : gmap string string :=
  foldl (fun p key => <[key := issuer]> p) index keys.

(** A registry grown out of [reg0] with one more client object: the
    objects of [reg0] are in place, the client map, the configuration, the
    seed and the base URL are those of [reg0]. *)
Definition one_more_client (reg0 reg : OIDCClients) : Prop :=
  length (objects reg) = S (length (objects reg0)) /\
  (forall i, i < length (objects reg0) ->
     objects reg !! i = objects reg0 !! i) /\
  client reg = client reg0 /\ config reg = config reg0 /\
  seed reg = seed reg0 /\ base_url reg = base_url reg0.

(** The references of the client map lead to client objects, and to
    different objects from different keys. *)
Definition sound_references (reg : OIDCClients) : Prop :=
  (forall key r, client reg !! key = Some r -> r < length (objects reg)) /\
  (forall k1 k2 r,
     client reg !! k1 = Some r -> client reg !! k2 = Some r -> k1 = k2).

(** The key set that elects the provisioning mode. *)
Definition election_keys (kwargs : gmap string pyval) : gset string :=
  dom kwargs ∖ pass_through.

(** From a state that satisfies [I], the method [m] always raises, having
    appended to the log only events that satisfy [Q] and leaving a state
    that satisfies [I]. *)
Definition raises_only {S A} (I : S -> Prop) (Q : event -> Prop) (m : M S A)
    : Prop :=
  forall s log, I s ->
    exists e s' evs,
      m (s, log) = (Raise e, (s', (log ++ evs)%list)) /\ Forall Q evs /\ I s'.

(** The registry's maps are [index] and [cache]; the client objects are left
    open. *)
Definition maps_are (index : gmap string string) (cache : gmap string nat)
    (reg : OIDCClients) : Prop :=
  path reg = index /\ client reg = cache.

(** Where the issuer that [create_client] records comes from, mode by
    mode. *)
Inductive recorded_issuer (lib : Library) (userid : string) (kwargs : gmap string pyval)
    (ks : gset string) (issuer : string) : Prop :=
| issuer_discovered (log0 : list event) :
    ks = {["client_info"]} ->
    discovery_query lib log0 userid = Ok issuer ->
    recorded_issuer lib userid kwargs ks issuer
| issuer_is_discovery_url :
    ks = {["client_info"; "srv_discovery_url"]} ->
    kwargs !! "srv_discovery_url" = Some (PAtom (AStr issuer)) ->
    recorded_issuer lib userid kwargs ks issuer
| issuer_supplied (info : gmap string atom) :
    ks = {["provider_info"; "client_info"]} ->
    kwargs !! "provider_info" = Some (PDict info) ->
    info !! "issuer" = Some (AStr issuer) ->
    recorded_issuer lib userid kwargs ks issuer.


(** The client objects of [reg0] are still there, untouched, and the client
    map is that of [reg0]. *)
Definition keeps_clients_of (reg0 reg : OIDCClients) : Prop :=
  (forall i c, objects reg0 !! i = Some c -> objects reg !! i = Some c) /\
  client reg = client reg0.

(** The redirect URI lists sent in the registration requests of a log. *)
Fixpoint registered_redirect_uris (evs : list event) : list atom :=
  match evs with
  | [] => []
  | EvRegister _ args :: rest =>
      match args !! "redirect_uris" with
      | Some uris => uris :: registered_redirect_uris rest
      | None => registered_redirect_uris rest
      end
  | _ :: rest => registered_redirect_uris rest
  end.

(** No brace in the string. *)
Definition brace_free (s : string) : Prop :=
  string_forall
    (fun c => negb (bool_decide (c = "{"%char) || bool_decide (c = "}"%char)))
    s = true.

(** The per-issuer tag of the specification: the hexadecimal SHA-256 digest
    of the seed followed by the issuer. *)
Definition spec_issuer_tag (seed : list Byte.byte) (issuer : string)
    : string :=
  hashlib.hex (hashlib.digest (seed ++ encode_utf8 issuer)%list).

(** * Fixtures

    A provider and a client for the worked examples. *)

Module Ex.

Definition blank_client (verify : bool) : Client :=
  {| client_id := None; client_secret := None; verify_ssl := verify;
     behaviour := ∅; registration_response := ∅; provider_info := ∅;
     id_token := None; allow := ∅; userinfo_request_method := EmptyString;
     allow_sign_alg_none := false |}.

Definition pcr : gmap string atom :=
  <["issuer" := AStr "https://op.example"]>
    {["registration_endpoint" := AStr "https://op.example/register"]}.

(** The provider answers a registration with the request it was sent and a
    client identifier. *)
Definition registered (args : gmap string atom) : gmap string atom :=
  <["client_id" := AStr "rp-1"]> (<["client_secret" := AStr "s3cret"]> args).

(** A library whose authorization, token and userinfo answers are given. *)
Definition lib (parsed : outcome (or_error AuthorizationResponse))
    (atresp : outcome (or_error AccessTokenResponse))
    (inforesp : outcome (or_error (gmap string string))) : Library :=
  {| oic_client_init := blank_client;
     rndstr := fun log => if Nat.even (length log) then "rnd-a" else "rnd-b";
     parse_response := fun _ _ => parsed;
     authorization_request := fun _ _ => Ok ("https://op.example/authz", []);
     do_access_token_request := fun _ _ => atresp;
     do_user_info_request := fun _ _ _ => inforesp;
     discovery_query := fun _ _ => Ok "https://op.example";
     provider_config := fun _ _ => Ok pcr;
     handle_provider_config := fun _ _ _ => Ok tt;
     register := fun _ _ args => Ok (registered args) |}.

(** A registered client of the provider, configured with [response_type]. *)
Definition rp (response_type : string) (alg_none : bool) : Client :=
  {| client_id := Some "rp-1"; client_secret := Some "s3cret";
     verify_ssl := true;
     behaviour := <["response_type" := AStr response_type]>
                    {["scope" := AList ["openid"]]};
     registration_response :=
       <["redirect_uris" := AList ["https://rp.example/cb"]]>
         {["token_endpoint_auth_method" := AStr "client_secret_basic"]};
     provider_info := pcr;
     id_token := None; allow := ∅; userinfo_request_method := EmptyString;
     allow_sign_alg_none := alg_none |}.

Definition sess : gmap string string :=
  <["state" := "S2"]> {["nonce" := "N"]}.

Definition token (iss sub nonce alg : string) : IdToken :=
  {| claims := <["iss" := iss]> (<["sub" := sub]> {["nonce" := nonce]});
     jws_header := {["alg" := alg]} |}.

Definition authz (state : string) (tok : option IdToken)
    : AuthorizationResponse :=
  {| ar_params := <["state" := state]> {["code" := "C0DE"]};
     ar_id_token := tok |}.

Definition atr (tok : option IdToken) : AccessTokenResponse :=
  {| at_params := {["access_token" := "AT"]}; at_id_token := tok |}.

Definition userinfo (sub : string) : gmap string string :=
  <["sub" := sub]> {["name" := "Alice"]}.

Definition start (c : Client) : CbState * list event :=
  ({| self := c; session := sess |}, []).

(** A registry with the default profile for dynamic registration. *)
Definition default_profile : gmap string pyval :=
  <["client_info" :=
      PDict (<["redirect_uris" := AList ["{base}/authz_cb/{iss}"]]>
               {["client_name" := AStr "rp"]})]>
    {["behaviour" := PDict {["response_type" := AStr "code"]}]}.

Definition registry : OIDCClients :=
  {| objects := []; client := ∅;
     config := {| CLIENTS := {[EmptyString := default_profile]};
                  VERIFY_SSL := true |};
     seed := encode_utf8 "seed"; path := ∅;
     base_url := "https://rp.example" |}.

Definition behaviour_code : pyval :=
  PDict (<["response_type" := AStr "code"]> {["scope" := AList ["openid"]]}).

Definition client_info : gmap string atom :=
  {["redirect_uris" := AList ["https://rp.example/cb"]]}.

(** The configuration of the discovery scenario. *)
Definition discovery_kwargs : gmap string pyval :=
  <["behaviour" := behaviour_code]>
    (<["client_info" := PDict client_info]>
       {["srv_discovery_url" := PAtom (AStr "https://op.example/.well-known")]}).

(** A configuration with supplied provider metadata and a completed
    registration. *)
Definition static_kwargs : gmap string pyval :=
  <["behaviour" := behaviour_code]>
    (<["provider_info" := PDict pcr]>
       {["client_registration" :=
           PDict (<["client_id" := AStr "rp-1"]>
                    (<["client_secret" := AStr "s3cret"]>
                       {["redirect_uris" := AList ["https://rp.example/cb"]]}))]}).

(** A configuration with a discovery URL and a completed registration. *)
Definition discovered_static_kwargs : gmap string pyval :=
  <["behaviour" := behaviour_code]>
    (<["srv_discovery_url" := PAtom (AStr "https://op.example")]>
       {["client_registration" :=
           PDict (<["client_id" := AStr "rp-1"]>
                    {["redirect_uris" := AList ["https://rp.example/cb"]]})]}).

(** A registry that already holds a client for the provider. *)
Definition cached_registry : OIDCClients :=
  {| objects := [rp "code" false];
     client := {["https://op.example" := 0]};
     config := {| CLIENTS := {[EmptyString := default_profile]};
                  VERIFY_SSL := true |};
     seed := encode_utf8 "seed"; path := ∅;
     base_url := "https://rp.example" |}.

Definition quiet : Library :=
  lib (Raise (LibraryError "unused")) (Raise (LibraryError "unused"))
      (Raise (LibraryError "unused")).

End Ex.

(** * Properties *)

(** ** Symbolic execution of methods *)

Ltac unfold_monad :=
  unfold call, session_get, session_set, get_self, call_rndstr, getitem,
    store_id_token, lift_outcome, emit, get_log, modify, get_state,
    bind, ret, raise in *.

(** ** What a method may add to the log *)

Section Logs.

Context {S : Type} (I : S -> Prop) (Q : event -> Prop).

Lemma logs_pure {A} (m : M S A) :
  (forall st, snd (m st) = st) -> logs_only I Q m.
Proof.
  intros Hm s log Hs. exists []. rewrite Hm. simpl.
  by rewrite app_nil_r.
Qed.

Lemma logs_ret {A} (a : A) : logs_only I Q (ret a).
Proof. by apply logs_pure. Qed.

Lemma logs_raise {A} (e : exn) : logs_only (A := A) I Q (raise e).
Proof. by apply logs_pure. Qed.

Lemma logs_lift_outcome {A} (o : outcome A) : logs_only I Q (lift_outcome o).
Proof. by apply logs_pure. Qed.

Lemma logs_get_state : logs_only I Q get_state.
Proof. by apply logs_pure. Qed.

Lemma logs_get_log : logs_only I Q get_log.
Proof. by apply logs_pure. Qed.

Lemma logs_getitem {V} (d : gmap string V) (key : string) :
  logs_only I Q (getitem d key).
Proof. apply logs_pure. intros st. unfold getitem. by destruct (d !! key). Qed.

Lemma logs_modify (f : S -> S) :
  (forall s, I s -> I (f s)) -> logs_only I Q (modify f).
Proof.
  intros Hf s log Hs. exists []. simpl. rewrite app_nil_r. auto.
Qed.

Lemma logs_emit (ev : event) : Q ev -> logs_only I Q (emit ev).
Proof.
  intros Hq s log Hs. exists [ev]. simpl.
  split; [reflexivity|]. split; [by constructor|assumption].
Qed.

Lemma logs_bind {A B} (m : M S A) (k : A -> M S B) :
  logs_only I Q m -> (forall a, logs_only I Q (k a)) ->
  logs_only I Q (bind m k).
Proof.
  intros Hm Hk s log Hs. unfold bind.
  destruct (Hm s log Hs) as (evs1 & Hlog1 & Hq1 & Hi1).
  destruct (m (s, log)) as [[a|e] [s1 log1]]; simpl in Hlog1, Hi1;
    subst log1.
  - destruct (Hk a s1 (log ++ evs1)%list Hi1) as (evs2 & Hlog2 & Hq2 & Hi2).
    exists (evs1 ++ evs2)%list. rewrite Hlog2, app_assoc.
    split; [reflexivity|]. split; [by apply Forall_app|assumption].
  - by exists evs1.
Qed.

Lemma logs_call {A} (ev : event) (oracle : list event -> outcome A) :
  Q ev -> logs_only I Q (call ev oracle).
Proof.
  intros Hq. unfold call.
  apply logs_bind; [apply logs_get_log|]. intros log.
  apply logs_bind; [by apply logs_emit|]. intros _.
  apply logs_lift_outcome.
Qed.

End Logs.

Section Raises.

Context {S : Type} (I : S -> Prop) (Q : event -> Prop).

Lemma raises_raise {A} (e : exn) : raises_only (A := A) I Q (raise e).
Proof.
  intros s log Hs. exists e, s, []. rewrite app_nil_r. by repeat split.
Qed.

Lemma raises_getitem {V} (d : gmap string V) (key : string) :
  d !! key = None -> raises_only I Q (getitem d key).
Proof. intros Hd. unfold getitem. rewrite Hd. apply raises_raise. Qed.

Lemma raises_bind_here {A B} (m : M S A) (k : A -> M S B) :
  raises_only I Q m -> raises_only I Q (bind m k).
Proof.
  intros Hm s log Hs. destruct (Hm s log Hs) as (e & s' & evs & Heq & Hq & Hi).
  exists e, s', evs. unfold bind. rewrite Heq. by repeat split.
Qed.

Lemma raises_bind {A B} (m : M S A) (k : A -> M S B) :
  logs_only I Q m -> (forall a, raises_only I Q (k a)) ->
  raises_only I Q (bind m k).
Proof.
  intros Hm Hk s log Hs. unfold bind.
  destruct (Hm s log Hs) as (evs1 & Hlog1 & Hq1 & Hi1).
  destruct (m (s, log)) as [[a|e] [s1 log1]]; simpl in Hlog1, Hi1;
    subst log1.
  - destruct (Hk a s1 (log ++ evs1)%list Hi1)
      as (e & s' & evs2 & Heq & Hq2 & Hi2).
    exists e, s', (evs1 ++ evs2)%list. rewrite Heq, app_assoc.
    split; [reflexivity|]. split; [by apply Forall_app|assumption].
  - by exists e, s1, evs1.
Qed.

End Raises.

(** A log that was only extended by events outside [P] has the events of
    [P] it had. *)
Lemma logs_only_filter {S A} (I : S -> Prop) (P : event -> bool) (m : M S A)
    (s : S) (log : list event) :
  logs_only I (fun ev => P ev = false) m ->
  I s ->
  filter (fun ev => P ev = true) (snd (snd (m (s, log)))) =
    filter (fun ev => P ev = true) log.
Proof.
  intros Hm Hs. destruct (Hm s log Hs) as (evs & -> & Hq & _).
  rewrite filter_app.
  assert (filter (fun ev => P ev = true) evs = []) as ->.
  { induction Hq as [|ev evs Hev _ IH]; [reflexivity|].
    rewrite filter_cons. rewrite decide_False by congruence. exact IH. }
  apply app_nil_r.
Qed.

Ltac logs_step :=
  first
    [ apply logs_ret | apply logs_raise | apply logs_lift_outcome
    | apply logs_get_state | apply logs_get_log
    | apply logs_getitem
    | apply logs_emit; reflexivity
    | apply logs_call; reflexivity
    | apply logs_bind; [|intros ?]
    | match goal with
      | |- logs_only _ _ (match ?x with _ => _ end) => destruct x
      end ].

Section CallbackProperties.


Variable lib : Library.

Lemma callback_state_check (c : Client) (sess : gmap string string)
    (log : list event) (response : string) (authresp : AuthorizationResponse)
    (s_state a_state : string) :
  parse_response lib log response = Ok (Resp authresp) ->
  sess !! "state" = Some s_state ->
  ar_params authresp !! "state" = Some a_state ->
  s_state <> a_state ->
  callback lib response ({| self := c; session := sess |}, log) =
    (Ok (RError (OIDCError "Received state not the same as expected.")),
     ({| self := c; session := sess |}, log)).
Proof.
  intros Hparse Hs Ha Hne.
  unfold callback. unfold_monad. simpl.
  rewrite Hparse. simpl. rewrite Hs, Ha.
  apply String.eqb_neq in Hne. rewrite Hne. reflexivity.
Qed.

(** *** The stages of [callback], one equation each *)

(** Lines 75-98 passed: [callback] goes on with the code exchange and the
    verification, the front-channel token being cached. *)
Lemma callback_after_front (c : Client) (sess : gmap string string)
    (log : list event) (response : string) (authresp : AuthorizationResponse)
    (state s_nonce : string) :
  parse_response lib log response = Ok (Resp authresp) ->
  sess !! "state" = Some state ->
  ar_params authresp !! "state" = Some state ->
  (forall tok, ar_id_token authresp = Some tok ->
     claims tok !! "nonce" = Some s_nonce /\ sess !! "nonce" = Some s_nonce) ->
  callback lib response (mk c sess, log) =
    bind (code_exchange lib authresp (ar_id_token authresp))
         (verify_id_token lib authresp)
         (mk (front_client state (ar_id_token authresp) c) sess, log).
Proof.
  intros Hparse Hs Ha Hfront.
  unfold callback. unfold_monad. simpl.
  rewrite Hparse. simpl. rewrite Hs, Ha, String.eqb_refl. simpl.
  destruct (ar_id_token authresp) as [tok|]; [|reflexivity].
  destruct (Hfront tok eq_refl) as [Hn Hsn].
  rewrite Hn. simpl. rewrite Hsn, String.eqb_refl. reflexivity.
Qed.

(** Line 92: a front-channel token with another nonce. *)
Lemma callback_front_nonce_check (c : Client) (sess : gmap string string)
    (log : list event) (response : string) (authresp : AuthorizationResponse)
    (state nonce s_nonce : string) (tok : IdToken) :
  parse_response lib log response = Ok (Resp authresp) ->
  sess !! "state" = Some state ->
  ar_params authresp !! "state" = Some state ->
  ar_id_token authresp = Some tok ->
  claims tok !! "nonce" = Some nonce ->
  sess !! "nonce" = Some s_nonce ->
  nonce <> s_nonce ->
  callback lib response (mk c sess, log) =
    (Ok (RError (OIDCError "Received nonce not the same as expected.")),
     (mk c sess, log)).
Proof.
  intros Hparse Hs Ha Htok Hn Hsn Hne.
  unfold callback. unfold_monad. simpl.
  rewrite Hparse. simpl. rewrite Hs, Ha, String.eqb_refl. simpl.
  rewrite Htok, Hn. simpl. rewrite Hsn.
  apply String.eqb_neq in Hne. rewrite Hne. reflexivity.
Qed.

(** Line 100 with another response type: no exchange. *)
Lemma code_exchange_skipped (c : Client) (sess : gmap string string)
    (log : list event) (authresp : AuthorizationResponse)
    (front : option IdToken) (rt : atom) :
  behaviour c !! "response_type" = Some rt ->
  rt <> AStr "code" ->
  code_exchange lib authresp front (mk c sess, log) =
    (Ok front, (mk c sess, log)).
Proof.
  intros Hrt Hne. unfold code_exchange. unfold_monad. simpl.
  rewrite Hrt. rewrite bool_decide_eq_false_2 by done. reflexivity.
Qed.

(** Lines 100-127 with the response type ["code"]: the request is sent and
    the answer decides. *)
Lemma code_exchange_performed (c : Client) (sess : gmap string string)
    (log : list event) (authresp : AuthorizationResponse)
    (front : option IdToken) (state code uri : string) (uris method : atom) :
  behaviour c !! "response_type" = Some (AStr "code") ->
  ar_params authresp !! "code" = Some code ->
  registration_response c !! "redirect_uris" = Some uris ->
  index0 uris = Ok uri ->
  ar_params authresp !! "state" = Some state ->
  registration_response c !! "token_endpoint_auth_method" = Some method ->
  let req := token_request c state code uri method in
  let log' := (log ++ [EvTokenRequest req])%list in
  code_exchange lib authresp front (mk c sess, log) =
    match do_access_token_request lib log req with
    | Ok (Resp atresp) =>
        match at_id_token atresp with
        | Some tok => (Ok (Some tok), (mk (cache_put state tok c) sess, log'))
        | None => (Raise (KeyError "id_token"), (mk c sess, log'))
        end
    | Ok (ErrResp err) =>
        match err !! "error" with
        | Some e =>
            (Raise (OIDCError ("Invalid response " +:+ e +:+ ".")),
             (mk c sess, log'))
        | None => (Raise (KeyError "error"), (mk c sess, log'))
        end
    | Raise e => (Raise e, (mk c sess, log'))
    end.
Proof.
  intros Hrt Hcode Huris Huri Hstate Hmethod req log'.
  unfold code_exchange. unfold_monad. simpl.
  rewrite Hrt. rewrite bool_decide_eq_true_2 by done.
  rewrite Hcode, Huris, Huri, Hstate, Hmethod. simpl.
  fold (token_request c state code uri method). fold req. fold log'.
  destruct (do_access_token_request lib log req) as [[atresp|err]|e];
    simpl; try reflexivity.
  - destruct (at_id_token atresp); reflexivity.
  - destruct (err !! "error"); reflexivity.
Qed.

(** Line 129. *)
Lemma verify_id_token_missing (authresp : AuthorizationResponse)
    (s : CbState * list event) :
  verify_id_token lib authresp None s =
    (Raise (OIDCError "Invalid response: no IdToken"), s).
Proof. reflexivity. Qed.

(** Line 132. *)
Lemma verify_id_token_issuer_mismatch (c : Client)
    (sess : gmap string string) (log : list event)
    (authresp : AuthorizationResponse) (tok : IdToken) (iss : string)
    (issuer : atom) :
  claims tok !! "iss" = Some iss ->
  provider_info c !! "issuer" = Some issuer ->
  AStr iss <> issuer ->
  verify_id_token lib authresp (Some tok) (mk c sess, log) =
    (Raise (OIDCError "Issuer mismatch"), (mk c sess, log)).
Proof.
  intros Hiss Hissuer Hne. unfold verify_id_token. unfold_monad. simpl.
  rewrite Hiss, Hissuer. rewrite bool_decide_eq_false_2 by done.
  reflexivity.
Qed.

(** Line 135. *)
Lemma verify_id_token_nonce_mismatch (c : Client)
    (sess : gmap string string) (log : list event)
    (authresp : AuthorizationResponse) (tok : IdToken)
    (iss nonce s_nonce : string) :
  claims tok !! "iss" = Some iss ->
  provider_info c !! "issuer" = Some (AStr iss) ->
  claims tok !! "nonce" = Some nonce ->
  sess !! "nonce" = Some s_nonce ->
  nonce <> s_nonce ->
  verify_id_token lib authresp (Some tok) (mk c sess, log) =
    (Raise (OIDCError "Nonce missmatch"), (mk c sess, log)).
Proof.
  intros Hiss Hissuer Hn Hsn Hne. unfold verify_id_token. unfold_monad. simpl.
  rewrite Hiss, Hissuer. rewrite bool_decide_eq_true_2 by done. simpl.
  rewrite Hn. simpl. rewrite Hsn.
  apply String.eqb_neq in Hne. rewrite Hne. reflexivity.
Qed.

(** Lines 129-136 passed. *)
Lemma verify_id_token_checked (c : Client) (sess : gmap string string)
    (log : list event) (authresp : AuthorizationResponse) (tok : IdToken)
    (iss nonce : string) :
  claims tok !! "iss" = Some iss ->
  provider_info c !! "issuer" = Some (AStr iss) ->
  claims tok !! "nonce" = Some nonce ->
  sess !! "nonce" = Some nonce ->
  verify_id_token lib authresp (Some tok) (mk c sess, log) =
    bind (check_sign_alg tok) (fun _ => fetch_userinfo lib authresp tok)
         (mk c sess, log).
Proof.
  intros Hiss Hissuer Hn Hsn. unfold verify_id_token. unfold_monad. simpl.
  rewrite Hiss, Hissuer. rewrite bool_decide_eq_true_2 by done. simpl.
  rewrite Hn. simpl. rewrite Hsn, String.eqb_refl. reflexivity.
Qed.

(** Lines 138-140, case by case. *)
Lemma check_sign_alg_allowed (c : Client) (sess : gmap string string)
    (log : list event) (tok : IdToken) :
  allow_sign_alg_none c = true ->
  check_sign_alg tok (mk c sess, log) = (Ok tt, (mk c sess, log)).
Proof.
  intros Hflag. unfold check_sign_alg. unfold_monad. simpl.
  rewrite Hflag. reflexivity.
Qed.

Lemma check_sign_alg_rejects (c : Client) (sess : gmap string string)
    (log : list event) (tok : IdToken) :
  allow_sign_alg_none c = false ->
  jws_header tok !! "alg" = Some "none" ->
  check_sign_alg tok (mk c sess, log) =
    (Raise (OIDCError alg_none_message), (mk c sess, log)).
Proof.
  intros Hflag Halg. unfold check_sign_alg. unfold_monad. simpl.
  rewrite Hflag. simpl. rewrite Halg. reflexivity.
Qed.

Lemma check_sign_alg_other (c : Client) (sess : gmap string string)
    (log : list event) (tok : IdToken) (alg : string) :
  jws_header tok !! "alg" = Some alg ->
  alg <> "none" ->
  check_sign_alg tok (mk c sess, log) = (Ok tt, (mk c sess, log)).
Proof.
  intros Halg Hne. unfold check_sign_alg. unfold_monad. simpl.
  destruct (allow_sign_alg_none c); simpl; [reflexivity|].
  rewrite Halg. apply String.eqb_neq in Hne. rewrite Hne. reflexivity.
Qed.

(** Lines 142-161: the request is sent and the answer decides. *)
Lemma fetch_userinfo_performed (c : Client) (sess : gmap string string)
    (log : list event) (authresp : AuthorizationResponse) (tok : IdToken)
    (iss sub state : string) :
  claims tok !! "iss" = Some iss ->
  claims tok !! "sub" = Some sub ->
  ar_params authresp !! "state" = Some state ->
  let log' := (log ++ [EvUserInfoRequest state (userinfo_method c)])%list in
  fetch_userinfo lib authresp tok (mk c sess, log) =
    match do_user_info_request lib log state (userinfo_method c) with
    | Ok (Resp userinfo) =>
        match userinfo !! "sub" with
        | Some u_sub =>
            if String.eqb sub u_sub
            then (Ok (RResult (iss +:+ ":" +:+ sub) userinfo),
                  (mk c sess, log'))
            else (Raise (OIDCError "Invalid response: userid mismatch"),
                  (mk c sess, log'))
        | None => (Raise (KeyError "sub"), (mk c sess, log'))
        end
    | Ok (ErrResp err) =>
        match err !! "error" with
        | Some e =>
            (Raise (OIDCError ("Invalid response " +:+ e +:+ ".")),
             (mk c sess, log'))
        | None => (Raise (KeyError "error"), (mk c sess, log'))
        end
    | Raise e => (Raise e, (mk c sess, log'))
    end.
Proof.
  intros Hiss Hsub Hstate log'.
  unfold fetch_userinfo. unfold_monad. simpl.
  rewrite Hiss, Hsub, Hstate. simpl.
  fold (userinfo_method c). fold log'.
  destruct (do_user_info_request lib log state (userinfo_method c))
    as [[userinfo|err]|e]; simpl; try reflexivity.
  - destruct (userinfo !! "sub") as [u_sub|]; [|reflexivity].
    destruct (String.eqb sub u_sub); reflexivity.
  - destruct (err !! "error"); reflexivity.
Qed.

(** *** What an accepted token went through *)

(** [verify_id_token] hands back a value only when every check of lines
    129-157 passed, and the value is the verified pair. *)
Lemma verify_id_token_ok_inv (c : Client) (sess : gmap string string)
    (log : list event) (authresp : AuthorizationResponse)
    (t : option IdToken) (v : retval) (s' : CbState * list event) :
  verify_id_token lib authresp t (mk c sess, log) = (Ok v, s') ->
  exists tok iss sub nonce state userinfo,
    t = Some tok /\
    claims tok !! "iss" = Some iss /\
    provider_info c !! "issuer" = Some (AStr iss) /\
    claims tok !! "nonce" = Some nonce /\
    sess !! "nonce" = Some nonce /\
    (allow_sign_alg_none c = true \/
     exists alg, jws_header tok !! "alg" = Some alg /\ alg <> "none") /\
    claims tok !! "sub" = Some sub /\
    ar_params authresp !! "state" = Some state /\
    do_user_info_request lib log state (userinfo_method c) =
      Ok (Resp userinfo) /\
    userinfo !! "sub" = Some sub /\
    v = RResult (iss +:+ ":" +:+ sub) userinfo /\
    s' = (mk c sess,
          (log ++ [EvUserInfoRequest state (userinfo_method c)])%list).
Proof.
  unfold verify_id_token, check_sign_alg, fetch_userinfo.
  destruct t as [tok|]; [|discriminate].
  unfold_monad. simpl. intros H.
  destruct (claims tok !! "iss") as [iss|] eqn:Hiss; [|discriminate].
  destruct (provider_info c !! "issuer") as [issuer|] eqn:Hissuer;
    [|discriminate].
  destruct (bool_decide (AStr iss = issuer)) eqn:Heq; [|discriminate].
  apply bool_decide_eq_true_1 in Heq. subst issuer. simpl in H.
  destruct (claims tok !! "nonce") as [nonce|] eqn:Hn; [|discriminate].
  simpl in H.
  destruct (sess !! "nonce") as [s_nonce|] eqn:Hsn; [|discriminate].
  destruct (String.eqb nonce s_nonce) eqn:Hnn; [|discriminate].
  apply String.eqb_eq in Hnn. subst s_nonce. simpl in H.
  assert (Hgate : allow_sign_alg_none c = true \/
     exists alg, jws_header tok !! "alg" = Some alg /\ alg <> "none").
  { destruct (allow_sign_alg_none c); [by left|right]. simpl in H.
    destruct (jws_header tok !! "alg") as [alg|] eqn:Halg; [|discriminate].
    exists alg. split; [done|].
    destruct (String.eqb alg "none") eqn:E; [discriminate|].
    by apply String.eqb_neq. }
  assert (Hrest :
    fetch_userinfo lib authresp tok (mk c sess, log) = (Ok v, s')).
  { unfold fetch_userinfo. unfold_monad. simpl. rewrite Hiss.
    destruct (allow_sign_alg_none c); simpl in H; [exact H|].
    destruct (jws_header tok !! "alg") as [alg|]; [|discriminate].
    destruct (String.eqb alg "none"); [discriminate|exact H]. }
  clear H. unfold fetch_userinfo in Hrest. unfold_monad. simpl in Hrest.
  rewrite Hiss in Hrest.
  destruct (claims tok !! "sub") as [sub|] eqn:Hsub; [|discriminate].
  destruct (ar_params authresp !! "state") as [state|] eqn:Hst;
    [|discriminate].
  simpl in Hrest.
  destruct (do_user_info_request lib log state (userinfo_method c))
    as [[userinfo|err]|e] eqn:Hreq; simpl in Hrest; try discriminate.
  - destruct (userinfo !! "sub") as [u_sub|] eqn:Hus; [|discriminate].
    destruct (String.eqb sub u_sub) eqn:Hss; [|discriminate].
    apply String.eqb_eq in Hss. subst u_sub. simpl in Hrest.
    injection Hrest as <- <-.
    exists tok, iss, sub, nonce, state, userinfo. by repeat split.
  - destruct (err !! "error"); discriminate.
Qed.

(** [code_exchange] leaves the session and the client's settings alone; what
    it hands back is the token it cached, or the front-channel token when no
    exchange was due. *)
Lemma code_exchange_ok_inv (c : Client) (sess : gmap string string)
    (log : list event) (authresp : AuthorizationResponse)
    (front t : option IdToken) (c' : Client) (sess' : gmap string string)
    (log' : list event) :
  code_exchange lib authresp front (mk c sess, log) =
    (Ok t, (mk c' sess', log')) ->
  sess' = sess /\
  provider_info c' = provider_info c /\
  allow_sign_alg_none c' = allow_sign_alg_none c /\
  ((exists rt, behaviour c !! "response_type" = Some rt /\ rt <> AStr "code" /\
      t = front /\ c' = c /\ log' = log) \/
   (exists state tok req,
      behaviour c !! "response_type" = Some (AStr "code") /\
      ar_params authresp !! "state" = Some state /\
      t = Some tok /\ c' = cache_put state tok c /\
      log' = (log ++ [EvTokenRequest req])%list)).
Proof.
  unfold code_exchange. unfold_monad. simpl. intros H.
  destruct (behaviour c !! "response_type") as [rt|] eqn:Hrt; [|discriminate].
  destruct (bool_decide (rt = AStr "code")) eqn:Hcode.
  - apply bool_decide_eq_true_1 in Hcode. subst rt.
    destruct (ar_params authresp !! "code") as [code|]; [|discriminate].
    destruct (registration_response c !! "redirect_uris") as [uris|];
      [|discriminate].
    destruct (index0 uris) as [uri|]; [|discriminate].
    destruct (ar_params authresp !! "state") as [state|] eqn:Hst;
      [|discriminate].
    destruct (registration_response c !! "token_endpoint_auth_method")
      as [method|]; [|discriminate].
    simpl in H.
    match type of H with
    | context [do_access_token_request lib log ?r] =>
        set (req := r) in *;
        destruct (do_access_token_request lib log req) as [[atresp|err]|e]
    end; simpl in H; try discriminate.
    + destruct (at_id_token atresp) as [tok|]; [|discriminate].
      simpl in H. injection H as <- <- <- <-.
      repeat split. right. exists state, tok, req. by repeat split.
    + destruct (err !! "error"); discriminate.
  - apply bool_decide_eq_false_1 in Hcode.
    injection H as <- <- <- <-.
    repeat split. left. exists rt. by repeat split.
Qed.

Lemma cached_cache_put (c : Client) (state : string) (tok : IdToken) :
  cached_id_token (cache_put state tok c) state = Some tok.
Proof.
  unfold cached_id_token, cache_put. simpl.
  destruct (id_token c); [apply lookup_insert_eq|apply lookup_singleton_eq].
Qed.

Lemma cache_put_settings (c : Client) (state : string) (tok : IdToken) :
  provider_info (cache_put state tok c) = provider_info c /\
  allow_sign_alg_none (cache_put state tok c) = allow_sign_alg_none c /\
  behaviour (cache_put state tok c) = behaviour c /\
  registration_response (cache_put state tok c) = registration_response c /\
  client_id (cache_put state tok c) = client_id c /\
  client_secret (cache_put state tok c) = client_secret c /\
  userinfo_request_method (cache_put state tok c) = userinfo_request_method c.
Proof. by repeat split. Qed.

Lemma front_client_settings (c : Client) (state : string)
    (front : option IdToken) :
  provider_info (front_client state front c) = provider_info c /\
  allow_sign_alg_none (front_client state front c) = allow_sign_alg_none c /\
  behaviour (front_client state front c) = behaviour c /\
  registration_response (front_client state front c)
    = registration_response c /\
  client_id (front_client state front c) = client_id c /\
  client_secret (front_client state front c) = client_secret c /\
  userinfo_request_method (front_client state front c)
    = userinfo_request_method c.
Proof. destruct front; by repeat split. Qed.

(** A value handed back after the front-channel stage is the verified
    pair. *)
Lemma callback_accepts_inv (c : Client) (sess : gmap string string)
    (log : list event) (response : string) (authresp : AuthorizationResponse)
    (state : string) (v : retval) (c' : Client) (sess' : gmap string string)
    (log' : list event) :
  parse_response lib log response = Ok (Resp authresp) ->
  sess !! "state" = Some state ->
  ar_params authresp !! "state" = Some state ->
  (forall ftok, ar_id_token authresp = Some ftok ->
     claims ftok !! "nonce" = sess !! "nonce") ->
  bind (code_exchange lib authresp (ar_id_token authresp))
       (verify_id_token lib authresp)
       (mk (front_client state (ar_id_token authresp) c) sess, log) =
    (Ok v, (mk c' sess', log')) ->
  returned lib c sess log response v c' sess' log'.
Proof.
  intros Hparse Hs Ha Hfront H.
  unfold bind in H.
  destruct (code_exchange lib authresp (ar_id_token authresp)
              (mk (front_client state (ar_id_token authresp) c) sess, log))
    as [[t|e] [[c1 sess1] log1]] eqn:Hex; [|discriminate].
  apply code_exchange_ok_inv in Hex.
  destruct Hex as (Hsess1 & Hpi & Hflag & Hcase). subst sess1.
  apply verify_id_token_ok_inv in H.
  destruct H as (tok & iss & sub & vnonce & vstate & userinfo & Ht & Hiss
                 & Hissuer & Hnonce & Hsnonce & Hgate & Hsub & Hst & Hreq
                 & Husub & Hv & Hs').
  injection Hs' as Hc' Hsess' Hlog'. subst t v c' sess'.
  destruct (front_client_settings c state (ar_id_token authresp))
    as (Fpi & Fflag & Fbeh & _).
  rewrite Hpi, Fpi in Hissuer. rewrite Hflag, Fflag in Hgate.
  assert (Hcached : cached_id_token c1 state = Some tok /\
            (behaviour c !! "response_type" = Some (AStr "code") \/
             ar_id_token authresp = Some tok)).
  { destruct Hcase as [(rt & _ & _ & Ht & Hc1 & _)
                      |(st & tok' & req & Hrt & Hst' & Ht & Hc1 & _)].
    - subst c1. rewrite <- Ht. split; [|by right].
      simpl. apply cached_cache_put.
    - rewrite Ha in Hst'. injection Hst' as <-. injection Ht as <-.
      subst c1. split; [apply cached_cache_put|].
      left. by rewrite Fbeh in Hrt. }
  destruct Hcached as [Hcached Horigin].
  by eapply (ret_accepted lib c sess log response _ c1 sess log' authresp
               state vnonce iss sub tok userinfo).
Qed.

Lemma callback_ok_inv (c : Client) (sess : gmap string string)
    (log : list event) (response : string) (v : retval) (c' : Client)
    (sess' : gmap string string) (log' : list event) :
  callback lib response (mk c sess, log) = (Ok v, (mk c' sess', log')) ->
  returned lib c sess log response v c' sess' log'.
Proof.
  intros H.
  destruct (parse_response lib log response) as [[authresp|err]|e] eqn:Hparse.
  - (* a parsed authorization response *)
    destruct (sess !! "state") as [s_state|] eqn:Hs.
    2:{ unfold callback in H. unfold_monad. simpl in H.
        rewrite Hparse in H. simpl in H. rewrite Hs in H. discriminate. }
    destruct (ar_params authresp !! "state") as [a_state|] eqn:Ha.
    2:{ unfold callback in H. unfold_monad. simpl in H.
        rewrite Hparse in H. simpl in H. rewrite Hs, Ha in H. discriminate. }
    destruct (decide (s_state = a_state)) as [->|Hne].
    2:{ erewrite callback_state_check in H by eassumption.
        injection H as <- <- <- <-. by eapply ret_state_mismatch. }
    destruct (ar_id_token authresp) as [ftok|] eqn:Hfront.
    + destruct (claims ftok !! "nonce") as [nonce|] eqn:Hn.
      2:{ unfold callback in H. unfold_monad. simpl in H.
          rewrite Hparse in H. simpl in H.
          rewrite Hs, Ha, String.eqb_refl in H. simpl in H.
          rewrite Hfront, Hn in H. discriminate. }
      destruct (sess !! "nonce") as [s_nonce|] eqn:Hsn.
      2:{ unfold callback in H. unfold_monad. simpl in H.
          rewrite Hparse in H. simpl in H.
          rewrite Hs, Ha, String.eqb_refl in H. simpl in H.
          rewrite Hfront, Hn in H. simpl in H. rewrite Hsn in H.
          discriminate. }
      destruct (decide (nonce = s_nonce)) as [->|Hnn].
      2:{ erewrite callback_front_nonce_check in H by eassumption.
          injection H as <- <- <- <-. by eapply ret_front_nonce_mismatch. }
      erewrite (callback_after_front c sess log response authresp a_state
                  s_nonce) in H; try eassumption.
      2:{ intros tok Htok. rewrite Hfront in Htok. injection Htok as <-.
          by split. }
      eapply callback_accepts_inv; try eassumption.
      intros ftok' Hf'. rewrite Hfront in Hf'. injection Hf' as <-.
      by rewrite Hn, Hsn.
    + erewrite (callback_after_front c sess log response authresp a_state
                  EmptyString) in H; try eassumption.
      2:{ intros tok Htok. rewrite Hfront in Htok. discriminate. }
      eapply callback_accepts_inv; try eassumption.
      intros ftok' Hf'. rewrite Hfront in Hf'. discriminate.
  - (* an error response *)
    unfold callback in H. unfold_monad. simpl in H.
    rewrite Hparse in H. simpl in H.
    destruct (err !! "error") as [e|] eqn:He; [|discriminate].
    destruct (String.eqb e "login_required") eqn:Hlr.
    + apply String.eqb_eq in Hlr. subst e.
      destruct (create_authn_request lib None ∅ (mk c sess, log))
        as [[r|e] s1]; [|discriminate].
      injection H as <- _. by eapply ret_restart.
    + apply String.eqb_neq in Hlr.
      injection H as <- <- <- <-. by eapply ret_access_denied.
  - unfold callback in H. unfold_monad. simpl in H.
    rewrite Hparse in H. discriminate.
Qed.

Lemma callback_past_front (c : Client) (sess : gmap string string)
    (log : list event) (response : string) (authresp : AuthorizationResponse)
    (state : string) :
  passes_front_channel lib sess log response authresp state ->
  callback lib response (mk c sess, log) =
    bind (code_exchange lib authresp (ar_id_token authresp))
         (verify_id_token lib authresp)
         (mk (front_client state (ar_id_token authresp) c) sess, log).
Proof.
  intros (Hparse & Hs & Ha & Hfront).
  destruct (ar_id_token authresp) as [ftok|] eqn:Hf.
  - destruct (Hfront ftok eq_refl) as (nonce & Hn & Hsn).
    rewrite <- Hf.
    apply (callback_after_front c sess log response authresp state nonce);
      try assumption.
    intros tok Htok. rewrite Hf in Htok. injection Htok as <-. by split.
  - rewrite <- Hf.
    apply (callback_after_front c sess log response authresp state
             EmptyString); try assumption.
    intros tok Htok. rewrite Hf in Htok. discriminate.
Qed.

(** With the token obtained, [callback] is the verification of that token;
    the settings the verification reads are those of the client at the
    start. *)
Lemma callback_verifies_obtained (c : Client) (sess : gmap string string)
    (log : list event) (response : string) (authresp : AuthorizationResponse)
    (tok : IdToken) (c1 : Client) (log1 : list event) :
  obtains_id_token lib c sess log response authresp tok c1 log1 ->
  callback lib response (mk c sess, log) =
    verify_id_token lib authresp (Some tok) (mk c1 sess, log1) /\
  provider_info c1 = provider_info c /\
  allow_sign_alg_none c1 = allow_sign_alg_none c.
Proof.
  intros (state & Hfront & Hex).
  rewrite (callback_past_front c sess log response authresp state Hfront).
  unfold bind at 1. rewrite Hex. split; [reflexivity|].
  apply code_exchange_ok_inv in Hex.
  destruct Hex as (_ & Hpi & Hflag & _).
  destruct (front_client_settings c state (ar_id_token authresp))
    as (Fpi & Fflag & _).
  split; congruence.
Qed.

(** *** No token request without the response type ["code"] *)

Lemma create_authn_request_logs (acr_value : option atom)
    (kwargs : gmap string atom) :
  logs_only no_exchange_due (fun ev => is_token_request ev = false)
    (create_authn_request lib acr_value kwargs).
Proof.
  unfold create_authn_request, call_rndstr, session_set, session_get,
    get_self.
  repeat first [logs_step | apply logs_modify; intros s Hs; exact Hs].
Qed.

Lemma code_exchange_logs (authresp : AuthorizationResponse)
    (front : option IdToken) :
  logs_only no_exchange_due (fun ev => is_token_request ev = false)
    (code_exchange lib authresp front).
Proof.
  intros [c sess] log Hs. unfold no_exchange_due in Hs. simpl in Hs.
  exists []. rewrite app_nil_r.
  unfold code_exchange. unfold_monad. simpl.
  destruct (behaviour c !! "response_type") as [rt|] eqn:Hrt; simpl.
  - rewrite bool_decide_eq_false_2 by congruence. simpl.
    split; [reflexivity|]. split; [constructor|].
    unfold no_exchange_due. simpl. congruence.
  - split; [reflexivity|]. split; [constructor|].
    unfold no_exchange_due. simpl. congruence.
Qed.

Lemma verify_id_token_logs (I : CbState -> Prop)
    (authresp : AuthorizationResponse) (t : option IdToken) :
  logs_only I (fun ev => is_token_request ev = false)
    (verify_id_token lib authresp t).
Proof.
  unfold verify_id_token, check_sign_alg, fetch_userinfo, session_get,
    get_self.
  repeat logs_step.
Qed.

Lemma callback_logs (response : string) :
  logs_only no_exchange_due (fun ev => is_token_request ev = false)
    (callback lib response).
Proof.
  unfold callback, session_get, store_id_token.
  repeat first
    [ apply code_exchange_logs | apply verify_id_token_logs
    | apply create_authn_request_logs
    | logs_step
    | apply logs_modify; intros s Hs; exact Hs ].
Qed.

(** C1.  A parsed authorization response whose state differs from the
    session's ends [callback] with the state-mismatch error: the error object
    is handed back, the client and the session are as before, and the log of
    library calls has not grown, so that neither a token request nor a
    userinfo request was made and no later check ran. *)
Theorem callback_state_mismatch (c : Client) (sess : gmap string string)
    (log : list event) (response : string) (authresp : AuthorizationResponse)
    (s_state a_state : string) :
  parse_response lib log response = Ok (Resp authresp) ->
  sess !! "state" = Some s_state ->
  ar_params authresp !! "state" = Some a_state ->
  s_state <> a_state ->
  exists log',
    callback lib response ({| self := c; session := sess |}, log) =
      (Ok (RError (OIDCError "Received state not the same as expected.")),
       ({| self := c; session := sess |}, log')) /\
    log' = log /\
    filter (fun ev => is_network ev = true) log' =
      filter (fun ev => is_network ev = true) log.
Proof.
  intros Hparse Hs Ha Hne. exists log.
  split; [|split; reflexivity].
  by eapply callback_state_check.
Qed.

(** C2.  Whenever [callback] accepts and hands back [(user_id, claims)],
    the ID token it accepted -- the one cached under the response's state,
    whose issuer and subject make up the user identifier -- carries the
    session's nonce.  A front-channel ID token with another nonce is
    rejected with the nonce error of line 93.  An ID token that [callback]
    obtained and whose nonce differs from the session's is rejected by the
    re-check of line 135; this covers the token of the code exchange that
    follows a front-channel token which had passed. *)
Theorem callback_nonce_consistency (c : Client) (sess : gmap string string)
    (log : list event) (response : string) :
  (forall uid info c' sess' log',
     callback lib response (mk c sess, log) =
       (Ok (RResult uid info), (mk c' sess', log')) ->
     exists authresp state tok nonce iss sub,
       parse_response lib log response = Ok (Resp authresp) /\
       ar_params authresp !! "state" = Some state /\
       cached_id_token c' state = Some tok /\
       claims tok !! "nonce" = Some nonce /\
       sess !! "nonce" = Some nonce /\
       sess' = sess /\
       claims tok !! "iss" = Some iss /\
       claims tok !! "sub" = Some sub /\
       uid = iss +:+ ":" +:+ sub) /\
  (forall authresp state tok nonce s_nonce,
     parse_response lib log response = Ok (Resp authresp) ->
     sess !! "state" = Some state ->
     ar_params authresp !! "state" = Some state ->
     ar_id_token authresp = Some tok ->
     claims tok !! "nonce" = Some nonce ->
     sess !! "nonce" = Some s_nonce ->
     nonce <> s_nonce ->
     callback lib response (mk c sess, log) =
       (Ok (RError (OIDCError "Received nonce not the same as expected.")),
        (mk c sess, log))) /\
  (forall authresp tok c1 log1 iss nonce s_nonce,
     obtains_id_token lib c sess log response authresp tok c1 log1 ->
     claims tok !! "iss" = Some iss ->
     provider_info c !! "issuer" = Some (AStr iss) ->
     claims tok !! "nonce" = Some nonce ->
     sess !! "nonce" = Some s_nonce ->
     nonce <> s_nonce ->
     callback lib response (mk c sess, log) =
       (Raise (OIDCError "Nonce missmatch"), (mk c1 sess, log1))).
Proof.
  split; [|split].
  - intros uid info c' sess' log' H.
    apply callback_ok_inv in H.
    destruct H as [err r _ _ Hv|err e _ _ _ Hv|authresp s_state a_state _ _ _ _ Hv
                  |authresp state nonce s_nonce tok _ _ _ _ _ _ _ Hv
                  |authresp state nonce iss sub tok userinfo Hparse Hs Ha _
                     Hcached _ Hiss _ Hn Hsn _ Hsub _ Hv Hsess];
      try discriminate.
    injection Hv as -> ->.
    exists authresp, state, tok, nonce, iss, sub. by repeat split.
  - intros authresp state tok nonce s_nonce.
    apply callback_front_nonce_check.
  - intros authresp tok c1 log1 iss nonce s_nonce Hob Hiss Hissuer Hn Hsn Hne.
    destruct (callback_verifies_obtained c sess log response authresp tok c1
                log1 Hob) as (-> & Hpi & _).
    eapply verify_id_token_nonce_mismatch; try eassumption.
    by rewrite Hpi.
Qed.

(** C3.  The gate on the [none] signature algorithm (lines 138-140).
    A new client has [allow_sign_alg_none] false.  For an ID token that
    [callback] obtained and that passed the issuer and nonce checks: signed
    with [none], it is rejected with the algorithm error when the flag is
    false, before any userinfo request, and goes on to the userinfo stage
    when the flag is true, so that a token the userinfo stage accepts is
    accepted by [callback] if and only if the flag is true; signed with any
    other algorithm, it goes on to the userinfo stage whatever the flag, and
    the check itself never raises for it. *)
Theorem callback_alg_none_gate (c : Client) (sess : gmap string string)
    (log : list event) (response : string) (authresp : AuthorizationResponse)
    (tok : IdToken) (c1 : Client) (log1 : list event)
    (iss nonce alg : string) :
  obtains_id_token lib c sess log response authresp tok c1 log1 ->
  claims tok !! "iss" = Some iss ->
  provider_info c !! "issuer" = Some (AStr iss) ->
  claims tok !! "nonce" = Some nonce ->
  sess !! "nonce" = Some nonce ->
  jws_header tok !! "alg" = Some alg ->
  (forall verify b, allow_sign_alg_none (Client_init lib verify b) = false) /\
  (alg = "none" -> allow_sign_alg_none c = false ->
     callback lib response (mk c sess, log) =
       (Raise (OIDCError alg_none_message), (mk c1 sess, log1))) /\
  (alg = "none" -> allow_sign_alg_none c = true ->
     callback lib response (mk c sess, log) =
       fetch_userinfo lib authresp tok (mk c1 sess, log1)) /\
  (alg = "none" ->
     forall v s', fetch_userinfo lib authresp tok (mk c1 sess, log1)
                    = (Ok v, s') ->
       (callback lib response (mk c sess, log) = (Ok v, s')
        <-> allow_sign_alg_none c = true)) /\
  (alg <> "none" ->
     check_sign_alg tok (mk c1 sess, log1) = (Ok tt, (mk c1 sess, log1)) /\
     callback lib response (mk c sess, log) =
       fetch_userinfo lib authresp tok (mk c1 sess, log1)).
Proof.
  intros Hob Hiss Hissuer Hn Hsn Halg.
  destruct (callback_verifies_obtained c sess log response authresp tok c1
              log1 Hob) as (Hcb & Hpi & Hflag).
  rewrite <- Hpi in Hissuer.
  pose proof (verify_id_token_checked c1 sess log1 authresp tok iss nonce
                Hiss Hissuer Hn Hsn) as Hver.
  rewrite <- Hcb in Hver. clear Hcb.
  assert (Hrej : alg = "none" -> allow_sign_alg_none c = false ->
     callback lib response (mk c sess, log) =
       (Raise (OIDCError alg_none_message), (mk c1 sess, log1))).
  { intros -> Hf. rewrite Hver. unfold bind.
    rewrite check_sign_alg_rejects; [reflexivity|congruence|assumption]. }
  assert (Hacc : alg = "none" -> allow_sign_alg_none c = true ->
     callback lib response (mk c sess, log) =
       fetch_userinfo lib authresp tok (mk c1 sess, log1)).
  { intros -> Hf. rewrite Hver. unfold bind.
    rewrite check_sign_alg_allowed; [reflexivity|congruence]. }
  split; [reflexivity|].
  split; [exact Hrej|]. split; [exact Hacc|]. split.
  - intros Hnone v s' Hinfo. split.
    + intros Hcb. destruct (allow_sign_alg_none c) eqn:Hf; [reflexivity|].
      rewrite (Hrej Hnone eq_refl) in Hcb. discriminate.
    + intros Hf. by rewrite (Hacc Hnone Hf).
  - intros Hne.
    pose proof (check_sign_alg_other c1 sess log1 tok alg Halg Hne) as Hok.
    split; [exact Hok|].
    rewrite Hver. unfold bind. by rewrite Hok.
Qed.

(** The token request of a client is that of the client after the
    front-channel stage. *)
Lemma token_request_front_client (c : Client) (state : string)
    (front : option IdToken) (st code uri : string) (method : atom) :
  token_request (front_client state front c) st code uri method =
    token_request c st code uri method.
Proof. by destruct front. Qed.

(** The code exchange as [callback] runs it after the front-channel
    stage. *)
Lemma callback_exchange (c : Client) (sess : gmap string string)
    (log : list event) (response : string) (authresp : AuthorizationResponse)
    (state code uri : string) (more : list string) (method : atom) :
  passes_front_channel lib sess log response authresp state ->
  behaviour c !! "response_type" = Some (AStr "code") ->
  ar_params authresp !! "code" = Some code ->
  registration_response c !! "redirect_uris" = Some (AList (uri :: more)) ->
  registration_response c !! "token_endpoint_auth_method" = Some method ->
  let req := token_request c state code uri method in
  let c0 := front_client state (ar_id_token authresp) c in
  let log' := (log ++ [EvTokenRequest req])%list in
  callback lib response (mk c sess, log) =
    match do_access_token_request lib log req with
    | Ok (Resp atresp) =>
        match at_id_token atresp with
        | Some tok =>
            verify_id_token lib authresp (Some tok)
              (mk (cache_put state tok c0) sess, log')
        | None => (Raise (KeyError "id_token"), (mk c0 sess, log'))
        end
    | Ok (ErrResp err) =>
        match err !! "error" with
        | Some e =>
            (Raise (OIDCError ("Invalid response " +:+ e +:+ ".")),
             (mk c0 sess, log'))
        | None => (Raise (KeyError "error"), (mk c0 sess, log'))
        end
    | Raise e => (Raise e, (mk c0 sess, log'))
    end.
Proof.
  intros Hfront Hrt Hcode Huris Hmethod req c0 log'.
  rewrite (callback_past_front c sess log response authresp state Hfront).
  destruct Hfront as (_ & _ & Ha & _).
  destruct (front_client_settings c state (ar_id_token authresp))
    as (_ & _ & Fbeh & Freg & _).
  unfold bind at 1.
  rewrite (code_exchange_performed (front_client state (ar_id_token authresp) c)
             sess log authresp (ar_id_token authresp) state code uri
             (AList (uri :: more)) method);
    try (by rewrite ?Fbeh, ?Freg).
  rewrite token_request_front_client. fold req. fold c0. fold log'.
  destruct (do_access_token_request lib log req) as [[atresp|err]|e];
    try reflexivity.
  - destruct (at_id_token atresp); reflexivity.
  - destruct (err !! "error"); reflexivity.
Qed.

(** C4 (as amended).  The code exchange is tied to the response type being
    exactly ["code"].  With any other configured response type -- a hybrid
    one that names [code] among others included -- [callback] makes no token
    request, whatever it is given and however it ends.  With the response
    type ["code"], once the front-channel stage is passed, [callback] makes
    exactly one token request, with the scope [openid], the state and the
    code of the response, the first registered redirect URI, the client's
    identifier and secret, and the registered
    [token_endpoint_auth_method]. *)
Theorem callback_exchange_iff_code (c : Client) (sess : gmap string string)
    (log : list event) (response : string) :
  (behaviour c !! "response_type" <> Some (AStr "code") ->
     exists evs,
       snd (snd (callback lib response (mk c sess, log))) = (log ++ evs)%list /\
       no_token_request evs) /\
  (forall authresp state code uri more method,
     passes_front_channel lib sess log response authresp state ->
     behaviour c !! "response_type" = Some (AStr "code") ->
     ar_params authresp !! "code" = Some code ->
     registration_response c !! "redirect_uris" = Some (AList (uri :: more)) ->
     registration_response c !! "token_endpoint_auth_method" = Some method ->
     exists evs,
       snd (snd (callback lib response (mk c sess, log))) =
         (log ++ EvTokenRequest
                   {| tr_scope := "openid"; tr_state := state;
                      tr_code := code; tr_redirect_uri := uri;
                      tr_client_id := client_id c;
                      tr_client_secret := client_secret c;
                      tr_authn_method := method |} :: evs)%list /\
       no_token_request evs).
Proof.
  split.
  - intros Hrt.
    destruct (callback_logs response (mk c sess) log Hrt)
      as (evs & Hlog & Hq & _).
    by exists evs.
  - intros authresp state code uri more method Hfront Hrt Hcode Huris Hmethod.
    rewrite (callback_exchange c sess log response authresp state code uri
               more method Hfront Hrt Hcode Huris Hmethod).
    fold (token_request c state code uri method).
    set (req := token_request c state code uri method).
    destruct (do_access_token_request lib log req) as [[atresp|err]|e].
    + destruct (at_id_token atresp) as [tok|].
      * destruct (verify_id_token_logs (fun _ => True) authresp (Some tok)
                    (mk (cache_put state tok
                           (front_client state (ar_id_token authresp) c)) sess)
                    (log ++ [EvTokenRequest req])%list I)
          as (evs & Hlog & Hq & _).
        exists evs. rewrite Hlog, <- app_assoc. by split.
      * exists []. simpl. by split; [|constructor].
    + destruct (err !! "error"); exists []; simpl; by split; [|constructor].
    + exists []. simpl. by split; [|constructor].
Qed.

(** C5 (the code at the failing input).  With the response type ["code"]
    and a successful token response that has no [id_token] entry, line 123
    raises [KeyError]: [callback] does not reach the test of line 129 and
    does not end with the missing-ID-token error.  This is so whether or not
    the front channel delivered an ID token. *)
Theorem callback_code_flow_without_id_token (c : Client)
    (sess : gmap string string) (log : list event) (response : string)
    (authresp : AuthorizationResponse) (state code uri : string)
    (more : list string) (method : atom) (atresp : AccessTokenResponse) :
  passes_front_channel lib sess log response authresp state ->
  behaviour c !! "response_type" = Some (AStr "code") ->
  ar_params authresp !! "code" = Some code ->
  registration_response c !! "redirect_uris" = Some (AList (uri :: more)) ->
  registration_response c !! "token_endpoint_auth_method" = Some method ->
  do_access_token_request lib log (token_request c state code uri method) =
    Ok (Resp atresp) ->
  at_id_token atresp = None ->
  callback lib response (mk c sess, log) =
    (Raise (KeyError "id_token"),
     (mk (front_client state (ar_id_token authresp) c) sess,
      (log ++ [EvTokenRequest (token_request c state code uri method)])%list))
  /\ fst (callback lib response (mk c sess, log)) <>
       Raise (OIDCError "Invalid response: no IdToken").
Proof.
  intros Hfront Hrt Hcode Huris Hmethod Hat Hnone.
  rewrite (callback_exchange c sess log response authresp state code uri
             more method Hfront Hrt Hcode Huris Hmethod).
  rewrite Hat, Hnone. by split.
Qed.

(** Without a code exchange and without a front-channel ID token, line 129
    ends [callback] with the missing-ID-token error. *)
Lemma callback_implicit_flow_without_id_token (c : Client)
    (sess : gmap string string) (log : list event) (response : string)
    (authresp : AuthorizationResponse) (state : string) (rt : atom) :
  passes_front_channel lib sess log response authresp state ->
  ar_id_token authresp = None ->
  behaviour c !! "response_type" = Some rt ->
  rt <> AStr "code" ->
  callback lib response (mk c sess, log) =
    (Raise (OIDCError "Invalid response: no IdToken"), (mk c sess, log)).
Proof.
  intros Hfront Hnone Hrt Hne.
  rewrite (callback_past_front c sess log response authresp state Hfront).
  rewrite Hnone. simpl front_client. unfold bind.
  by rewrite (code_exchange_skipped c sess log authresp None rt Hrt Hne).
Qed.

(** Line 82. *)
Lemma callback_access_denied (c : Client) (sess : gmap string string)
    (log : list event) (response : string) (err : ErrorResponse)
    (e : string) :
  parse_response lib log response = Ok (ErrResp err) ->
  err !! "error" = Some e ->
  e <> "login_required" ->
  callback lib response (mk c sess, log) =
    (Ok (RError (OIDCError "Access denied")), (mk c sess, log)).
Proof.
  intros Hparse He Hne. unfold callback. unfold_monad. simpl.
  rewrite Hparse. simpl. rewrite He.
  apply String.eqb_neq in Hne. rewrite Hne. reflexivity.
Qed.

(** With the checks of lines 129-140 passed, [callback] is the userinfo
    stage. *)
Lemma callback_reaches_userinfo (c : Client) (sess : gmap string string)
    (log : list event) (response : string) (authresp : AuthorizationResponse)
    (tok : IdToken) (c1 : Client) (log1 : list event) (iss nonce : string) :
  obtains_id_token lib c sess log response authresp tok c1 log1 ->
  claims tok !! "iss" = Some iss ->
  provider_info c !! "issuer" = Some (AStr iss) ->
  claims tok !! "nonce" = Some nonce ->
  sess !! "nonce" = Some nonce ->
  passes_alg_gate c tok ->
  callback lib response (mk c sess, log) =
    fetch_userinfo lib authresp tok (mk c1 sess, log1).
Proof.
  intros Hob Hiss Hissuer Hn Hsn Hgate.
  destruct (callback_verifies_obtained c sess log response authresp tok c1
              log1 Hob) as (-> & Hpi & Hflag).
  rewrite <- Hpi in Hissuer.
  rewrite (verify_id_token_checked c1 sess log1 authresp tok iss nonce
             Hiss Hissuer Hn Hsn).
  unfold bind.
  destruct Hgate as [Hf|(alg & Halg & Hne)].
  - rewrite check_sign_alg_allowed; [reflexivity|congruence].
  - by rewrite (check_sign_alg_other c1 sess log1 tok alg Halg Hne).
Qed.

(** C10 (as amended).  [callback] hands three failures back as values: the
    provider's error other than [login_required] (line 82), the state
    mismatch (line 85) and the nonce mismatch of a front-channel ID token
    (line 93); an error object handed back is one of these three, and
    nothing was changed or called before.  Past the front-channel stage
    every failure is raised: the token-exchange error, the missing ID token,
    the issuer mismatch, the nonce mismatch of the re-check, the rejected
    algorithm, the userinfo error and the subject mismatch; a value handed
    back from there on is the verified pair. *)
Theorem callback_error_signalling (c : Client) (sess : gmap string string)
    (log : list event) (response : string) :
  (forall err e,
     parse_response lib log response = Ok (ErrResp err) ->
     err !! "error" = Some e -> e <> "login_required" ->
     callback lib response (mk c sess, log) =
       (Ok (RError (OIDCError "Access denied")), (mk c sess, log))) /\
  (forall authresp s_state a_state,
     parse_response lib log response = Ok (Resp authresp) ->
     sess !! "state" = Some s_state ->
     ar_params authresp !! "state" = Some a_state ->
     s_state <> a_state ->
     callback lib response (mk c sess, log) =
       (Ok (RError (OIDCError "Received state not the same as expected.")),
        (mk c sess, log))) /\
  (forall authresp state tok nonce s_nonce,
     parse_response lib log response = Ok (Resp authresp) ->
     sess !! "state" = Some state ->
     ar_params authresp !! "state" = Some state ->
     ar_id_token authresp = Some tok ->
     claims tok !! "nonce" = Some nonce ->
     sess !! "nonce" = Some s_nonce ->
     nonce <> s_nonce ->
     callback lib response (mk c sess, log) =
       (Ok (RError (OIDCError "Received nonce not the same as expected.")),
        (mk c sess, log))) /\
  (forall e c' sess' log',
     callback lib response (mk c sess, log) =
       (Ok (RError e), (mk c' sess', log')) ->
     e ∈ returned_errors /\ c' = c /\ sess' = sess /\ log' = log) /\
  (forall authresp state,
     passes_front_channel lib sess log response authresp state ->
     (forall v s', callback lib response (mk c sess, log) = (Ok v, s') ->
        exists uid info, v = RResult uid info) /\
     (forall code uri more method err e,
        behaviour c !! "response_type" = Some (AStr "code") ->
        ar_params authresp !! "code" = Some code ->
        registration_response c !! "redirect_uris"
          = Some (AList (uri :: more)) ->
        registration_response c !! "token_endpoint_auth_method"
          = Some method ->
        do_access_token_request lib log
          (token_request c state code uri method) = Ok (ErrResp err) ->
        err !! "error" = Some e ->
        fst (callback lib response (mk c sess, log)) =
          Raise (OIDCError ("Invalid response " +:+ e +:+ "."))) /\
     (forall rt,
        ar_id_token authresp = None ->
        behaviour c !! "response_type" = Some rt -> rt <> AStr "code" ->
        fst (callback lib response (mk c sess, log)) =
          Raise (OIDCError "Invalid response: no IdToken"))) /\
  (forall authresp tok c1 log1 iss,
     obtains_id_token lib c sess log response authresp tok c1 log1 ->
     claims tok !! "iss" = Some iss ->
     (forall issuer,
        provider_info c !! "issuer" = Some issuer -> AStr iss <> issuer ->
        fst (callback lib response (mk c sess, log)) =
          Raise (OIDCError "Issuer mismatch")) /\
     (forall nonce s_nonce,
        provider_info c !! "issuer" = Some (AStr iss) ->
        claims tok !! "nonce" = Some nonce ->
        sess !! "nonce" = Some s_nonce -> nonce <> s_nonce ->
        fst (callback lib response (mk c sess, log)) =
          Raise (OIDCError "Nonce missmatch")) /\
     (forall nonce,
        provider_info c !! "issuer" = Some (AStr iss) ->
        claims tok !! "nonce" = Some nonce ->
        sess !! "nonce" = Some nonce ->
        allow_sign_alg_none c = false ->
        jws_header tok !! "alg" = Some "none" ->
        fst (callback lib response (mk c sess, log)) =
          Raise (OIDCError alg_none_message)) /\
     (forall nonce sub state,
        provider_info c !! "issuer" = Some (AStr iss) ->
        claims tok !! "nonce" = Some nonce ->
        sess !! "nonce" = Some nonce ->
        passes_alg_gate c tok ->
        claims tok !! "sub" = Some sub ->
        ar_params authresp !! "state" = Some state ->
        (forall err e,
           do_user_info_request lib log1 state (userinfo_method c1)
             = Ok (ErrResp err) ->
           err !! "error" = Some e ->
           fst (callback lib response (mk c sess, log)) =
             Raise (OIDCError ("Invalid response " +:+ e +:+ "."))) /\
        (forall userinfo u_sub,
           do_user_info_request lib log1 state (userinfo_method c1)
             = Ok (Resp userinfo) ->
           userinfo !! "sub" = Some u_sub -> sub <> u_sub ->
           fst (callback lib response (mk c sess, log)) =
             Raise (OIDCError "Invalid response: userid mismatch")))).
Proof.
  split; [intros err e; apply callback_access_denied|].
  split; [intros authresp s_state a_state; apply callback_state_check|].
  split; [intros authresp state tok nonce s_nonce;
          apply callback_front_nonce_check|].
  split; [|split].
  - intros e c' sess' log' H. apply callback_ok_inv in H.
    unfold returned_errors.
    destruct H as [err r _ _ Hv|err e' _ _ _ Hv -> -> ->
                  |authresp s_state a_state _ _ _ _ Hv -> -> ->
                  |authresp state nonce s_nonce tok _ _ _ _ _ _ _ Hv -> -> ->
                  |authresp state nonce iss sub tok userinfo _ _ _ _
                     _ _ _ _ _ _ _ _ _ Hv _];
      try discriminate; injection Hv as ->;
      (split; [set_solver|done]).
  - intros authresp state Hfront. split; [|split].
    + intros v [[c' sess'] log'] H. apply callback_ok_inv in H.
      destruct Hfront as (Hparse & Hs & Ha & Hf).
      destruct H as [err r Hp _ _|err e' Hp _ _ _ _ _ _
                  |authresp' s_state a_state Hp Hs' Ha' Hne _ _ _ _
                  |authresp' state' nonce s_nonce tok Hp Hs' Ha' Htok Hn Hsn
                     Hne _ _ _ _
                  |authresp' state' nonce iss sub tok userinfo _ _ _ _
                     _ _ _ _ _ _ _ _ _ Hv _].
      * rewrite Hparse in Hp. discriminate.
      * rewrite Hparse in Hp. discriminate.
      * rewrite Hparse in Hp. injection Hp as <-.
        rewrite Hs in Hs'. rewrite Ha in Ha'. congruence.
      * rewrite Hparse in Hp. injection Hp as <-.
        destruct (Hf tok Htok) as (n & Hn' & Hsn'). congruence.
      * by eexists _, _.
    + intros code uri more method err e Hrt Hcode Huris Hmethod Hat He.
      rewrite (callback_exchange c sess log response authresp state code uri
                 more method Hfront Hrt Hcode Huris Hmethod).
      by rewrite Hat, He.
    + intros rt Hnone Hrt Hne.
      by rewrite (callback_implicit_flow_without_id_token c sess log response
                    authresp state rt Hfront Hnone Hrt Hne).
  - intros authresp tok c1 log1 iss Hob Hiss.
    destruct (callback_verifies_obtained c sess log response authresp tok c1
                log1 Hob) as (Hcb & Hpi & Hflag).
    split; [|split; [|split]].
    + intros issuer Hissuer Hne. rewrite Hcb.
      rewrite <- Hpi in Hissuer.
      by rewrite (verify_id_token_issuer_mismatch c1 sess log1 authresp tok
                    iss issuer Hiss Hissuer Hne).
    + intros nonce s_nonce Hissuer Hn Hsn Hne. rewrite Hcb.
      rewrite <- Hpi in Hissuer.
      by rewrite (verify_id_token_nonce_mismatch c1 sess log1 authresp tok
                    iss nonce s_nonce Hiss Hissuer Hn Hsn Hne).
    + intros nonce Hissuer Hn Hsn Hf Halg. rewrite Hcb.
      rewrite <- Hpi in Hissuer. rewrite <- Hflag in Hf.
      rewrite (verify_id_token_checked c1 sess log1 authresp tok iss nonce
                 Hiss Hissuer Hn Hsn).
      unfold bind. by rewrite check_sign_alg_rejects.
    + intros nonce sub state Hissuer Hn Hsn Hgate Hsub Hst.
      rewrite (callback_reaches_userinfo c sess log response authresp tok c1
                 log1 iss nonce Hob Hiss Hissuer Hn Hsn Hgate).
      rewrite (fetch_userinfo_performed c1 sess log1 authresp tok iss sub
                 state Hiss Hsub Hst).
      split.
      * intros err e Hreq He. by rewrite Hreq, He.
      * intros userinfo u_sub Hreq Hus Hne. rewrite Hreq, Hus.
        apply String.eqb_neq in Hne. by rewrite Hne.
Qed.

End CallbackProperties.

(** ** The registry *)

Section RegistryProperties.

Variable lib : Library.

(** *** Steps that leave the path index and the client map alone *)

Section Invariants.

(** An invariant [I] of the registry that survives the making of a client
    object and the update of the objects at the references in [fresh]. *)
Variable I : OIDCClients -> Prop.
Variable fresh : nat -> Prop.
Variable Q : event -> Prop.

Hypothesis I_new : forall reg c,
  I reg -> I (set_objects (objects reg ++ [c])%list reg).
Hypothesis I_update : forall reg r f,
  fresh r -> I reg -> I (set_objects (alter f r (objects reg)) reg).

Lemma inv_new_client (c : Client) : logs_only I Q (new_client c).
Proof.
  intros s log Hs. exists []. simpl. rewrite app_nil_r.
  split; [reflexivity|]. split; [constructor|]. by apply I_new.
Qed.

Lemma inv_read_client (r : nat) : logs_only I Q (read_client r).
Proof. unfold read_client. repeat logs_step. Qed.

Lemma inv_update_client (r : nat) (f : Client -> Client) :
  fresh r -> logs_only I Q (update_client r f).
Proof.
  intros Hr. unfold update_client. apply logs_modify.
  intros s Hs. by apply I_update.
Qed.

Lemma inv_as_dict (what : string) (v : pyval) :
  logs_only I Q (as_dict what v).
Proof. unfold as_dict. repeat logs_step. Qed.

Lemma inv_as_str (what : string) (v : pyval) :
  logs_only I Q (as_str what v).
Proof. unfold as_str. repeat logs_step. Qed.

Lemma inv_atom_str (what : string) (a : atom) :
  logs_only I Q (atom_str what a).
Proof. unfold atom_str. repeat logs_step. Qed.

Lemma inv_atom_list (what : string) (a : atom) :
  logs_only I Q (atom_list what a).
Proof. unfold atom_list. repeat logs_step. Qed.

Lemma inv_construct_client (kwargs : gmap string pyval) :
  (forall r, fresh r) ->
  logs_only I Q (construct_client lib kwargs).
Proof.
  intros Hfresh. unfold construct_client.
  repeat first
    [ apply inv_new_client | by apply inv_update_client
    | apply inv_as_dict | apply inv_as_str | logs_step ].
Qed.

Lemma inv_client_info_redirect_uris (kwargs : gmap string pyval) :
  logs_only I Q (client_info_redirect_uris kwargs).
Proof.
  unfold client_info_redirect_uris.
  repeat first [apply inv_as_dict | apply inv_atom_list | logs_step].
Qed.

Lemma inv_do_provider_config (r : nat) (issuer : string) :
  fresh r -> Q (EvProviderConfig issuer) ->
  logs_only I Q (do_provider_config lib r issuer).
Proof.
  intros Hr Hq. unfold do_provider_config.
  repeat first [by apply inv_update_client | by apply logs_call | logs_step].
Qed.

Lemma inv_do_register (r : nat) (endpoint : atom) (args : gmap string atom) :
  fresh r -> Q (EvRegister endpoint args) ->
  logs_only I Q (do_register lib r endpoint args).
Proof.
  intros Hr Hq. unfold do_register.
  repeat first [by apply inv_update_client | by apply logs_call | logs_step].
Qed.

Lemma inv_supplied_provider_info (r : nat) (kwargs : gmap string pyval) :
  fresh r ->
  (forall info issuer, Q (EvHandleProviderConfig info issuer)) ->
  logs_only I Q (supplied_provider_info lib r kwargs).
Proof.
  intros Hr Hq. unfold supplied_provider_info, do_handle_provider_config.
  repeat first
    [ by apply inv_update_client | apply inv_as_dict | apply inv_atom_str
    | by apply logs_call | logs_step ].
Qed.

Lemma inv_supplied_registration (r : nat) (kwargs : gmap string pyval) :
  fresh r ->
  (forall info, Q (EvStoreRegistration info)) ->
  logs_only I Q (supplied_registration r kwargs).
Proof.
  intros Hr Hq. unfold supplied_registration, do_store_registration_info.
  repeat first
    [ by apply inv_update_client | apply inv_as_dict
    | by apply logs_emit | logs_step ].
Qed.

Lemma inv_register_client_info (r : nat) (kwargs : gmap string pyval) :
  fresh r ->
  (forall endpoint args, Q (EvRegister endpoint args)) ->
  logs_only I Q (register_client_info lib r kwargs).
Proof.
  intros Hr Hq. unfold register_client_info.
  repeat first
    [ by apply inv_do_register | apply inv_as_dict | apply inv_read_client
    | logs_step ].
Qed.

Lemma inv_update_behaviour (r : nat) (profile : gmap string pyval) :
  fresh r -> logs_only I Q (update_behaviour r profile).
Proof.
  intros Hr. unfold update_behaviour.
  repeat first [by apply inv_update_client | apply inv_as_dict | logs_step].
Qed.

Lemma inv_get_path (uris : list string) (issuer : string) :
  (forall reg p, I reg -> I (set_path p reg)) ->
  logs_only I Q (get_path uris issuer).
Proof.
  intros Hpath. induction uris as [|u uris IH]; simpl.
  - apply logs_ret.
  - apply logs_bind; [apply logs_lift_outcome|]. intros p.
    apply logs_bind; [|by intros _].
    apply logs_modify. intros s Hs. by apply Hpath.
Qed.

Lemma inv_register_dynamic (r : nat) (issuer : string) :
  fresh r ->
  (forall reg p, I reg -> I (set_path p reg)) ->
  Q (EvProviderConfig issuer) ->
  (forall endpoint args, Q (EvRegister endpoint args)) ->
  logs_only I Q (register_dynamic lib r issuer).
Proof.
  intros Hr Hpath Hq1 Hq2. unfold register_dynamic.
  repeat first
    [ by apply inv_do_provider_config | by apply inv_do_register
    | by apply inv_update_behaviour
    | apply inv_as_dict | apply inv_atom_list
    | by apply inv_get_path
    | logs_step ].
Qed.

Lemma inv_provision (r : nat) (userid : string) (kwargs : gmap string pyval)
    (ks : gset string) :
  fresh r ->
  (forall reg p, I reg -> I (set_path p reg)) ->
  (forall ev, Q ev) ->
  logs_only I Q (provision lib r userid kwargs ks).
Proof.
  intros Hr Hpath Hq. unfold provision.
  repeat first
    [ by apply inv_do_provider_config | by apply inv_register_client_info
    | by apply inv_supplied_provider_info
    | by apply inv_supplied_registration
    | apply inv_client_info_redirect_uris | by apply inv_get_path
    | apply inv_as_str | by apply logs_call | logs_step ].
Qed.

Lemma inv_create_client (userid : string) (kwargs : gmap string pyval) :
  (forall r, fresh r) ->
  (forall reg p, I reg -> I (set_path p reg)) ->
  (forall ev, Q ev) ->
  logs_only I Q (create_client lib userid kwargs).
Proof.
  intros Hr Hpath Hq. unfold create_client.
  apply logs_bind; [by apply inv_construct_client|]. intros [r ks].
  apply logs_bind; [by apply inv_provision|]. intros _.
  apply logs_ret.
Qed.

End Invariants.

Section Keeps.

Variables (index : gmap string string) (cache : gmap string nat).
Variable Q : event -> Prop.

Lemma maps_are_new reg c :
  maps_are index cache reg ->
  maps_are index cache (set_objects (objects reg ++ [c])%list reg).
Proof. done. Qed.

Lemma maps_are_update reg (r : nat) (f : Client -> Client) :
  True -> maps_are index cache reg ->
  maps_are index cache (set_objects (alter f r (objects reg)) reg).
Proof. done. Qed.

Lemma keeps_as_str (what : string) (v : pyval) :
  logs_only (S := OIDCClients) (maps_are index cache) Q (as_str what v).
Proof. apply inv_as_str. Qed.

Lemma keeps_construct_client (kwargs : gmap string pyval) :
  logs_only (maps_are index cache) Q (construct_client lib kwargs).
Proof.
  by apply (inv_construct_client _ (fun _ => True) Q
              maps_are_new maps_are_update).
Qed.

Lemma keeps_do_provider_config (r : nat) (issuer : string) :
  Q (EvProviderConfig issuer) ->
  logs_only (maps_are index cache) Q (do_provider_config lib r issuer).
Proof.
  by apply (inv_do_provider_config _ (fun _ => True) Q maps_are_update).
Qed.

Lemma keeps_supplied_provider_info (r : nat) (kwargs : gmap string pyval) :
  (forall info issuer, Q (EvHandleProviderConfig info issuer)) ->
  logs_only (maps_are index cache) Q (supplied_provider_info lib r kwargs).
Proof.
  by apply (inv_supplied_provider_info _ (fun _ => True) Q maps_are_update).
Qed.

Lemma keeps_supplied_registration (r : nat) (kwargs : gmap string pyval) :
  (forall info, Q (EvStoreRegistration info)) ->
  logs_only (maps_are index cache) Q (supplied_registration r kwargs).
Proof.
  by apply (inv_supplied_registration _ (fun _ => True) Q maps_are_update).
Qed.

Lemma keeps_register_client_info (r : nat) (kwargs : gmap string pyval) :
  (forall endpoint args, Q (EvRegister endpoint args)) ->
  logs_only (maps_are index cache) Q (register_client_info lib r kwargs).
Proof.
  by apply (inv_register_client_info _ (fun _ => True) Q maps_are_update).
Qed.

End Keeps.

(** *** The key set that elects the mode *)

Lemma discard_absent (kwargs : gmap string pyval) (key : string)
    (ks : gset string) :
  ks ⊆ dom kwargs -> kwargs !! key = None -> ks ∖ {[key]} = ks.
Proof.
  intros Hsub Hnone. apply not_elem_of_dom in Hnone. set_solver.
Qed.

Lemma construct_client_key_set (kwargs : gmap string pyval)
    (s s' : OIDCClients * list event) (r : nat) (ks : gset string) :
  construct_client lib kwargs s = (Ok (r, ks), s') ->
  ks = election_keys kwargs.
Proof.
  unfold construct_client, election_keys, pass_through.
  unfold new_client, update_client, as_dict, as_str. unfold_monad. simpl.
  intros H.
  destruct (kwargs !! "behaviour") as [v|] eqn:Hb; [|discriminate].
  destruct (kwargs !! "verify_ssl") as [vs|] eqn:Hvs; [discriminate|].
  destruct v as [a|b]; [discriminate|]. simpl in H.
  assert (Hv : dom kwargs ∖ {["verify_ssl"]} = dom kwargs)
    by (by apply (discard_absent kwargs)).
  destruct (kwargs !! "userinfo_request_method") as [m|] eqn:Hm;
    destruct (kwargs !! "allow") as [al|] eqn:Hal.
  - destruct m as [[m| |]|]; try discriminate.
    destruct al as [|al]; [discriminate|].
    simpl in H. injection H as _ <- _. set_solver.
  - destruct m as [[m| |]|]; try discriminate.
    simpl in H. injection H as _ <- _.
    apply not_elem_of_dom in Hal. set_solver.
  - destruct al as [|al]; [discriminate|].
    simpl in H. injection H as _ <- _.
    apply not_elem_of_dom in Hm. set_solver.
  - simpl in H. injection H as _ <- _.
    apply not_elem_of_dom in Hm. apply not_elem_of_dom in Hal. set_solver.
Qed.

(** Two key sets that the decision procedure tells apart are different;
    this settles the tests of lines 232-272 on a known key set. *)
Lemma key_set_ne (X Y : gset string) :
  bool_decide (X = Y) = false -> X <> Y.
Proof. apply bool_decide_eq_false_1. Qed.

Ltac key_sets :=
  repeat (rewrite (bool_decide_eq_false_2 (_ = _))
            by (apply key_set_ne; vm_compute; reflexivity));
  try rewrite (bool_decide_eq_true_2 (_ = _)) by reflexivity.

(** *** The two modes with a supplied registration *)

Lemma provision_supplied_registration_raises (index : gmap string string)
    (cache : gmap string nat) (r : nat) (userid : string)
    (kwargs : gmap string pyval) (ks : gset string) :
  ks = {["provider_info"; "client_registration"]} \/
  ks = {["srv_discovery_url"; "client_registration"]} ->
  kwargs !! "client_info" = None ->
  raises_only (maps_are index cache) (fun ev => is_register ev = false)
    (provision lib r userid kwargs ks).
Proof.
  intros Hks Hnone.
  assert (Hlast : raises_only (maps_are index cache)
            (fun ev => is_register ev = false)
            (client_info_redirect_uris kwargs)).
  { unfold client_info_redirect_uris. apply raises_bind_here.
    by apply raises_getitem. }
  unfold provision. destruct Hks as [-> | ->]; key_sets.
  - apply raises_bind; [by apply keeps_supplied_provider_info|]. intros issuer.
    apply raises_bind; [by apply keeps_supplied_registration|]. intros _.
    by apply raises_bind_here.
  - apply raises_bind; [apply logs_getitem|]. intros v.
    apply raises_bind; [apply keeps_as_str|]. intros url.
    apply raises_bind; [by apply keeps_do_provider_config|]. intros _.
    apply raises_bind; [by apply keeps_supplied_registration|]. intros _.
    by apply raises_bind_here.
Qed.

(** C6 (the code on both configurations).  With the key set
    [provider_info, client_registration] or
    [srv_discovery_url, client_registration], [create_client] never hands
    back a client: lines 270 and 276 read [kwargs['client_info']], a key
    that these configurations do not have.  It raises with the path index
    and the client map as they were, and no registration call was made. *)
Theorem create_client_supplied_registration_raises (reg : OIDCClients)
    (log : list event) (userid : string) (kwargs : gmap string pyval) :
  election_keys kwargs = {["provider_info"; "client_registration"]} \/
  election_keys kwargs = {["srv_discovery_url"; "client_registration"]} ->
  exists e reg' evs,
    create_client lib userid kwargs (reg, log) =
      (Raise e, (reg', (log ++ evs)%list)) /\
    path reg' = path reg /\
    client reg' = client reg /\
    Forall (fun ev => is_register ev = false) evs.
Proof.
  intros Hks.
  assert (Hnone : kwargs !! "client_info" = None).
  { apply not_elem_of_dom. intros Hin.
    assert (Hel : "client_info" ∈ election_keys kwargs).
    { unfold election_keys, pass_through. set_solver. }
    destruct Hks as [Hk|Hk]; rewrite Hk in Hel; set_solver. }
  unfold create_client. unfold bind at 1.
  destruct (keeps_construct_client (path reg) (client reg)
              (fun ev => is_register ev = false) kwargs reg log)
    as (evs1 & Hlog1 & Hq1 & Hi1); [by split|].
  destruct (construct_client lib kwargs (reg, log))
    as [[[r ks]|e] [reg1 log1]] eqn:Hc; simpl in Hlog1, Hi1; subst log1.
  - apply construct_client_key_set in Hc. subst ks.
    destruct (raises_bind_here (maps_are (path reg) (client reg))
                (fun ev => is_register ev = false)
                (provision lib r userid kwargs (election_keys kwargs))
                (fun _ => ret r)
                (provision_supplied_registration_raises (path reg)
                   (client reg) r userid kwargs (election_keys kwargs)
                   Hks Hnone)
                reg1 (log ++ evs1)%list Hi1)
      as (e & reg' & evs2 & Heq & Hq2 & Hp & Hcl).
    exists e, reg', (evs1 ++ evs2)%list. rewrite Heq, app_assoc.
    repeat split; try assumption. by apply Forall_app.
  - destruct Hi1 as [Hp Hcl]. by exists e, reg1, evs1.
Qed.

(** *** What a successful provisioning went through *)

Lemma bind_ok_inv {S A B} (m : M S A) (k : A -> M S B)
    (s s' : S * list event) (b : B) :
  bind m k s = (Ok b, s') ->
  exists a s1, m s = (Ok a, s1) /\ k a s1 = (Ok b, s').
Proof.
  unfold bind. destruct (m s) as [[a|e] s1]; [|discriminate].
  intros H. by exists a, s1.
Qed.

Lemma keeps_inv {S A} (I : S -> Prop) (Q : event -> Prop) (m : M S A)
    (s s1 : S) (log log1 : list event) (out : outcome A) :
  logs_only I Q m -> I s -> m (s, log) = (out, (s1, log1)) -> I s1.
Proof.
  intros Hm Hs Heq. destruct (Hm s log Hs) as (evs & _ & _ & Hi).
  by rewrite Heq in Hi.
Qed.

Lemma getitem_ok_inv {S V} (d : gmap string V) (key : string)
    (s s' : S * list event) (v : V) :
  getitem d key s = (Ok v, s') -> d !! key = Some v /\ s' = s.
Proof.
  unfold getitem. destruct (d !! key); intros H; [|discriminate].
  by injection H as -> ->.
Qed.

Lemma as_str_ok_inv {S} (what : string) (v : pyval) (s s' : S * list event)
    (x : string) :
  as_str what v s = (Ok x, s') -> v = PAtom (AStr x) /\ s' = s.
Proof.
  destruct v as [[y| |]|]; intros H; try discriminate.
  by injection H as -> ->.
Qed.

Lemma as_dict_ok_inv {S} (what : string) (v : pyval) (s s' : S * list event)
    (d : gmap string atom) :
  as_dict what v s = (Ok d, s') -> v = PDict d /\ s' = s.
Proof.
  destruct v as [|y]; intros H; try discriminate.
  by injection H as -> ->.
Qed.

Lemma client_info_redirect_uris_ok_inv (kwargs : gmap string pyval)
    (s s' : OIDCClients * list event) (uris : list string) :
  client_info_redirect_uris kwargs s = (Ok uris, s') ->
  exists ci,
    kwargs !! "client_info" = Some (PDict ci) /\
    ci !! "redirect_uris" = Some (AList uris) /\ s' = s.
Proof.
  unfold client_info_redirect_uris. intros H.
  apply bind_ok_inv in H. destruct H as (v & s1 & Hv & H).
  apply getitem_ok_inv in Hv. destruct Hv as [Hv ->].
  apply bind_ok_inv in H. destruct H as (ci & s2 & Hci & H).
  apply as_dict_ok_inv in Hci. destruct Hci as [-> ->].
  apply bind_ok_inv in H. destruct H as (a & s3 & Ha & H).
  apply getitem_ok_inv in Ha. destruct Ha as [Ha ->].
  destruct a as [|l|]; try discriminate.
  injection H as -> ->. by exists ci.
Qed.

Lemma supplied_provider_info_ok_inv (r : nat) (kwargs : gmap string pyval)
    (s s' : OIDCClients * list event) (issuer : string) :
  supplied_provider_info lib r kwargs s = (Ok issuer, s') ->
  exists info,
    kwargs !! "provider_info" = Some (PDict info) /\
    info !! "issuer" = Some (AStr issuer).
Proof.
  unfold supplied_provider_info. intros H.
  apply bind_ok_inv in H. destruct H as (v & s1 & Hv & H).
  apply getitem_ok_inv in Hv. destruct Hv as [Hv ->].
  apply bind_ok_inv in H. destruct H as (info & s2 & Hinfo & H).
  apply as_dict_ok_inv in Hinfo. destruct Hinfo as [-> ->].
  apply bind_ok_inv in H. destruct H as (a & s3 & Ha & H).
  apply getitem_ok_inv in Ha. destruct Ha as [Ha ->].
  apply bind_ok_inv in H. destruct H as (iss & s4 & Hiss & H).
  destruct a as [x| |]; try discriminate.
  injection Hiss as -> ->.
  apply bind_ok_inv in H. destruct H as (u & s5 & _ & H).
  injection H as -> _. by exists info.
Qed.

Lemma call_ok_inv {S A} (ev : event) (oracle : list event -> outcome A)
    (s : S) (log : list event) (s' : S * list event) (a : A) :
  call ev oracle (s, log) = (Ok a, s') ->
  oracle log = Ok a /\ s' = (s, (log ++ [ev])%list).
Proof.
  unfold call. unfold_monad. simpl.
  destruct (oracle log); intros H; [|discriminate].
  by injection H as -> <-.
Qed.

(** [get_path] in one equation: it records the keys of the URIs that come
    before the first one [urlsplit] refuses, and raises what [urlsplit]
    raised there. *)
Lemma get_path_run (uris : list string) (issuer : string) (reg : OIDCClients)
    (log : list event) :
  get_path uris issuer (reg, log) =
    (match path_keys uris with Ok _ => Ok tt | Raise e => Raise e end,
     (set_path (record_paths (keys_before_refusal uris) issuer (path reg)) reg,
      log)).
Proof.
  revert reg. induction uris as [|u uris IH]; intros reg.
  - by destruct reg.
  - cbn [get_path path_keys keys_before_refusal]. unfold path_key.
    destruct (urlsplit_path u) as [p|e]; unfold_monad; simpl.
    + rewrite IH. simpl. by destruct (path_keys uris).
    + by destruct reg.
Qed.

Lemma path_keys_before_refusal (uris keys : list string) :
  path_keys uris = Ok keys -> keys_before_refusal uris = keys.
Proof.
  revert keys. induction uris as [|u uris IH]; intros keys; simpl.
  - by intros [= <-].
  - destruct (path_key u) as [k|e]; [|discriminate].
    destruct (path_keys uris) as [ks|e]; [|discriminate].
    intros [= <-]. f_equal. by apply IH.
Qed.

Lemma get_path_ok (uris keys : list string) (issuer : string)
    (reg : OIDCClients) (log : list event) :
  path_keys uris = Ok keys ->
  get_path uris issuer (reg, log) =
    (Ok tt, (set_path (record_paths keys issuer (path reg)) reg, log)).
Proof.
  intros Hkeys. rewrite get_path_run, Hkeys.
  by rewrite (path_keys_before_refusal uris keys Hkeys).
Qed.

Lemma get_path_ok_inv (uris : list string) (issuer : string)
    (reg reg' : OIDCClients) (log log' : list event) :
  get_path uris issuer (reg, log) = (Ok tt, (reg', log')) ->
  exists keys,
    path_keys uris = Ok keys /\
    reg' = set_path (record_paths keys issuer (path reg)) reg /\ log' = log.
Proof.
  rewrite get_path_run.
  destruct (path_keys uris) as [keys|e] eqn:Hkeys; [|discriminate].
  intros [= <- <-]. exists keys.
  by rewrite (path_keys_before_refusal uris keys Hkeys).
Qed.

(** Every URI of a list whose keys are [keys] is split by [urlsplit], and
    its path without the first character is one of the keys. *)
Lemma path_keys_elem (uris keys : list string) (u : string) :
  path_keys uris = Ok keys -> u ∈ uris ->
  exists p, urlsplit_path u = Ok p /\ tail p ∈ keys.
Proof.
  revert keys. induction uris as [|v uris IH]; intros keys Hkeys Hin.
  - by apply elem_of_nil in Hin.
  - simpl in Hkeys. unfold path_key in Hkeys.
    destruct (urlsplit_path v) as [p|e] eqn:Hv; [|discriminate].
    destruct (path_keys uris) as [ks|e]; [|discriminate].
    injection Hkeys as <-.
    apply elem_of_cons in Hin as [->|Hin].
    + exists p. split; [done|]. apply elem_of_cons. by left.
    + destruct (IH ks eq_refl Hin) as (q & Hq & Hqin).
      exists q. split; [done|]. apply elem_of_cons. by right.
Qed.

(** The tail common to the three registering modes: registration, then the
    redirect URIs of [client_info] recorded for [issuer]. *)
Lemma register_and_record_ok_inv (r : nat) (kwargs : gmap string pyval)
    (issuer : string) (reg1 reg' : OIDCClients) (log1 log' : list event) :
  bind (register_client_info lib r kwargs)
       (fun _ => bind (client_info_redirect_uris kwargs)
                      (fun uris => get_path uris issuer))
       (reg1, log1) = (Ok tt, (reg', log')) ->
  exists ci uris keys,
    kwargs !! "client_info" = Some (PDict ci) /\
    ci !! "redirect_uris" = Some (AList uris) /\
    path_keys uris = Ok keys /\
    path reg' = record_paths keys issuer (path reg1).
Proof.
  intros H.
  apply bind_ok_inv in H. destruct H as (u & [reg2 log2] & Hreg & H).
  assert (Hkeep : maps_are (path reg1) (client reg1) reg2).
  { eapply (keeps_inv _ (fun _ => True)); [|split; reflexivity|exact Hreg].
    by apply keeps_register_client_info. }
  apply bind_ok_inv in H. destruct H as (uris & s3 & Huris & H).
  apply client_info_redirect_uris_ok_inv in Huris.
  destruct Huris as (ci & Hci & Hru & ->).
  apply get_path_ok_inv in H as (keys & Hkeys & -> & _).
  exists ci, uris, keys. destruct Hkeep as [Hp _]. simpl. by rewrite Hp.
Qed.

Lemma provision_ok_inv (r : nat) (userid : string)
    (kwargs : gmap string pyval) (reg1 reg' : OIDCClients)
    (log1 log' : list event) :
  provision lib r userid kwargs (election_keys kwargs) (reg1, log1) =
    (Ok tt, (reg', log')) ->
  exists ci uris keys issuer,
    kwargs !! "client_info" = Some (PDict ci) /\
    ci !! "redirect_uris" = Some (AList uris) /\
    path_keys uris = Ok keys /\
    path reg' = record_paths keys issuer (path reg1) /\
    recorded_issuer lib userid kwargs (election_keys kwargs) issuer.
Proof.
  set (ks := election_keys kwargs). intros H.
  assert (Hkeeps : forall (A : Type) (m : M OIDCClients A) s l out s2 l2,
            logs_only (maps_are (path reg1) (client reg1)) (fun _ => True) m ->
            maps_are (path reg1) (client reg1) s ->
            m (s, l) = (out, (s2, l2)) -> path s2 = path reg1).
  { intros A m s l out s2 l2 Hm Hs Heq.
    by destruct (keeps_inv _ _ m s s2 l l2 out Hm Hs Heq). }
  destruct (decide (ks = {["client_info"]})) as [Hk|Hk1].
  { unfold provision in H. rewrite Hk in H. key_sets.
    rewrite (bool_decide_eq_true_2 _ eq_refl) in H.
    destruct (truthy userid); [|discriminate]. simpl in H.
    apply bind_ok_inv in H. destruct H as (issuer & s2 & Hwf & H).
    apply call_ok_inv in Hwf. destruct Hwf as [Hwf ->].
    apply bind_ok_inv in H. destruct H as (pcr & [reg3 log3] & Hpc & H).
    apply (Hkeeps _ _ _ _ _ _ _
             (keeps_do_provider_config _ _ _ r issuer I)
             (conj eq_refl eq_refl)) in Hpc.
    apply register_and_record_ok_inv in H.
    destruct H as (ci & uris & keys & Hci & Hru & Hkeys & Hp).
    exists ci, uris, keys, issuer. rewrite Hp, Hpc.
    repeat split; try assumption. by eapply issuer_discovered. }
  destruct (decide (ks = {["client_info"; "srv_discovery_url"]}))
    as [Hk|Hk2].
  { unfold provision in H. rewrite Hk in H.
    rewrite (bool_decide_eq_false_2 (_ = {["client_info"]})) in H
      by (apply key_set_ne; vm_compute; reflexivity).
    rewrite (bool_decide_eq_true_2 _ eq_refl) in H.
    apply bind_ok_inv in H. destruct H as (v & s2 & Hv & H).
    apply getitem_ok_inv in Hv. destruct Hv as [Hv ->].
    apply bind_ok_inv in H. destruct H as (url & s3 & Hurl & H).
    apply as_str_ok_inv in Hurl. destruct Hurl as [-> ->].
    apply bind_ok_inv in H. destruct H as (pcr & [reg3 log3] & Hpc & H).
    apply (Hkeeps _ _ _ _ _ _ _
             (keeps_do_provider_config _ _ _ r url I)
             (conj eq_refl eq_refl)) in Hpc.
    apply register_and_record_ok_inv in H.
    destruct H as (ci & uris & keys & Hci & Hru & Hkeys & Hp).
    exists ci, uris, keys, url. rewrite Hp, Hpc.
    repeat split; try assumption. by eapply issuer_is_discovery_url. }
  destruct (decide (ks = {["provider_info"; "client_info"]})) as [Hk|Hk3].
  { unfold provision in H. rewrite Hk in H.
    rewrite (bool_decide_eq_false_2 (_ = {["client_info"]})) in H
      by (apply key_set_ne; vm_compute; reflexivity).
    rewrite (bool_decide_eq_false_2
               (_ = {["client_info"; "srv_discovery_url"]})) in H
      by (apply key_set_ne; vm_compute; reflexivity).
    rewrite (bool_decide_eq_true_2 _ eq_refl) in H.
    apply bind_ok_inv in H. destruct H as (issuer & [reg3 log3] & Hpi & H).
    pose proof (supplied_provider_info_ok_inv _ _ _ _ _ Hpi)
      as (info & Hinfo & Hiss).
    apply (Hkeeps _ _ _ _ _ _ _
             (keeps_supplied_provider_info _ _ _ r kwargs
                (fun _ _ => I))
             (conj eq_refl eq_refl)) in Hpi.
    apply register_and_record_ok_inv in H.
    destruct H as (ci & uris & keys & Hci & Hru & Hkeys & Hp).
    exists ci, uris, keys, issuer. rewrite Hp, Hpi.
    repeat split; try assumption. by eapply issuer_supplied. }
  (* the two modes with a supplied registration never get that far, and any
     other key set is a configuration error *)
  exfalso.
  destruct (decide (ks = {["provider_info"; "client_registration"]} \/
                    ks = {["srv_discovery_url"; "client_registration"]}))
    as [Hk|Hk45].
  - assert (Hnone : kwargs !! "client_info" = None).
    { apply not_elem_of_dom. intros Hin.
      assert (Hel : "client_info" ∈ ks).
      { unfold ks, election_keys, pass_through. set_solver. }
      destruct Hk as [Hk|Hk]; rewrite Hk in Hel; set_solver. }
    destruct (provision_supplied_registration_raises (path reg1)
                (client reg1) r userid kwargs ks Hk Hnone reg1 log1
                (conj eq_refl eq_refl)) as (e & s' & evs & Heq & _).
    rewrite Heq in H. discriminate.
  - unfold provision in H.
    rewrite !bool_decide_eq_false_2 in H by tauto. discriminate.
Qed.

(** *** The path index after [get_path] *)

Lemma record_paths_cons (k : string) (keys : list string) (issuer : string)
    (index : gmap string string) :
  record_paths (k :: keys) issuer index =
    record_paths keys issuer (<[k := issuer]> index).
Proof. reflexivity. Qed.

Lemma record_paths_keeps (keys : list string) (issuer key : string)
    (index : gmap string string) :
  index !! key = Some issuer ->
  record_paths keys issuer index !! key = Some issuer.
Proof.
  revert index. induction keys as [|k keys IH]; intros index Hk; [exact Hk|].
  rewrite record_paths_cons. apply IH.
  destruct (decide (k = key)) as [->|Hne].
  - apply lookup_insert_eq.
  - by rewrite lookup_insert_ne.
Qed.

Lemma record_paths_lookup (keys : list string) (issuer key : string)
    (index : gmap string string) :
  key ∈ keys ->
  record_paths keys issuer index !! key = Some issuer.
Proof.
  revert index. induction keys as [|k keys IH]; intros index Hin.
  - by apply elem_of_nil in Hin.
  - rewrite record_paths_cons.
    apply elem_of_cons in Hin. destruct Hin as [->|Hin].
    + apply record_paths_keeps, lookup_insert_eq.
    + by apply IH.
Qed.

Lemma record_paths_other (keys : list string) (issuer key : string)
    (index : gmap string string) :
  key ∉ keys ->
  record_paths keys issuer index !! key = index !! key.
Proof.
  revert index. induction keys as [|k keys IH]; intros index Hne;
    [reflexivity|].
  rewrite record_paths_cons, IH.
  - apply lookup_insert_ne. intros ->. apply Hne, elem_of_cons. by left.
  - intros Hin. apply Hne, elem_of_cons. by right.
Qed.

(** A successful [create_client] recorded the redirect URIs of
    [client_info]. *)
Lemma create_client_ok_inv (reg reg' : OIDCClients) (log log' : list event)
    (userid : string) (kwargs : gmap string pyval) (r : nat) :
  create_client lib userid kwargs (reg, log) = (Ok r, (reg', log')) ->
  exists ci uris keys issuer,
    kwargs !! "client_info" = Some (PDict ci) /\
    ci !! "redirect_uris" = Some (AList uris) /\
    path_keys uris = Ok keys /\
    path reg' = record_paths keys issuer (path reg) /\
    recorded_issuer lib userid kwargs (election_keys kwargs) issuer.
Proof.
  unfold create_client. intros H.
  apply bind_ok_inv in H. destruct H as ([r1 ks] & [reg1 log1] & Hc & H).
  pose proof (construct_client_key_set _ _ _ _ _ Hc) as ->.
  assert (Hkeep : maps_are (path reg) (client reg) reg1).
  { eapply (keeps_inv _ (fun _ => True)); [|split; reflexivity|exact Hc].
    apply keeps_construct_client. }
  apply bind_ok_inv in H. destruct H as ([] & [reg2 log2] & Hp & H).
  injection H as -> -> ->.
  apply provision_ok_inv in Hp.
  destruct Hp as (ci & uris & keys & issuer & Hci & Hru & Hkeys & Hpath & Hiss).
  exists ci, uris, keys, issuer. destruct Hkeep as [Hp1 _].
  rewrite Hpath, Hp1. by repeat split.
Qed.

(** *** The discovery mode, step by step *)

Lemma alter_fresh {A} (f : A -> A) (l : list A) (x : A) :
  alter f (List.length l) (l ++ [x])%list = (l ++ [f x])%list.
Proof.
  induction l as [|y l IH]; [reflexivity|]. simpl. f_equal. exact IH.
Qed.

Lemma lookup_fresh {A} (l : list A) (x : A) :
  (l ++ [x])%list !! List.length l = Some x.
Proof. by apply list_lookup_middle. Qed.

(** Lines 201-230 on a configuration without [verify_ssl],
    [userinfo_request_method] and [allow]. *)
Lemma construct_client_plain (reg : OIDCClients) (log : list event)
    (kwargs : gmap string pyval) (b : gmap string atom) :
  kwargs !! "behaviour" = Some (PDict b) ->
  kwargs !! "verify_ssl" = None ->
  kwargs !! "userinfo_request_method" = None ->
  kwargs !! "allow" = None ->
  construct_client lib kwargs (reg, log) =
    (Ok (length (objects reg), election_keys kwargs),
     (set_objects
        (objects reg ++ [Client_init lib (VERIFY_SSL (config reg)) b])%list
        reg, log)).
Proof.
  intros Hb Hv Hm Ha.
  unfold construct_client, new_client. unfold_monad.
  rewrite Hb, Hv, Hm, Ha. simpl.
  assert (dom kwargs ∖ {["behaviour"]} = election_keys kwargs) as ->;
    [|reflexivity].
  unfold election_keys, pass_through.
  apply not_elem_of_dom in Hv, Hm, Ha. set_solver.
Qed.

(** The discovery mode: the provider configuration is fetched from the
    discovery URL, the client is registered with [client_info], and the
    paths are recorded for the discovery URL. *)
Lemma create_client_discovery (reg : OIDCClients) (log : list event)
    (userid : string) (kwargs : gmap string pyval)
    (b ci pcr resp : gmap string atom) (url : string)
    (uris keys : list string) (endpoint : atom) :
  election_keys kwargs = {["client_info"; "srv_discovery_url"]} ->
  kwargs !! "behaviour" = Some (PDict b) ->
  kwargs !! "verify_ssl" = None ->
  kwargs !! "userinfo_request_method" = None ->
  kwargs !! "allow" = None ->
  kwargs !! "srv_discovery_url" = Some (PAtom (AStr url)) ->
  kwargs !! "client_info" = Some (PDict ci) ->
  ci !! "redirect_uris" = Some (AList uris) ->
  path_keys uris = Ok keys ->
  provider_config lib log url = Ok pcr ->
  pcr !! "registration_endpoint" = Some endpoint ->
  register lib (log ++ [EvProviderConfig url])%list endpoint ci = Ok resp ->
  create_client lib userid kwargs (reg, log) =
    (Ok (length (objects reg)),
     ({| objects :=
           (objects reg ++
              [store_registration_info resp
                 (set_provider_info pcr
                    (Client_init lib (VERIFY_SSL (config reg)) b))])%list;
         client := client reg; config := config reg; seed := seed reg;
         path := record_paths keys url (path reg);
         base_url := base_url reg |},
      (log ++ [EvProviderConfig url; EvRegister endpoint ci])%list)).
Proof.
  intros Hks Hb Hv Hm Ha Hurl Hci Hru Hkeys Hpc Hep Hreg.
  unfold create_client. unfold bind at 1.
  rewrite (construct_client_plain reg log kwargs b Hb Hv Hm Ha).
  rewrite Hks. unfold provision. key_sets.
  unfold do_provider_config, register_client_info, do_register,
    client_info_redirect_uris, read_client, update_client,
    as_str, as_dict, atom_list.
  unfold_monad. simpl.
  rewrite Hurl. simpl. rewrite Hpc. simpl.
  rewrite alter_fresh, lookup_fresh. simpl.
  rewrite Hep, Hci. simpl. rewrite Hreg. simpl.
  rewrite Hru. simpl.
  rewrite (get_path_ok uris keys url _ _ Hkeys). simpl.
  rewrite alter_fresh. rewrite <- app_assoc. reflexivity.
Qed.

(** C7 (as amended).  After every successful provisioning by
    [create_client], each redirect URI of [client_info] has been split by
    [urlsplit] and is recorded in the path index under its path without the
    first character, mapped to the issuer of the mode: the issuer that
    webfinger discovered, the [srv_discovery_url] string itself, or the
    issuer of the supplied [provider_info].  In particular, with the key set
    [client_info, srv_discovery_url], the discovery URL
    [https://op.example/.well-known] and the redirect URI
    [https://rp.example/cb], the calls are the fetch of the provider
    configuration from the discovery URL followed by the registration,
    without a webfinger call; looking up [cb] then yields the discovery URL,
    and the entry of [/cb] is what it was. *)
Theorem create_client_records_paths (reg : OIDCClients) (log : list event)
    (userid : string) (kwargs : gmap string pyval) :
  (forall r reg' log',
     create_client lib userid kwargs (reg, log) = (Ok r, (reg', log')) ->
     exists ci uris issuer,
       kwargs !! "client_info" = Some (PDict ci) /\
       ci !! "redirect_uris" = Some (AList uris) /\
       (forall u, u ∈ uris ->
          exists p,
            urlsplit_path u = Ok p /\ path reg' !! tail p = Some issuer) /\
       recorded_issuer lib userid kwargs (election_keys kwargs) issuer) /\
  (forall b ci pcr resp endpoint,
     election_keys kwargs = {["client_info"; "srv_discovery_url"]} ->
     kwargs !! "behaviour" = Some (PDict b) ->
     kwargs !! "verify_ssl" = None ->
     kwargs !! "userinfo_request_method" = None ->
     kwargs !! "allow" = None ->
     kwargs !! "srv_discovery_url" =
       Some (PAtom (AStr "https://op.example/.well-known")) ->
     kwargs !! "client_info" = Some (PDict ci) ->
     ci !! "redirect_uris" = Some (AList ["https://rp.example/cb"]) ->
     provider_config lib log "https://op.example/.well-known" = Ok pcr ->
     pcr !! "registration_endpoint" = Some endpoint ->
     register lib (log ++ [EvProviderConfig "https://op.example/.well-known"])
       endpoint ci = Ok resp ->
     exists r reg',
       create_client lib userid kwargs (reg, log) =
         (Ok r, (reg',
                 (log ++ [EvProviderConfig "https://op.example/.well-known";
                          EvRegister endpoint ci])%list)) /\
       path reg' !! "cb" = Some "https://op.example/.well-known" /\
       path reg' !! "/cb" = path reg !! "/cb").
Proof.
  split.
  - intros r reg' log' H. apply create_client_ok_inv in H.
    destruct H as (ci & uris & keys & issuer & Hci & Hru & Hkeys & Hpath & Hiss).
    exists ci, uris, issuer. repeat split; try assumption.
    intros u Hu.
    destruct (path_keys_elem uris keys u Hkeys Hu) as (p & Hp & Hin).
    exists p. split; [done|]. rewrite Hpath. by apply record_paths_lookup.
  - intros b ci pcr resp endpoint Hks Hb Hv Hm Ha Hurl Hci Hru Hpc Hep Hreg.
    eexists _, _. split.
    + eapply (create_client_discovery reg log userid kwargs b ci pcr resp
                "https://op.example/.well-known" ["https://rp.example/cb"]
                ["cb"]); try eassumption.
      vm_compute. reflexivity.
    + cbn [path]. split.
      * apply record_paths_lookup. by apply list_elem_of_singleton.
      * apply record_paths_other. intros Hin.
        apply list_elem_of_singleton in Hin. discriminate.
Qed.

(** *** Resolution *)

Lemma keeps_clients_new (reg0 reg : OIDCClients) (c : Client) :
  keeps_clients_of reg0 reg ->
  keeps_clients_of reg0 (set_objects (objects reg ++ [c])%list reg).
Proof.
  intros [Hobj Hcl]. split; [|exact Hcl].
  intros i x Hi. simpl. apply lookup_app_l_Some. by apply Hobj.
Qed.

Lemma keeps_clients_update (reg0 reg : OIDCClients) (r : nat)
    (f : Client -> Client) :
  List.length (objects reg0) <= r ->
  keeps_clients_of reg0 reg ->
  keeps_clients_of reg0 (set_objects (alter f r (objects reg)) reg).
Proof.
  intros Hr [Hobj Hcl]. split; [|exact Hcl].
  intros i x Hi. simpl. rewrite list_lookup_alter_ne.
  - by apply Hobj.
  - apply lookup_lt_Some in Hi. lia.
Qed.

(** Line 322 and lines 288-289: a cached issuer is answered from the
    cache. *)
Lemma getitem_cached (reg : OIDCClients) (log : list event)
    (issuer : string) (r : nat) :
  client reg !! issuer = Some r ->
  OIDCClients_getitem lib issuer (reg, log) = (Ok r, (reg, log)).
Proof.
  intros Hc. unfold OIDCClients_getitem. unfold_monad. simpl.
  by rewrite Hc.
Qed.

Lemma dynamic_client_cached (reg : OIDCClients) (log : list event)
    (userid issuer : string) (r : nat) :
  client reg !! issuer = Some r ->
  discovery_query lib log userid = Ok issuer ->
  dynamic_client lib userid (reg, log) =
    (Ok r,
     (set_objects
        (objects reg ++ [Client_init lib (VERIFY_SSL (config reg)) ∅])%list
        reg,
      (log ++ [EvWebfinger userid])%list)).
Proof.
  intros Hc Hwf. unfold dynamic_client, new_client. unfold_monad. simpl.
  rewrite Hwf. simpl. by rewrite Hc.
Qed.

(** Whatever [dynamic_client] is asked and however it ends, the objects and
    the entries of the registry stay; at most the discovered issuer is
    added, with the new client that is handed back. *)
Lemma dynamic_client_inv (reg reg' : OIDCClients) (log log' : list event)
    (userid : string) (out : outcome nat) :
  dynamic_client lib userid (reg, log) = (out, (reg', log')) ->
  (forall i c, objects reg !! i = Some c -> objects reg' !! i = Some c) /\
  (client reg' = client reg \/
   exists new,
     client reg !! new = None /\
     client reg' = <[new := List.length (objects reg)]> (client reg) /\
     out = Ok (List.length (objects reg))).
Proof.
  unfold dynamic_client, new_client. unfold_monad. simpl.
  set (reg1 := set_objects _ reg).
  assert (Hreg1 : keeps_clients_of reg reg1).
  { apply keeps_clients_new. by split. }
  destruct (discovery_query lib log userid) as [issuer|e].
  2:{ intros H. injection H as <- <- <-. destruct Hreg1 as [Ho Hc].
      split; [exact Ho|by left]. }
  simpl. destruct (client reg !! issuer) as [cached|] eqn:Hcached.
  { intros H. injection H as <- <- <-. destruct Hreg1 as [Ho Hc].
    split; [exact Ho|by left]. }
  destruct (inv_register_dynamic (keeps_clients_of reg)
              (fun r => List.length (objects reg) <= r) (fun _ => True)
              (keeps_clients_update reg)
              (List.length (objects reg)) issuer (le_n _)
              (fun _ _ H => H) I (fun _ _ => I)
              reg1 (log ++ [EvWebfinger userid])%list Hreg1)
    as (evs & _ & _ & Hinv).
  destruct (register_dynamic lib (List.length (objects reg)) issuer
              (reg1, (log ++ [EvWebfinger userid])%list))
    as [[[]|e] [reg2 log2]]; simpl in Hinv; destruct Hinv as [Ho Hc];
    intros H; injection H as <- <- <-.
  - split; [exact Ho|]. right. exists issuer. simpl. by rewrite Hc.
  - split; [exact Ho|by left].
Qed.

(** A successful [dynamic_client] has the discovered issuer in the client
    map, with the reference it hands back. *)
Lemma dynamic_client_ok_enters (reg reg' : OIDCClients) (log log' : list event)
    (userid : string) (r : nat) :
  dynamic_client lib userid (reg, log) = (Ok r, (reg', log')) ->
  exists issuer,
    discovery_query lib log userid = Ok issuer /\
    client reg' !! issuer = Some r.
Proof.
  unfold dynamic_client, new_client. unfold_monad. simpl.
  destruct (discovery_query lib log userid) as [issuer|e]; [|discriminate].
  simpl. destruct (client reg !! issuer) as [cached|] eqn:Hcached.
  - intros [= <- <- <-]. by exists issuer.
  - destruct (register_dynamic lib (List.length (objects reg)) issuer _)
      as [[[]|e] [reg2 log2]]; [|discriminate].
    simpl. intros [= <- <- <-]. exists issuer. split; [done|].
    simpl. apply lookup_insert_eq.
Qed.

Lemma get_path_keeps_clients (uris : list string) (issuer : string)
    (reg reg' : OIDCClients) (log log' : list event) (out : outcome unit) :
  get_path uris issuer (reg, log) = (out, (reg', log')) ->
  client reg' = client reg.
Proof. rewrite get_path_run. by intros [= <- <- <-]. Qed.

(** *** [OIDCClients.__init__] *)

Lemma construct_client_ok_inv (kwargs : gmap string pyval)
    (reg reg1 : OIDCClients) (log log1 : list event) (r : nat)
    (ks : gset string) :
  construct_client lib kwargs (reg, log) = (Ok (r, ks), (reg1, log1)) ->
  r = length (objects reg) /\ log1 = log /\ one_more_client reg reg1.
Proof.
  unfold construct_client, new_client, update_client, as_dict, as_str.
  unfold_monad. simpl.
  assert (Hone : forall c, one_more_client reg
                   (set_objects (objects reg ++ [c])%list reg)).
  { intros c. unfold one_more_client. simpl.
    rewrite length_app. simpl.
    split; [lia|]. split; [|done].
    intros i Hi. by rewrite lookup_app_l. }
  destruct (kwargs !! "behaviour") as [vb|]; [|discriminate].
  destruct (kwargs !! "verify_ssl"); [discriminate|]. simpl.
  destruct vb as [?|b]; [discriminate|]. simpl.
  destruct (kwargs !! "userinfo_request_method") as [[[m| |]|]|]; simpl;
    try discriminate;
    (destruct (kwargs !! "allow") as [[?|a]|]; simpl; try discriminate);
    rewrite ?alter_fresh; simpl; rewrite ?alter_fresh;
    intros [= <- <- <- <-];
    (split; [done|]); (split; [done|]); exact (Hone _).
Qed.

Lemma one_more_client_update (reg0 reg : OIDCClients) (r : nat)
    (f : Client -> Client) :
  r = length (objects reg0) ->
  one_more_client reg0 reg ->
  one_more_client reg0 (set_objects (alter f r (objects reg)) reg).
Proof.
  intros -> (Hlen & Hold & Hrest). unfold one_more_client. simpl.
  rewrite length_alter. split; [done|]. split; [|done].
  intros i Hi. rewrite list_lookup_alter_ne by lia. by apply Hold.
Qed.

Lemma create_client_ok_shape (reg reg' : OIDCClients) (log log' : list event)
    (userid : string) (kwargs : gmap string pyval) (r : nat) :
  create_client lib userid kwargs (reg, log) = (Ok r, (reg', log')) ->
  r = length (objects reg) /\ one_more_client reg reg'.
Proof.
  intros Hrun. unfold create_client in Hrun.
  apply bind_ok_inv in Hrun as ([r1 ks] & [reg1 log1] & Hc & Hrun).
  apply construct_client_ok_inv in Hc as (-> & -> & Hone).
  apply bind_ok_inv in Hrun as ([] & [reg2 log2] & Hp & Hret).
  injection Hret as <- <- <-. split; [done|].
  eapply (keeps_inv (one_more_client reg) (fun _ => True)); [|exact Hone|exact Hp].
  apply (inv_provision _ (fun r => r = length (objects reg))); try done.
  - intros reg3 r f Hr. by apply one_more_client_update.
Qed.

Lemma create_client_of_ok_shape (reg reg' : OIDCClients)
    (log log' : list event) (val : gmap string pyval) (r : nat) :
  create_client_of lib val (reg, log) = (Ok r, (reg', log')) ->
  r = length (objects reg) /\ one_more_client reg reg'.
Proof.
  unfold create_client_of.
  destruct (val !! "userid") as [v|]; [|apply create_client_ok_shape].
  intros Hrun.
  apply bind_ok_inv in Hrun as (userid & [reg1 log1] & Hs & Hrun).
  apply as_str_ok_inv in Hs as (_ & [= <- <-]).
  by apply create_client_ok_shape in Hrun.
Qed.

Lemma sound_references_enter (reg0 reg : OIDCClients) (key : string) :
  sound_references reg0 ->
  one_more_client reg0 reg ->
  sound_references
    (set_client (<[key := length (objects reg0)]> (client reg)) reg).
Proof.
  intros (Hlt & Hinj) (Hlen & _ & Hcl & _).
  unfold sound_references. simpl. rewrite Hcl, Hlen. split.
  - intros k r Hk. destruct (decide (k = key)) as [->|Hne].
    + rewrite lookup_insert_eq in Hk. injection Hk as <-. lia.
    + rewrite lookup_insert_ne in Hk by done. apply Hlt in Hk. lia.
  - intros k1 k2 r H1 H2.
    destruct (decide (k1 = key)) as [->|Hne1];
      destruct (decide (k2 = key)) as [->|Hne2]; try done.
    + rewrite lookup_insert_eq in H1. injection H1 as <-.
      rewrite lookup_insert_ne in H2 by done. apply Hlt in H2. lia.
    + rewrite lookup_insert_eq in H2. injection H2 as <-.
      rewrite lookup_insert_ne in H1 by done. apply Hlt in H1. lia.
    + rewrite lookup_insert_ne in H1, H2 by done. by eapply Hinj.
Qed.

(** The loop of the constructor, when it comes to its end. *)
Lemma create_clients_ok (items : list (string * gmap string pyval))
    (reg reg' : OIDCClients) (log log' : list event) :
  create_clients lib items (reg, log) = (Ok tt, (reg', log')) ->
  sound_references reg ->
  sound_references reg' /\
  keys reg' = keys reg ∪ (list_to_set items.*1 ∖ {[""]}) /\
  config reg' = config reg /\ seed reg' = seed reg /\
  base_url reg' = base_url reg.
Proof.
  revert reg log. induction items as [|[key val] items IH];
    intros reg log Hrun Hsound.
  - injection Hrun as <- <-. repeat split; try apply Hsound.
    unfold keys. simpl. set_solver.
  - simpl in Hrun. destruct (bool_decide (key = "")) eqn:Hkey.
    + apply bool_decide_eq_true_1 in Hkey as ->.
      destruct (IH _ _ Hrun Hsound) as (Hs & Hk & Hrest).
      split; [done|]. split; [|done]. rewrite Hk. simpl. set_solver.
    + apply bool_decide_eq_false_1 in Hkey.
      apply bind_ok_inv in Hrun as (r & [reg1 log1] & Hc & Hrun).
      apply create_client_of_ok_shape in Hc as (-> & Hone).
      apply bind_ok_inv in Hrun as ([] & [reg2 log2] & Hm & Hrun).
      injection Hm as <- <-.
      pose proof (sound_references_enter reg reg1 key Hsound Hone) as Hs2.
      destruct (IH _ _ Hrun Hs2) as (Hs & Hk & Hcfg & Hseed & Hbase).
      destruct Hone as (_ & _ & Hcl & Hcfg1 & Hseed1 & Hbase1).
      split; [done|]. simpl in *.
      split; [|by rewrite Hcfg, Hseed, Hbase].
      rewrite Hk. unfold keys. simpl. rewrite dom_insert_L, Hcl. set_solver.
Qed.

Lemma create_client_of_logs (val : gmap string pyval) :
  logs_only (fun _ => True) (fun _ => True) (create_client_of lib val).
Proof.
  unfold create_client_of.
  destruct (val !! "userid") as [v|].
  - apply logs_bind; [apply inv_as_str|]. intros userid.
    by apply (inv_create_client _ (fun _ => True)).
  - by apply (inv_create_client _ (fun _ => True)).
Qed.

Lemma create_clients_logs (items : list (string * gmap string pyval)) :
  logs_only (fun _ => True) (fun _ => True) (create_clients lib items).
Proof.
  induction items as [|[key val] items IH]; simpl.
  - apply logs_ret.
  - destruct (bool_decide (key = "")); [done|].
    apply logs_bind; [apply create_client_of_logs|]. intros r.
    apply logs_bind; [by apply logs_modify|]. by intros _.
Qed.

Lemma create_clients_log (items : list (string * gmap string pyval))
    (reg reg' : OIDCClients) (log log' : list event) (out : outcome unit) :
  create_clients lib items (reg, log) = (out, (reg', log')) ->
  exists evs, log' = (log ++ evs)%list.
Proof.
  intros Hrun.
  destruct (create_clients_logs items reg log I) as (evs & Hlog & _).
  rewrite Hrun in Hlog. by exists evs.
Qed.


(** What the constructor has built when it returns. *)
Lemma OIDCClients_init_ok_inv (cfg : Config)
    (items : list (string * gmap string pyval)) (base seed_arg : string)
    (log log' : list event) (reg : OIDCClients) :
  items ≡ₚ map_to_list (CLIENTS cfg) ->
  OIDCClients_init lib cfg items base seed_arg log = (Ok reg, log') ->
  keys reg = dom (CLIENTS cfg) ∖ {[""]} /\
  sound_references reg /\
  config reg = cfg /\ base_url reg = base /\
  seed reg =
    encode_utf8 (if truthy seed_arg then seed_arg else rndstr lib log) /\
  exists evs,
    log' = (log ++ (if truthy seed_arg then []
                    else [EvRndstr (rndstr lib log)]) ++ evs)%list.
Proof.
  intros Hitems Hrun. unfold OIDCClients_init in Hrun.
  set (self := {| objects := []; client := ∅; config := cfg;
                  seed := encode_utf8
                            (if truthy seed_arg then seed_arg
                             else rndstr lib log);
                  path := ∅; base_url := base |}).
  set (log1 := (log ++ (if truthy seed_arg then []
                        else [EvRndstr (rndstr lib log)]))%list).
  assert (Hrun' : match create_clients lib items (self, log1) with
                  | (Ok _, (reg, log')) => (Ok reg, log')
                  | (Raise e, (_, log')) => (Raise e, log')
                  end = (Ok reg, log')).
  { subst self log1. destruct (truthy seed_arg);
      [by rewrite app_nil_r|exact Hrun]. }
  clear Hrun.
  destruct (create_clients lib items (self, log1))
    as [[[]|e] [reg1 log2]] eqn:Hloop; [|discriminate].
  injection Hrun' as -> ->.
  assert (Hsound : sound_references self).
  { split; intros *; simpl; by rewrite lookup_empty. }
  destruct (create_clients_log items self reg log1 log' (Ok tt) Hloop)
    as [evs ->].
  destruct (create_clients_ok items self reg log1 _ Hloop Hsound)
    as (Hs & Hk & Hcfg & Hseed & Hbase).
  split.
  { rewrite Hk. unfold keys. simpl. rewrite dom_empty_L.
    assert (list_to_set items.*1 = dom (CLIENTS cfg)) as ->; [|set_solver].
    rewrite Hitems. apply set_eq. intros k.
    rewrite elem_of_list_to_set, elem_of_dom, list_elem_of_fmap.
    split.
    - intros ([k' v] & -> & Hin). apply elem_of_map_to_list in Hin. by exists v.
    - intros [v Hv]. exists (k, v). split; [done|].
      by apply elem_of_map_to_list. }
  repeat split; try done; try apply Hs.
  exists evs. subst log1. by rewrite app_assoc.
Qed.


(** C8 (as amended).  Resolution is idempotent per issuer.  For an issuer
    with a client in the registry, indexing hands back the cached reference
    with no call at all, and [dynamic_client] on a user whose webfinger
    discovery yields that issuer hands back the cached reference after the
    webfinger call alone: no provider configuration is fetched and nothing
    is registered, the client map and the path index are as before and the
    cached objects untouched.  Whatever either resolution is asked and
    however it ends, the issuer keeps its reference and the referenced
    object is untouched.  A successful [dynamic_client] has the discovered
    issuer in the client map with the client it hands back, so that the next
    resolution of that issuer, by indexing or by [dynamic_client], gives the
    same client without fetching or registering again.  Keys are added at
    two points only: the insertion of [dynamic_client] (line 312), which
    adds an issuer that had no entry, and the constructor (line 183), which
    enters a client of its own for every key of [config.CLIENTS] but the
    empty one; [create_client] and [get_path] leave the client map as it
    is.  So a key never gets a second client. *)
Theorem resolution_is_idempotent (reg : OIDCClients) (log : list event) :
  (forall issuer r,
     client reg !! issuer = Some r ->
     OIDCClients_getitem lib issuer (reg, log) = (Ok r, (reg, log)) /\
     (forall userid,
        discovery_query lib log userid = Ok issuer ->
        exists reg',
          dynamic_client lib userid (reg, log) =
            (Ok r, (reg', (log ++ [EvWebfinger userid])%list)) /\
          client reg' = client reg /\ path reg' = path reg /\
          forall i c,
            objects reg !! i = Some c -> objects reg' !! i = Some c) /\
     (forall item out reg' log',
        OIDCClients_getitem lib item (reg, log) = (out, (reg', log')) \/
        dynamic_client lib item (reg, log) = (out, (reg', log')) ->
        client reg' !! issuer = Some r /\
        (forall c, objects reg !! r = Some c -> objects reg' !! r = Some c))) /\
  (forall item out reg' log',
     OIDCClients_getitem lib item (reg, log) = (out, (reg', log')) \/
     dynamic_client lib item (reg, log) = (out, (reg', log')) ->
     client reg' = client reg \/
     exists new r',
       client reg !! new = None /\
       client reg' = <[new := r']> (client reg) /\ out = Ok r') /\
  (forall userid r1 reg1 log1,
     dynamic_client lib userid (reg, log) = (Ok r1, (reg1, log1)) ->
     exists issuer,
       discovery_query lib log userid = Ok issuer /\
       client reg1 !! issuer = Some r1 /\
       OIDCClients_getitem lib issuer (reg1, log1) = (Ok r1, (reg1, log1)) /\
       forall userid2,
         discovery_query lib log1 userid2 = Ok issuer ->
         exists reg2,
           dynamic_client lib userid2 (reg1, log1) =
             (Ok r1, (reg2, (log1 ++ [EvWebfinger userid2])%list)) /\
           client reg2 = client reg1 /\ path reg2 = path reg1) /\
  (forall item r1 reg1 log1,
     OIDCClients_getitem lib item (reg, log) = (Ok r1, (reg1, log1)) ->
     exists key,
       client reg1 !! key = Some r1 /\
       OIDCClients_getitem lib key (reg1, log1) = (Ok r1, (reg1, log1))) /\
  (forall userid kwargs out reg' log',
     create_client lib userid kwargs (reg, log) = (out, (reg', log')) ->
     client reg' = client reg) /\
  (forall uris issuer out reg' log',
     get_path uris issuer (reg, log) = (out, (reg', log')) ->
     client reg' = client reg) /\
  (forall cfg items base seed_arg built log',
     items ≡ₚ map_to_list (CLIENTS cfg) ->
     OIDCClients_init lib cfg items base seed_arg log = (Ok built, log') ->
     keys built = dom (CLIENTS cfg) ∖ {[""]} /\ sound_references built).
Proof.
  assert (Hdyn : forall item out reg' log',
            dynamic_client lib item (reg, log) = (out, (reg', log')) ->
            (forall issuer r,
               client reg !! issuer = Some r ->
               client reg' !! issuer = Some r /\
               (forall c, objects reg !! r = Some c ->
                  objects reg' !! r = Some c)) /\
            (client reg' = client reg \/
             exists new r',
               client reg !! new = None /\
               client reg' = <[new := r']> (client reg) /\ out = Ok r')).
  { intros item out reg' log' H.
    destruct (dynamic_client_inv _ _ _ _ _ _ H) as [Ho Hcl]. split.
    - intros issuer r Hc. split; [|intros c; apply Ho].
      destruct Hcl as [->|(new & Hnew & -> & _)]; [exact Hc|].
      rewrite lookup_insert_ne; [exact Hc|]. congruence.
    - destruct Hcl as [Hcl|(new & Hnew & Hcl & Hout)]; [by left|].
      right. by exists new, (List.length (objects reg)). }
  assert (Hsecond : forall userid r1 reg1 log1,
            dynamic_client lib userid (reg, log) = (Ok r1, (reg1, log1)) ->
            exists issuer,
              discovery_query lib log userid = Ok issuer /\
              client reg1 !! issuer = Some r1 /\
              OIDCClients_getitem lib issuer (reg1, log1) =
                (Ok r1, (reg1, log1)) /\
              forall userid2,
                discovery_query lib log1 userid2 = Ok issuer ->
                exists reg2,
                  dynamic_client lib userid2 (reg1, log1) =
                    (Ok r1, (reg2, (log1 ++ [EvWebfinger userid2])%list)) /\
                  client reg2 = client reg1 /\ path reg2 = path reg1).
  { intros userid r1 reg1 log1 H.
    destruct (dynamic_client_ok_enters _ _ _ _ _ _ H) as (issuer & Hwf & Hin).
    exists issuer. split; [done|]. split; [done|].
    split; [by apply getitem_cached|].
    intros userid2 Hwf2. eexists. split.
    - by apply (dynamic_client_cached reg1 log1 userid2 issuer r1).
    - done. }
  split; [|split; [|split; [|split; [|split; [|split]]]]].
  - intros issuer r Hc. split; [by apply getitem_cached|]. split.
    + intros userid Hwf. eexists. split.
      * by apply (dynamic_client_cached reg log userid issuer r).
      * simpl. repeat split. intros i c Hi. by apply lookup_app_l_Some.
    + intros item out reg' log' [H|H].
      * unfold OIDCClients_getitem in H. unfold bind, get_state in H.
        simpl in H. destruct (client reg !! item) as [cached|] eqn:Hitem.
        -- by injection H as <- <- <-.
        -- by apply (proj1 (Hdyn _ _ _ _ H)).
      * by apply (proj1 (Hdyn _ _ _ _ H)).
  - intros item out reg' log' [H|H].
    + unfold OIDCClients_getitem in H. unfold bind, get_state in H.
      simpl in H. destruct (client reg !! item) as [cached|] eqn:Hitem.
      * injection H as <- <- <-. by left.
      * by apply (proj2 (Hdyn _ _ _ _ H)).
    + by apply (proj2 (Hdyn _ _ _ _ H)).
  - exact Hsecond.
  - intros item r1 reg1 log1 H.
    unfold OIDCClients_getitem in H. unfold bind, get_state in H.
    simpl in H. destruct (client reg !! item) as [cached|] eqn:Hitem.
    + injection H as <- <- <-. exists item. split; [done|].
      by apply getitem_cached.
    + destruct (Hsecond _ _ _ _ H) as (issuer & _ & Hin & Hagain & _).
      by exists issuer.
  - intros userid kwargs out reg' log' H.
    apply (keeps_inv (fun s => client s = client reg) (fun _ => True)
             (create_client lib userid kwargs) reg reg' log log' out);
      [|reflexivity|exact H].
    by apply (inv_create_client _ (fun _ => True)).
  - intros uris issuer out reg' log' H. by eapply get_path_keeps_clients.
  - intros cfg items base seed_arg built log' Hitems Hrun.
    destruct (OIDCClients_init_ok_inv cfg items base seed_arg log log' built
                Hitems Hrun) as (Hkeys & Hsound & _).
    by split.
Qed.

(** *** Dynamic registration *)

Lemma format_all_Forall2 (kwargs : gmap string string)
    (templates uris : list string) :
  format_all kwargs templates = Ok uris <->
  Forall2 (fun t u => str_format t kwargs = Ok u) templates uris.
Proof.
  revert uris. induction templates as [|t templates IH]; intros uris; simpl.
  - split.
    + intros H. injection H as <-. constructor.
    + intros H. by inversion H.
  - split.
    + destruct (str_format t kwargs) as [u|e] eqn:Hu; [|discriminate].
      destruct (format_all kwargs templates) as [us|e] eqn:Hus;
        [|discriminate].
      intros H. injection H as <-. constructor; [exact Hu|]. by apply IH.
    + intros H. inversion H as [|? u ? us Hu Hus]; subst.
      rewrite Hu. apply IH in Hus. by rewrite Hus.
Qed.

(** Lines 296-302 feed the seed, then the issuer, to the hash: the tag is
    that of the specification. *)
Lemma derive_redirect_uris_spec (seed : list Byte.byte)
    (base issuer : string) (templates : list string) :
  derive_redirect_uris seed base issuer templates =
    format_all (<["base" := base]> {["iss" := spec_issuer_tag seed issuer]})
               templates.
Proof. reflexivity. Qed.

Lemma string_app_cons (c : ascii) (s t : string) :
  String c s +:+ t = String c (s +:+ t).
Proof. reflexivity. Qed.

Lemma string_app_nil_l (s : string) : "" +:+ s = s.
Proof. reflexivity. Qed.

Lemma string_app_nil_r (s : string) : s +:+ "" = s.
Proof.
  induction s as [|c s IH]; [reflexivity|].
  by rewrite string_app_cons, IH.
Qed.

Lemma string_app_assoc (s t u : string) : (s +:+ t) +:+ u = s +:+ t +:+ u.
Proof.
  induction s as [|c s IH]; [reflexivity|].
  by rewrite !string_app_cons, IH.
Qed.

(** Literal text is copied by [str.format]. *)
Lemma format_from_literal (kwargs : gmap string string)
    (out lit rest : string) :
  brace_free lit ->
  format_from kwargs None out (lit +:+ rest) =
    format_from kwargs None (out +:+ lit) rest.
Proof.
  unfold brace_free. revert out.
  induction lit as [|c lit IH]; intros out Hfree.
  - by rewrite string_app_nil_r.
  - simpl in Hfree. apply andb_true_iff in Hfree. destruct Hfree as [Hc Hlit].
    apply negb_true_iff, orb_false_iff in Hc. destruct Hc as [Hc1 Hc2].
    rewrite string_app_cons. cbn [format_from]. rewrite Hc1, Hc2.
    rewrite IH by assumption.
    by rewrite string_app_assoc, string_app_cons.
Qed.

(** A replacement field opens, its name is read, and it closes. *)
Lemma format_from_open (kwargs : gmap string string) (out : string)
    (c : ascii) (r : string) :
  c <> "{"%char ->
  format_from kwargs None out (String "{" (String c r)) =
    format_from kwargs (Some EmptyString) out (String c r).
Proof.
  intros Hc. cbn [format_from].
  rewrite (bool_decide_eq_true_2 ("{"%char = "{"%char)) by reflexivity.
  destruct c as [[] [] [] [] [] [] [] []]; try reflexivity.
  by destruct Hc.
Qed.

Lemma format_from_name (kwargs : gmap string string) (name out : string)
    (c : ascii) (r : string) :
  c <> "}"%char -> is_field_special c = false ->
  format_from kwargs (Some name) out (String c r) =
    format_from kwargs (Some (name +:+ String c EmptyString)) out r.
Proof.
  intros Hc Hs. cbn [format_from].
  rewrite bool_decide_eq_false_2 by assumption. by rewrite Hs.
Qed.

Lemma format_from_close (kwargs : gmap string string) (name out : string)
    (r : string) (v : string) :
  format_field kwargs name = Ok v ->
  format_from kwargs (Some name) out (String "}" r) =
    format_from kwargs None (out +:+ v) r.
Proof.
  intros Hv. cbn [format_from].
  rewrite (bool_decide_eq_true_2 ("}"%char = "}"%char)) by reflexivity.
  by rewrite Hv.
Qed.

Lemma format_from_end (kwargs : gmap string string) (out : string) :
  format_from kwargs None out EmptyString = Ok out.
Proof. reflexivity. Qed.

(** A template made of literal text around [{base}] and [{iss}] becomes the
    text with the two values in their places. *)
Lemma str_format_substitutes (base tag p m q : string) :
  brace_free p -> brace_free m -> brace_free q ->
  str_format (p +:+ "{base}" +:+ m +:+ "{iss}" +:+ q)
             (<["base" := base]> {["iss" := tag]}) =
    Ok (p +:+ base +:+ m +:+ tag +:+ q).
Proof.
  intros Hp Hm Hq. unfold str_format.
  set (kw := <["base" := base]> {["iss" := tag]}).
  assert (Hbase : format_field kw "base" = Ok base).
  { unfold format_field. cbn [string_forall is_digit].
    subst kw. by rewrite lookup_insert_eq. }
  assert (Hiss : format_field kw "iss" = Ok tag).
  { unfold format_field. cbn [string_forall is_digit].
    subst kw. rewrite lookup_insert_ne by done.
    by rewrite lookup_singleton_eq. }
  rewrite (format_from_literal kw _ p) by assumption.
  rewrite ?string_app_cons, ?string_app_nil_l.
  rewrite format_from_open by discriminate.
  rewrite !format_from_name by (discriminate || reflexivity).
  rewrite (format_from_close kw _ _ _ base) by exact Hbase.
  rewrite ?string_app_cons, ?string_app_nil_l.
  rewrite (format_from_literal kw _ m) by assumption.
  rewrite format_from_open by discriminate.
  rewrite !format_from_name by (discriminate || reflexivity).
  rewrite (format_from_close kw _ _ _ tag) by exact Hiss.
  rewrite ?string_app_cons, ?string_app_nil_l.
  rewrite <- (string_app_nil_r q) at 1.
  rewrite (format_from_literal kw _ q) by assumption.
  rewrite format_from_end.
  by rewrite !string_app_assoc.
Qed.

(** Lines 283-305 for an issuer that has no client yet: the calls up to the
    registration, and the path index after it. *)
Lemma dynamic_client_unseen (reg : OIDCClients) (log : list event)
    (userid issuer : string) (pcr : gmap string atom)
    (profile : gmap string pyval) (cinfo : gmap string atom)
    (templates : list string) (endpoint : atom) :
  discovery_query lib log userid = Ok issuer ->
  client reg !! issuer = None ->
  provider_config lib (log ++ [EvWebfinger userid])%list issuer = Ok pcr ->
  CLIENTS (config reg) !! EmptyString = Some profile ->
  profile !! "client_info" = Some (PDict cinfo) ->
  cinfo !! "redirect_uris" = Some (AList templates) ->
  pcr !! "registration_endpoint" = Some endpoint ->
  match derive_redirect_uris (seed reg) (base_url reg) issuer templates with
  | Ok uris =>
      match path_keys uris with
      | Ok keys =>
          exists out reg',
            dynamic_client lib userid (reg, log) =
              (out,
               (reg',
                (log ++ [EvWebfinger userid; EvProviderConfig issuer;
                         EvRegister endpoint
                           (<["redirect_uris" := AList uris]> cinfo)])%list))
            /\ path reg' = record_paths keys issuer (path reg)
      | Raise e =>
          exists reg',
            dynamic_client lib userid (reg, log) =
              (Raise e,
               (reg',
                (log ++ [EvWebfinger userid; EvProviderConfig issuer])%list))
            /\ path reg' =
                 record_paths (keys_before_refusal uris) issuer (path reg)
            /\ client reg' = client reg
      end
  | Raise e =>
      exists reg',
        dynamic_client lib userid (reg, log) =
          (Raise e,
           (reg',
            (log ++ [EvWebfinger userid; EvProviderConfig issuer])%list)) /\
        path reg' = path reg
  end.
Proof.
  intros Hwf Hnone Hpc Hprof Hci Hru Hep.
  unfold dynamic_client, register_dynamic, new_client, do_provider_config,
    do_register, update_behaviour, update_client, as_dict, atom_list.
  unfold_monad. simpl.
  rewrite Hwf. simpl. rewrite Hnone. simpl. rewrite Hpc. simpl.
  rewrite Hprof, Hci. simpl. rewrite Hru. simpl.
  destruct (derive_redirect_uris (seed reg) (base_url reg) issuer templates)
    as [uris|e]; simpl.
  - rewrite get_path_run.
    destruct (path_keys uris) as [keys|e] eqn:Hkeys; simpl.
    + rewrite (path_keys_before_refusal uris keys Hkeys).
      rewrite Hep. simpl. rewrite <- !app_assoc. simpl.
      match goal with
      | |- context [register lib ?l ?ep ?args] =>
          destruct (register lib l ep args) as [resp|e]
      end; simpl.
      * destruct (profile !! "behaviour") as [[a|b]|]; simpl;
          eexists _, _; rewrite <- ?app_assoc; split; reflexivity.
      * eexists _, _; rewrite <- ?app_assoc; split; reflexivity.
    + eexists. rewrite <- !app_assoc. split; [reflexivity|]. by split.
  - eexists. rewrite <- !app_assoc. split; reflexivity.
Qed.

Lemma registered_redirect_uris_of_run (userid issuer : string)
    (endpoint : atom) (cinfo : gmap string atom) (uris : list string) :
  registered_redirect_uris
    [EvWebfinger userid; EvProviderConfig issuer;
     EvRegister endpoint (<["redirect_uris" := AList uris]> cinfo)] =
    [AList uris].
Proof. simpl. by rewrite lookup_insert_eq. Qed.

End RegistryProperties.

(** C9.  The redirect URIs that [dynamic_client] derives for an issuer
    without a client are a function of the seed, the issuer, the base URL
    and the templates of the default profile.  Each template of
    [CLIENTS[""]["client_info"]["redirect_uris"]] is formatted with [base],
    the registry's base URL, and [iss], the hexadecimal SHA-256 digest of
    the seed followed by the issuer; for a template that is literal text
    around [{base}] and [{iss}] this is the text with the two values
    substituted.  The list so derived is the only such list.  When
    [urlsplit] takes every URI of it, it is the list sent in the
    registration request, and its path keys are recorded in the path index;
    when [urlsplit] refuses one of them, [dynamic_client] raises at line 304
    and nothing is registered.  Another invocation with the same seed, base
    URL, issuer and templates -- on whatever registry, log, user and
    library -- sends the identical list. *)
Theorem dynamic_redirect_uris_deterministic (lib : Library)
    (reg : OIDCClients) (log : list event) (userid issuer : string) (pcr : gmap string atom)
    (profile : gmap string pyval) (cinfo : gmap string atom)
    (templates : list string) (endpoint : atom) :
  discovery_query lib log userid = Ok issuer ->
  client reg !! issuer = None ->
  provider_config lib (log ++ [EvWebfinger userid])%list issuer = Ok pcr ->
  CLIENTS (config reg) !! EmptyString = Some profile ->
  profile !! "client_info" = Some (PDict cinfo) ->
  cinfo !! "redirect_uris" = Some (AList templates) ->
  pcr !! "registration_endpoint" = Some endpoint ->
  let tag := spec_issuer_tag (seed reg) issuer in
  let kw : gmap string string := <["base" := base_url reg]> {["iss" := tag]} in
  (forall uris keys,
     Forall2 (fun t u => str_format t kw = Ok u) templates uris ->
     path_keys uris = Ok keys ->
     exists out reg',
       dynamic_client lib userid (reg, log) =
         (out,
          (reg',
           (log ++ [EvWebfinger userid; EvProviderConfig issuer;
                    EvRegister endpoint
                      (<["redirect_uris" := AList uris]> cinfo)])%list)) /\
       path reg' = record_paths keys issuer (path reg)) /\
  (forall uris e,
     Forall2 (fun t u => str_format t kw = Ok u) templates uris ->
     path_keys uris = Raise e ->
     exists reg',
       dynamic_client lib userid (reg, log) =
         (Raise e,
          (reg',
           (log ++ [EvWebfinger userid; EvProviderConfig issuer])%list)) /\
       client reg' = client reg) /\
  (forall uris uris',
     Forall2 (fun t u => str_format t kw = Ok u) templates uris ->
     Forall2 (fun t u => str_format t kw = Ok u) templates uris' ->
     uris = uris') /\
  (forall p m q,
     brace_free p -> brace_free m -> brace_free q ->
     str_format (p +:+ "{base}" +:+ m +:+ "{iss}" +:+ q) kw =
       Ok (p +:+ base_url reg +:+ m +:+ tag +:+ q)) /\
  (forall lib2 reg2 log2 userid2 pcr2 profile2 cinfo2 endpoint2
          out1 reg1' evs1 out2 reg2' evs2,
     seed reg2 = seed reg -> base_url reg2 = base_url reg ->
     discovery_query lib2 log2 userid2 = Ok issuer ->
     client reg2 !! issuer = None ->
     provider_config lib2 (log2 ++ [EvWebfinger userid2])%list issuer
       = Ok pcr2 ->
     CLIENTS (config reg2) !! EmptyString = Some profile2 ->
     profile2 !! "client_info" = Some (PDict cinfo2) ->
     cinfo2 !! "redirect_uris" = Some (AList templates) ->
     pcr2 !! "registration_endpoint" = Some endpoint2 ->
     dynamic_client lib userid (reg, log) =
       (out1, (reg1', (log ++ evs1)%list)) ->
     dynamic_client lib2 userid2 (reg2, log2) =
       (out2, (reg2', (log2 ++ evs2)%list)) ->
     registered_redirect_uris evs1 = registered_redirect_uris evs2).
Proof.
  intros Hwf Hnone Hpc Hprof Hci Hru Hep tag kw.
  pose proof (dynamic_client_unseen lib reg log userid issuer pcr profile
                cinfo templates endpoint Hwf Hnone Hpc Hprof Hci Hru Hep)
    as Hrun.
  rewrite derive_redirect_uris_spec in Hrun. fold tag in Hrun. fold kw in Hrun.
  split; [|split; [|split; [|split]]].
  - intros uris keys Huris Hkeys. apply format_all_Forall2 in Huris.
    by rewrite Huris, Hkeys in Hrun.
  - intros uris e Huris Hkeys. apply format_all_Forall2 in Huris.
    rewrite Huris, Hkeys in Hrun.
    destruct Hrun as (reg' & Heq & _ & Hcl). by exists reg'.
  - intros uris uris' H1 H2.
    apply format_all_Forall2 in H1. apply format_all_Forall2 in H2. congruence.
  - intros p m q. apply str_format_substitutes.
  - intros lib2 reg2 log2 userid2 pcr2 profile2 cinfo2 endpoint2
           out1 reg1' evs1 out2 reg2' evs2
           Hseed Hbase Hwf2 Hnone2 Hpc2 Hprof2 Hci2 Hru2 Hep2 Hrun1 Hrun2.
    pose proof (dynamic_client_unseen lib2 reg2 log2 userid2 issuer
                  pcr2 profile2 cinfo2 templates endpoint2 Hwf2 Hnone2 Hpc2
                  Hprof2 Hci2 Hru2 Hep2) as Hrun'.
    rewrite derive_redirect_uris_spec, Hseed, Hbase in Hrun'.
    fold tag in Hrun'. fold kw in Hrun'.
    destruct (format_all kw templates) as [uris|e];
      [destruct (path_keys uris) as [keys|e]|].
    + destruct Hrun as (o1 & r1 & Heq1 & _).
      destruct Hrun' as (o2 & r2 & Heq2 & _).
      rewrite Heq1 in Hrun1. rewrite Heq2 in Hrun2.
      injection Hrun1 as _ _ Hl1. injection Hrun2 as _ _ Hl2.
      apply app_inv_head in Hl1. apply app_inv_head in Hl2. subst evs1 evs2.
      by rewrite !registered_redirect_uris_of_run.
    + destruct Hrun as (r1 & Heq1 & _). destruct Hrun' as (r2 & Heq2 & _).
      rewrite Heq1 in Hrun1. rewrite Heq2 in Hrun2.
      injection Hrun1 as _ _ Hl1. injection Hrun2 as _ _ Hl2.
      apply app_inv_head in Hl1. apply app_inv_head in Hl2. by subst evs1 evs2.
    + destruct Hrun as (r1 & Heq1 & _). destruct Hrun' as (r2 & Heq2 & _).
      rewrite Heq1 in Hrun1. rewrite Heq2 in Hrun2.
      injection Hrun1 as _ _ Hl1. injection Hrun2 as _ _ Hl2.
      apply app_inv_head in Hl1. apply app_inv_head in Hl2. by subst evs1 evs2.
Qed.

Lemma callback_state_mismatch_witness :
  exists log',
    callback (Ex.lib (Ok (Resp (Ex.authz "S1" None))) (Raise (LibraryError "unused"))
                (Raise (LibraryError "unused")))
      "state=S1&code=C0DE" (Ex.start (Ex.rp "code" false)) =
      (Ok (RError (OIDCError "Received state not the same as expected.")),
       ({| self := Ex.rp "code" false; session := Ex.sess |}, log')) /\
    log' = [] /\
    filter (fun ev => is_network ev = true) log' =
      filter (fun ev => is_network ev = true) [].
Proof.
  apply (callback_state_mismatch
           (Ex.lib (Ok (Resp (Ex.authz "S1" None)))
                   (Raise (LibraryError "unused"))
                   (Raise (LibraryError "unused")))
           (Ex.rp "code" false) Ex.sess [] "state=S1&code=C0DE"
           (Ex.authz "S1" None) "S2" "S1").
  - reflexivity.
  - vm_compute. reflexivity.
  - vm_compute. reflexivity.
  - discriminate.
Defined.

Lemma callback_nonce_consistency_witness :
  let front := Ex.token "https://op.example" "alice" "N" "RS256" in
  let exchanged := Ex.token "https://op.example" "alice" "BAD" "RS256" in
  let lib := Ex.lib (Ok (Resp (Ex.authz "S2" (Some front))))
                    (Ok (Resp (Ex.atr (Some exchanged))))
                    (Ok (Resp (Ex.userinfo "alice"))) in
  let c := Ex.rp "code" false in
  callback lib "code=C0DE&state=S2" (Ex.start c) =
    (Raise (OIDCError "Nonce missmatch"),
     ({| self := cache_put "S2" exchanged (cache_put "S2" front c);
         session := Ex.sess |},
      [EvTokenRequest
         (token_request c "S2" "C0DE" "https://rp.example/cb"
            (AStr "client_secret_basic"))])).
Proof.
  intros front exchanged lib c.
  apply (proj2 (proj2 (callback_nonce_consistency lib c Ex.sess []
                         "code=C0DE&state=S2"))
           (Ex.authz "S2" (Some front)) exchanged
           (cache_put "S2" exchanged (cache_put "S2" front c))
           [EvTokenRequest
              (token_request c "S2" "C0DE" "https://rp.example/cb"
                 (AStr "client_secret_basic"))]
           "https://op.example" "BAD" "N").
  - exists "S2". split.
    + repeat split; try (vm_compute; reflexivity).
      intros ftok Hf. injection Hf as <-. exists "N".
      split; vm_compute; reflexivity.
    + vm_compute. reflexivity.
  - vm_compute. reflexivity.
  - vm_compute. reflexivity.
  - vm_compute. reflexivity.
  - vm_compute. reflexivity.
  - discriminate.
Defined.

Lemma callback_alg_none_gate_witness :
  let tok := Ex.token "https://op.example" "alice" "N" "none" in
  let lib := Ex.lib (Ok (Resp (Ex.authz "S2" (Some tok))))
                    (Raise (LibraryError "unused"))
                    (Ok (Resp (Ex.userinfo "alice"))) in
  let c := Ex.rp "id_token" false in
  callback lib "id_token=...&state=S2" (Ex.start c) =
    (Raise (OIDCError alg_none_message),
     ({| self := cache_put "S2" tok c; session := Ex.sess |}, [])).
Proof.
  intros tok lib c.
  refine (proj1 (proj2 (callback_alg_none_gate lib c Ex.sess []
                          "id_token=...&state=S2"
                          (Ex.authz "S2" (Some tok)) tok
                          (cache_put "S2" tok c) []
                          "https://op.example" "N" "none"
                          _ _ _ _ _ _)) eq_refl eq_refl).
  - exists "S2". split.
    + repeat split; try (vm_compute; reflexivity).
      intros ftok Hf. injection Hf as <-. exists "N".
      split; vm_compute; reflexivity.
    + vm_compute. reflexivity.
  - vm_compute. reflexivity.
  - vm_compute. reflexivity.
  - vm_compute. reflexivity.
  - vm_compute. reflexivity.
  - vm_compute. reflexivity.
Defined.

(** C4 (counterexample).  The hybrid response type names [code], yet the
    callback of a client configured with it is accepted on the front-channel
    ID token alone: the only library call is the userinfo request. *)
Lemma hybrid_response_type_gets_no_exchange :
  let tok := Ex.token "https://op.example" "alice" "N" "RS256" in
  let lib := Ex.lib (Ok (Resp (Ex.authz "S2" (Some tok))))
                    (Ok (Resp (Ex.atr (Some tok))))
                    (Ok (Resp (Ex.userinfo "alice"))) in
  let c := Ex.rp "code id_token" false in
  spec_includes_code (AStr "code id_token") = true /\
  callback lib "code=C0DE&id_token=...&state=S2" (Ex.start c) =
    (Ok (RResult "https://op.example:alice" (Ex.userinfo "alice")),
     ({| self := cache_put "S2" tok c; session := Ex.sess |},
      [EvUserInfoRequest "S2" None])).
Proof. split; vm_compute; reflexivity. Qed.

Lemma callback_exchange_iff_code_witness :
  let lib := Ex.lib (Ok (Resp (Ex.authz "S2" None)))
                    (Ok (ErrResp {["error" := "invalid_grant"]}))
                    (Ok (Resp (Ex.userinfo "alice"))) in
  let c := Ex.rp "code" false in
  exists evs,
    snd (snd (callback lib "code=C0DE&state=S2" (Ex.start c))) =
      ([] ++ EvTokenRequest
               {| tr_scope := "openid"; tr_state := "S2"; tr_code := "C0DE";
                  tr_redirect_uri := "https://rp.example/cb";
                  tr_client_id := Some "rp-1";
                  tr_client_secret := Some "s3cret";
                  tr_authn_method := AStr "client_secret_basic" |} :: evs)%list
    /\ no_token_request evs.
Proof.
  intros lib c.
  apply (proj2 (callback_exchange_iff_code lib c Ex.sess []
                  "code=C0DE&state=S2")
           (Ex.authz "S2" None) "S2" "C0DE" "https://rp.example/cb" []
           (AStr "client_secret_basic")).
  - repeat split; try (vm_compute; reflexivity).
    intros ftok Hf. discriminate.
  - vm_compute. reflexivity.
  - vm_compute. reflexivity.
  - vm_compute. reflexivity.
  - vm_compute. reflexivity.
Defined.

Lemma callback_code_flow_without_id_token_witness :
  let lib := Ex.lib (Ok (Resp (Ex.authz "S2" None)))
                    (Ok (Resp (Ex.atr None)))
                    (Ok (Resp (Ex.userinfo "alice"))) in
  let c := Ex.rp "code" false in
  callback lib "code=C0DE&state=S2" (Ex.start c) =
    (Raise (KeyError "id_token"),
     ({| self := c; session := Ex.sess |},
      ([] ++ [EvTokenRequest
                (token_request c "S2" "C0DE" "https://rp.example/cb"
                   (AStr "client_secret_basic"))])%list))
  /\ fst (callback lib "code=C0DE&state=S2" (Ex.start c)) <>
       Raise (OIDCError "Invalid response: no IdToken").
Proof.
  intros lib c.
  apply (callback_code_flow_without_id_token lib c Ex.sess []
           "code=C0DE&state=S2" (Ex.authz "S2" None) "S2" "C0DE"
           "https://rp.example/cb" [] (AStr "client_secret_basic")
           (Ex.atr None)).
  - repeat split; try (vm_compute; reflexivity).
    intros ftok Hf. discriminate.
  - vm_compute. reflexivity.
  - vm_compute. reflexivity.
  - vm_compute. reflexivity.
  - vm_compute. reflexivity.
  - reflexivity.
  - reflexivity.
Defined.

(** C10 (counterexample).  A nonce mismatch is a failure after the first
    two, and for a front-channel ID token it is handed back as a value, not
    raised. *)
Lemma front_channel_nonce_mismatch_is_returned :
  let tok := Ex.token "https://op.example" "alice" "BAD" "RS256" in
  let lib := Ex.lib (Ok (Resp (Ex.authz "S2" (Some tok))))
                    (Raise (LibraryError "unused"))
                    (Raise (LibraryError "unused")) in
  let c := Ex.rp "id_token" false in
  callback lib "id_token=...&state=S2" (Ex.start c) =
    (Ok (RError (OIDCError "Received nonce not the same as expected.")),
     Ex.start c).
Proof. vm_compute. reflexivity. Qed.

Lemma callback_error_signalling_witness :
  let tok := Ex.token "https://op.example" "alice" "N" "RS256" in
  let lib := Ex.lib (Ok (Resp (Ex.authz "S2" (Some tok))))
                    (Raise (LibraryError "unused"))
                    (Ok (Resp (Ex.userinfo "mallory"))) in
  let c := Ex.rp "id_token" false in
  fst (callback lib "id_token=...&state=S2" (Ex.start c)) =
    Raise (OIDCError "Invalid response: userid mismatch").
Proof.
  intros tok lib c.
  destruct (callback_error_signalling lib c Ex.sess [] "id_token=...&state=S2")
    as (_ & _ & _ & _ & _ & H).
  destruct (H (Ex.authz "S2" (Some tok)) tok (cache_put "S2" tok c) []
              "https://op.example") as (_ & _ & _ & Hinfo).
  - exists "S2". split.
    + repeat split; try (vm_compute; reflexivity).
      intros ftok Hf. injection Hf as <-. exists "N".
      split; vm_compute; reflexivity.
    + vm_compute. reflexivity.
  - vm_compute. reflexivity.
  - refine (proj2 (Hinfo "N" "alice" "S2" _ _ _ _ _ _)
              (Ex.userinfo "mallory") "mallory" _ _ _).
    + vm_compute. reflexivity.
    + vm_compute. reflexivity.
    + vm_compute. reflexivity.
    + right. exists "RS256". split; [vm_compute; reflexivity|discriminate].
    + vm_compute. reflexivity.
    + vm_compute. reflexivity.
    + reflexivity.
    + vm_compute. reflexivity.
    + discriminate.
Defined.

(** C6 at the two configurations: the exception is the [KeyError] of
    [kwargs['client_info']], raised after the registration was stored. *)
Lemma supplied_registration_key_error :
  fst (run (create_client Ex.quiet "" Ex.static_kwargs) Ex.registry) =
    Raise (KeyError "client_info") /\
  fst (run (create_client Ex.quiet "" Ex.discovered_static_kwargs)
         Ex.registry) =
    Raise (KeyError "client_info").
Proof. split; vm_compute; reflexivity. Qed.

Lemma create_client_supplied_registration_raises_witness :
  exists e reg' evs,
    create_client Ex.quiet "" Ex.static_kwargs (Ex.registry, []) =
      (Raise e, (reg', ([] ++ evs)%list)) /\
    path reg' = path Ex.registry /\
    client reg' = client Ex.registry /\
    Forall (fun ev => is_register ev = false) evs.
Proof.
  apply (create_client_supplied_registration_raises Ex.quiet Ex.registry []
           "" Ex.static_kwargs).
  left. vm_compute. reflexivity.
Defined.

(** C7 (counterexample).  In the scenario the provisioning succeeds, the
    resolved issuer is [https://op.example], and the path index has no entry
    for [/cb]: the entry is under [cb], and its value is the discovery
    URL. *)
Lemma discovery_scenario_path_index :
  let out := run (create_client Ex.quiet "" Ex.discovery_kwargs) Ex.registry in
  let reg' := fst (snd out) in
  fst out = Ok 0 /\
  (objects reg' !! 0 ≫= fun c => provider_info c !! "issuer") =
    Some (AStr "https://op.example") /\
  path reg' !! "/cb" = None /\
  path reg' !! "/cb" <> Some "https://op.example" /\
  path reg' !! "cb" = Some "https://op.example/.well-known".
Proof.
  vm_compute. repeat split; try reflexivity. discriminate.
Qed.

Lemma create_client_records_paths_witness :
  exists r reg',
    create_client Ex.quiet "" Ex.discovery_kwargs (Ex.registry, []) =
      (Ok r, (reg',
              ([] ++ [EvProviderConfig "https://op.example/.well-known";
                      EvRegister (AStr "https://op.example/register")
                        Ex.client_info])%list)) /\
    path reg' !! "cb" = Some "https://op.example/.well-known" /\
    path reg' !! "/cb" = path Ex.registry !! "/cb".
Proof.
  refine (proj2 (create_client_records_paths Ex.quiet Ex.registry [] ""
                   Ex.discovery_kwargs)
            (<["response_type" := AStr "code"]>
               {["scope" := AList ["openid"]]})
            Ex.client_info Ex.pcr (Ex.registered Ex.client_info)
            (AStr "https://op.example/register") _ _ _ _ _ _ _ _ _ _ _);
    vm_compute; reflexivity.
Defined.

(** C8 (counterexample).  A registry is constructed from a configuration
    with one client under the key [https://op.example].  The constructor
    enters that key: the only calls are the fetch of the provider
    configuration and the registration of [create_client], there is no
    webfinger call, and [dynamic_client] has not run.  Indexing with the key
    then gives the client of the constructor. *)
Lemma constructor_enters_static_keys :
  let cfg :=
    {| CLIENTS := {["https://op.example" := Ex.discovery_kwargs]};
       VERIFY_SSL := true |} in
  let out :=
    OIDCClients_init Ex.quiet cfg (map_to_list (CLIENTS cfg))
      "https://rp.example" "seed" [] in
  snd out =
    [EvProviderConfig "https://op.example/.well-known";
     EvRegister (AStr "https://op.example/register") Ex.client_info] /\
  match fst out with
  | Ok reg =>
      client reg !! "https://op.example" = Some 0 /\
      OIDCClients_getitem Ex.quiet "https://op.example" (reg, snd out) =
        (Ok 0, (reg, snd out))
  | Raise _ => False
  end.
Proof. vm_compute. repeat split; reflexivity. Qed.

(** C8 on two resolutions in a row: the first registers the issuer, the
    second finds it; the log holds one registration. *)
Lemma second_resolution_registers_nothing :
  let first := dynamic_client Ex.quiet "alice@op.example" (Ex.registry, []) in
  let second := dynamic_client Ex.quiet "bob@op.example" (snd first) in
  fst first = Ok 0 /\ fst second = Ok 0 /\
  client (fst (snd second)) = {["https://op.example" := 0]} /\
  filter (fun ev => is_register ev = true) (snd (snd second)) =
    filter (fun ev => is_register ev = true) (snd (snd first)) /\
  List.length (filter (fun ev => is_register ev = true) (snd (snd second))) = 1.
Proof. vm_compute. repeat split; reflexivity. Qed.

Lemma resolution_is_idempotent_witness :
  exists reg',
    dynamic_client Ex.quiet "alice@op.example" (Ex.cached_registry, []) =
      (Ok 0, (reg', ([] ++ [EvWebfinger "alice@op.example"])%list)) /\
    client reg' = client Ex.cached_registry /\
    path reg' = path Ex.cached_registry /\
    forall i c,
      objects Ex.cached_registry !! i = Some c -> objects reg' !! i = Some c.
Proof.
  refine (proj1 (proj2 (proj1 (resolution_is_idempotent Ex.quiet
                                 Ex.cached_registry [])
                          "https://op.example" 0 _))
            "alice@op.example" _);
    vm_compute; reflexivity.
Defined.

Lemma dynamic_redirect_uris_deterministic_witness :
  exists out reg',
    dynamic_client Ex.quiet "alice@op.example" (Ex.registry, []) =
      (out,
       (reg',
        ([] ++
         [EvWebfinger "alice@op.example";
          EvProviderConfig "https://op.example";
          EvRegister (AStr "https://op.example/register")
            (<["redirect_uris" :=
                 AList ["https://rp.example/authz_cb/39c7338f91ddc84e9abcd4bf4d2cc039878f869b5ddef0d3bc6018d965c78b83"]]>
               (<["redirect_uris" := AList ["{base}/authz_cb/{iss}"]]>
                  {["client_name" := AStr "rp"]}))])%list)) /\
    path reg' =
      record_paths
        ["authz_cb/39c7338f91ddc84e9abcd4bf4d2cc039878f869b5ddef0d3bc6018d965c78b83"]
        "https://op.example" (path Ex.registry).
Proof.
  refine (proj1 (dynamic_redirect_uris_deterministic Ex.quiet Ex.registry []
                   "alice@op.example" "https://op.example" Ex.pcr
                   Ex.default_profile
                   (<["redirect_uris" := AList ["{base}/authz_cb/{iss}"]]>
                      {["client_name" := AStr "rp"]})
                   ["{base}/authz_cb/{iss}"]
                   (AStr "https://op.example/register") _ _ _ _ _ _ _)
            ["https://rp.example/authz_cb/39c7338f91ddc84e9abcd4bf4d2cc039878f869b5ddef0d3bc6018d965c78b83"]
            ["authz_cb/39c7338f91ddc84e9abcd4bf4d2cc039878f869b5ddef0d3bc6018d965c78b83"]
            _ _);
    try (vm_compute; reflexivity).
  constructor; [vm_compute; reflexivity|constructor].
Defined.

(** ** The models of the standard library on known values *)

Example sha256_of_abc :
  hashlib.hexdigest (hashlib.sha256 (encode_utf8 "abc")) =
    "ba7816bf8f01cfea414140de5dae2223b00361a396177a9cb410ff61f20015ad".
Proof. vm_compute. reflexivity. Qed.

Example sha256_of_nothing :
  hashlib.hexdigest (hashlib.sha256 []) =
    "e3b0c44298fc1c149afbf4c8996fb92427ae41e4649b934ca495991b7852b855".
Proof. vm_compute. reflexivity. Qed.

Example sha256_of_two_blocks :
  hashlib.hexdigest
    (hashlib.update
       (hashlib.sha256
          (encode_utf8 "abcdbcdecdefdefgefghfghighijhijkijkljklmklmn"))
       (encode_utf8 "lmnomnopnopq")) =
    "248d6a61d20638b8e5c026930c3e6039a33ce45964ff2167f6ecedd419db06c1".
Proof. vm_compute. reflexivity. Qed.

Example issuer_tag_of_example :
  spec_issuer_tag (encode_utf8 "seed") "https://op.example" =
    "39c7338f91ddc84e9abcd4bf4d2cc039878f869b5ddef0d3bc6018d965c78b83".
Proof. vm_compute. reflexivity. Qed.

Example encode_utf8_latin1 :
  encode_utf8 (String (ascii_of_nat 233) "a") = ["195"; "169"; "a"]%byte.
Proof. vm_compute. reflexivity. Qed.

Example urlsplit_path_plain :
  urlsplit_path "https://rp.example/cb" = Ok "/cb".
Proof. reflexivity. Qed.

Example urlsplit_path_query_fragment :
  urlsplit_path "https://rp.example/cb/x?y=1#frag" = Ok "/cb/x".
Proof. reflexivity. Qed.

Example urlsplit_path_no_netloc : urlsplit_path "authz/cb" = Ok "authz/cb".
Proof. reflexivity. Qed.

Example urlsplit_path_empty : urlsplit_path "https://rp.example" = Ok "".
Proof. reflexivity. Qed.

(** A leading blank is stripped, and tab, CR and LF are removed wherever
    they stand. *)
Example urlsplit_path_sanitised :
  let tab := String (ascii_of_nat 9) EmptyString in
  let lf := String (ascii_of_nat 10) EmptyString in
  let cr := String (ascii_of_nat 13) EmptyString in
  urlsplit_path " https://rp.example/cb" = Ok "/cb" /\
  urlsplit_path ("https://rp.example/c" +:+ tab +:+ "b") = Ok "/cb" /\
  urlsplit_path ("https://rp.example/cb" +:+ lf) = Ok "/cb" /\
  urlsplit_path ("ht" +:+ cr +:+ "tps://rp.example/cb") = Ok "/cb" /\
  urlsplit_path "https://rp.example/cb " = Ok "/cb ".
Proof. vm_compute. repeat split; reflexivity. Qed.

(** One square bracket in the network location without the other is
    refused; a bracketed host is outside the model. *)
Example urlsplit_path_brackets :
  urlsplit_path "https://[rp.example/cb" =
    Raise (ValueError "Invalid IPv6 URL") /\
  urlsplit_path "https://rp.example]/cb" =
    Raise (ValueError "Invalid IPv6 URL") /\
  urlsplit_path "https://rp.example/[cb" = Ok "/[cb" /\
  urlsplit_path "https://[::1]/cb" =
    Raise (NotModelled "urlsplit: bracketed host").
Proof. vm_compute. repeat split; reflexivity. Qed.

(** [get_path] stops at the URI that [urlsplit] refuses: the paths of the
    URIs before it are in the index. *)
Example get_path_stops_at_refused_uri :
  get_path ["https://rp.example/a"; "https://[rp.example/b";
            "https://rp.example/c"] "https://op.example" (Ex.registry, []) =
    (Raise (ValueError "Invalid IPv6 URL"),
     (set_path {["a" := "https://op.example"]} Ex.registry, [])).
Proof. vm_compute. reflexivity. Qed.

(** With a base URL that [urlsplit] refuses, [dynamic_client] raises at
    line 304: the provider configuration has been fetched, nothing is
    registered and no client is entered. *)
Example dynamic_client_refused_base_url :
  let reg :=
    {| objects := []; client := ∅; config := config Ex.registry;
       seed := seed Ex.registry; path := ∅;
       base_url := "https://[rp.example" |} in
  let out := dynamic_client Ex.quiet "alice@op.example" (reg, []) in
  fst out = Raise (ValueError "Invalid IPv6 URL") /\
  snd (snd out) =
    [EvWebfinger "alice@op.example"; EvProviderConfig "https://op.example"] /\
  client (fst (snd out)) = ∅ /\ path (fst (snd out)) = ∅.
Proof. vm_compute. repeat split; reflexivity. Qed.

Example str_format_plain :
  str_format "{base}/authz_cb/{iss}"
    (<["base" := "https://rp.example"]> {["iss" := "ab12"]}) =
    Ok "https://rp.example/authz_cb/ab12".
Proof. vm_compute. reflexivity. Qed.

Example str_format_escaped_braces :
  str_format "{{{base}}}" (<["base" := "b"]> {["iss" := "i"]}) = Ok "{b}".
Proof. vm_compute. reflexivity. Qed.

Example str_format_unknown_field :
  str_format "{base}/{realm}" (<["base" := "b"]> {["iss" := "i"]}) =
    Raise (KeyError "realm").
Proof. vm_compute. reflexivity. Qed.

Example str_format_single_brace :
  str_format "{base}/}" (<["base" := "b"]> {["iss" := "i"]}) =
    Raise (ValueError "Single '}' encountered in format string").
Proof. vm_compute. reflexivity. Qed.
